(** * Failure-pattern escalation and the security-audit pipeline

    A shallow embedding of the decision logic found in
    - [graphs/security-auditor/index.ts]: the audit graph with its routing
      function, and the transcript utilities (grouping of tool messages,
      error rates, stuck detection, the smart-recovery decision);
    - [graphs/programmer/nodes/smart-error-recovery.ts]: the per-thread
      recovery state, model rotation and circuit breaker, and the report
      synthesizer [parseSecurityAnalysis] with the finalize node;
    - [graphs/security-auditor/nodes/initialize-security-audit.ts]: the
      initialize node;
    - [graphs/security-auditor/nodes/generate-security-recommendations.ts]:
      the recommend and scan nodes;
    - [scripts/validate-env.js]: the environment-file parser and check;
    followed by the properties stated about them.

    Conventions of the model.
    - A JavaScript string is a [string]: ASCII characters are themselves and
      any other character is carried as its UTF-8 encoding (an unpaired
      surrogate in the three-byte form of generalized UTF-8).  [toLowerCase],
      the [/i] flag, [\s], [\d], [trim] and the line terminators excluded by
      [.] are modelled on the ASCII range, where they coincide with
      JavaScript; Unicode-only spaces, separators and case mappings are
      outside the model.  [length] and [substring] count UTF-16 code units,
      as JavaScript does: see [length16] and [substring0].
    - Numbers that count (retry counts, lengths) are [nat]; error rates are
      rationals [Q].  A rate is a quotient of two array lengths and is compared
      with the literal 0.8 only; for such operands the correctly-rounded
      double quotient compares with the literal exactly as the rational
      quotient does.
    - Collaborators (sandbox, shell executor, language model) are calls of an
      interaction program, answered by an oracle; an exception is the reply
      [Threw].  Fresh message ids, logging and token accounting are not
      modelled, and a prompt is represented by the values substituted into
      its template. *)

From Stdlib Require Import QArith.
From Stdlib Require Import Ascii String DecimalString.
From stdpp Require Import gmap strings list sorting.

Local Open Scope nat_scope.

(* ===================================================================== *)
(** * Text primitives                                                     *)
(* ===================================================================== *)

Module Text.

Definition code (c : ascii) : nat := nat_of_ascii c.

(** [String.prototype.toLowerCase], one character. *)
Definition toLowerChar (c : ascii) : ascii :=
  if (65 <=? code c) && (code c <=? 90) then ascii_of_nat (code c + 32) else c.

(** [String.prototype.toUpperCase], one character. *)
Definition toUpperChar (c : ascii) : ascii :=
  if (97 <=? code c) && (code c <=? 122) then ascii_of_nat (code c - 32) else c.

Fixpoint toLowerCase (s : string) : string :=
  match s with
  | EmptyString => EmptyString
  | String c s' => String (toLowerChar c) (toLowerCase s')
  end.

Fixpoint toUpperCase (s : string) : string :=
  match s with
  | EmptyString => EmptyString
  | String c s' => String (toUpperChar c) (toUpperCase s')
  end.

(** [s.startsWith(k)]. *)
Fixpoint startsWith (k s : string) : bool :=
  match k, s with
  | EmptyString, _ => true
  | String a k', String b s' => bool_decide (a = b) && startsWith k' s'
  | String _ _, EmptyString => false
  end.

(** [s.includes(k)]: [k] occurs in [s] at some position. *)
Fixpoint includes (s k : string) : bool :=
  startsWith k s ||
  match s with
  | EmptyString => false
  | String _ s' => includes s' k
  end.

(** The regular-expression class [\s]. *)
Definition isSpace (c : ascii) : bool :=
  let n := code c in
  (9 <=? n) && (n <=? 13) || (n =? 32).

(** The regular-expression class [\d]. *)
Definition isDigit (c : ascii) : bool :=
  (48 <=? code c) && (code c <=? 57).

(** Characters that [.] does not match. *)
Definition isLineTerminator (c : ascii) : bool :=
  (code c =? 10) || (code c =? 13).

Fixpoint dropWhile (p : ascii -> bool) (s : string) : string :=
  match s with
  | EmptyString => EmptyString
  | String c s' => if p c then dropWhile p s' else s
  end.

Fixpoint rev_string (acc s : string) : string :=
  match s with
  | EmptyString => acc
  | String c s' => rev_string (String c acc) s'
  end.

Definition trimStart (s : string) : string := dropWhile isSpace s.
Definition trimEnd (s : string) : string :=
  rev_string "" (dropWhile isSpace (rev_string "" s)).

(** [String.prototype.trim]. *)
Definition trim (s : string) : string := trimEnd (trimStart s).

(** [s.split('\n')], with the line being read in [cur]. *)
Fixpoint split_go (cur s : string) : list string :=
  match s with
  | EmptyString => [rev_string "" cur]
  | String c s' =>
      if code c =? 10 then rev_string "" cur :: split_go "" s'
      else split_go (String c cur) s'
  end.

Definition splitLines (s : string) : list string := split_go "" s.

(** [parts.join(sep)]. *)
Fixpoint join (sep : string) (parts : list string) : string :=
  match parts with
  | [] => ""
  | [p] => p
  | p :: rest => p +:+ sep +:+ join sep rest
  end.

(** The UTF-16 code units that a byte of the encoding stands for: one for
    an ASCII character and for the first byte of a two- or three-byte
    character, two (a surrogate pair) for the first byte of a four-byte
    character, none for a continuation byte. *)
Definition units (c : ascii) : nat :=
  if code c <? 128 then 1
  else if code c <? 192 then 0
  else if code c <? 240 then 1
  else 2.

(** [s.length]. *)
Fixpoint length16 (s : string) : nat :=
  match s with
  | EmptyString => 0
  | String c s' => units c + length16 s'
  end.

(** The high surrogate of the four-byte character that starts with [c] and
    goes on with the first bytes of [s'], in its three-byte form. *)
Definition highSurrogate (c : ascii) (s' : string) : string :=
  let b1 := match s' with String b _ => code b | _ => 128 end in
  let b2 := match s' with String _ (String b _) => code b | _ => 128 end in
  let h := (code c mod 8) * 256 + (b1 mod 64) * 4 + (b2 mod 64) / 16 - 64 in
  String (ascii_of_nat 237)
    (String (ascii_of_nat (160 + (h / 64) mod 16))
       (String (ascii_of_nat (128 + h mod 64)) EmptyString)).

(** [s.substring(0, n)]: the first [n] code units.  A surrogate pair that
    straddles position [n] is cut in two, and its high half is kept. *)
Fixpoint substring0 (n : nat) (s : string) : string :=
  match s with
  | EmptyString => EmptyString
  | String c s' =>
      if units c <=? n then String c (substring0 (n - units c) s')
      else if n =? 1 then highSurrogate c s'
      else EmptyString
  end.

(** A template literal's rendering of a non-negative integer. *)
Definition showNat (n : nat) : string :=
  NilEmpty.string_of_uint (Nat.to_uint n).

Definition nl : string := String (ascii_of_nat 10) "".

End Text.

(* ===================================================================== *)
(** * Model tasks                                                         *)
(* ===================================================================== *)

Inductive LLMTask := PROGRAMMER | PLANNER | SUMMARIZER.

#[global] Instance LLMTask_eq_dec : EqDecision LLMTask.
Proof. solve_decision. Defined.



(* ===================================================================== *)
(** * Messages                                                            *)
(* ===================================================================== *)

Inductive MessageType := AIType | ToolType | HumanType | SystemType.
Inductive ToolStatus := StatusSuccess | StatusError.

#[global] Instance MessageType_eq_dec : EqDecision MessageType.
Proof. solve_decision. Defined.
#[global] Instance ToolStatus_eq_dec : EqDecision ToolStatus.
Proof. solve_decision. Defined.

(** A message content is a string or a list of content blocks; the code only
    ever looks inside the string form ([typeof content === 'string']). *)
Inductive MessageContent := ContentText (s : string) | ContentBlocks.

Record ToolCall := {
  tc_id : option string;
  tc_name : string;
  tc_args : list (string * string)
}.

Record Kwargs := {
  is_diagnosis : bool;        (* truthiness of additional_kwargs?.is_diagnosis *)
  is_smart_recovery : bool;
  retry_count : option nat;
  model_used : option LLMTask;
  hidden : option bool
}.

Definition noKwargs : Kwargs :=
  {| is_diagnosis := false; is_smart_recovery := false; retry_count := None;
     model_used := None; hidden := None |}.

Record BaseMessage := {
  msg_type : MessageType;
  content : MessageContent;
  tool_calls : list ToolCall;
  tool_call_id : option string;
  name : option string;
  status : option ToolStatus;
  additional_kwargs : Kwargs
}.

(** What the transcript utilities read of a message; they take
    [Array<any>] and only use these observations. *)
Class MessageLike (M : Type) := {
  getType : M -> MessageType;
  toolStatus : M -> option ToolStatus;
  toolName : M -> option string;
  isDiagnosis : M -> bool
}.

#[global] Instance BaseMessage_like : MessageLike BaseMessage := {|
  getType := msg_type;
  toolStatus := status;
  toolName := name;
  isDiagnosis := fun m => is_diagnosis (additional_kwargs m)
|}.

(** A message together with its position in the transcript. *)
#[global] Instance Positioned_like `{MessageLike M} : MessageLike (nat * M) := {|
  getType := fun p => getType (snd p);
  toolStatus := fun p => toolStatus (snd p);
  toolName := fun p => toolName (snd p);
  isDiagnosis := fun p => isDiagnosis (snd p)
|}.

Definition isAIMessage `{MessageLike M} (m : M) : bool :=
  bool_decide (getType m = AIType).
Definition isToolMessage `{MessageLike M} (m : M) : bool :=
  bool_decide (getType m = ToolType).

(** [xs.slice(-n)]: the last [n] elements, all of them when there are fewer. *)
Definition sliceLast {A} (n : nat) (xs : list A) : list A :=
  drop (length xs - n) xs.

(* ===================================================================== *)
(** * Transcript grouping and escalation decisions                        *)
(* ===================================================================== *)

Module Transcript.
Section WithMessages.
Context {M : Type} `{MessageLike M}.

(** The three loop variables of [groupToolMessagesByAIMessage]. *)
Record GroupLoop := {
  groups : list (list M);
  currentGroup : list M;
  processingToolsForAI : bool
}.

(** [if (currentGroup.length > 0) { groups.push([...currentGroup]);
    currentGroup = []; }] *)
Definition saveGroup (st : GroupLoop) : GroupLoop :=
  if 0 <? length (currentGroup st)
  then {| groups := groups st ++ [currentGroup st];
          currentGroup := [];
          processingToolsForAI := processingToolsForAI st |}
  else st.

Definition setProcessing (b : bool) (st : GroupLoop) : GroupLoop :=
  {| groups := groups st; currentGroup := currentGroup st;
     processingToolsForAI := b |}.

(** One iteration of the loop body. *)
Definition groupStep (st : GroupLoop) (message : M) : GroupLoop :=
  if isAIMessage message then
    setProcessing true (saveGroup st)
  else if isToolMessage message && processingToolsForAI st
          && negb (isDiagnosis message) then
    {| groups := groups st;
       currentGroup := currentGroup st ++ [message];
       processingToolsForAI := processingToolsForAI st |}
  else if negb (isToolMessage message) && processingToolsForAI st then
    setProcessing false (saveGroup st)
  else st.

Definition groupInit : GroupLoop :=
  {| groups := []; currentGroup := []; processingToolsForAI := false |}.

Definition groupToolMessagesByAIMessage (messages : list M) : list (list M) :=
  groups (saveGroup (fold_left groupStep messages groupInit)).

Definition isErrorStatus (m : M) : bool :=
  bool_decide (toolStatus m = Some StatusError).

Definition calculateErrorRate (group : list M) : Q :=
  if length group =? 0 then 0%Q
  else (inject_Z (Z.of_nat (length (filter (fun m => isErrorStatus m = true) group)))
        / inject_Z (Z.of_nat (length group)))%Q.

(** [next.name || "unknown_command"] *)
Definition commandKey (next : M) : string :=
  match toolName next with
  | Some n => if bool_decide (n = "") then "unknown_command" else n
  | None => "unknown_command"
  end.

(** [commandCounts.set(k, (commandCounts.get(k) || 0) + 1)] *)
Definition bump (k : string) (commandCounts : gmap string nat) : gmap string nat :=
  <[k := default 0 (commandCounts !! k) + 1]> commandCounts.

Definition failedPair (current next : M) : bool :=
  isAIMessage current && isToolMessage next && isErrorStatus next.

(** The loop over adjacent pairs of [recentMessages]. *)
Fixpoint stuckLoop (recentMessages : list M) (commandCounts : gmap string nat)
  : gmap string nat :=
  match recentMessages with
  | current :: rest =>
      match rest with
      | next :: _ =>
          stuckLoop rest
            (if failedPair current next
             then bump (commandKey next) commandCounts
             else commandCounts)
      | [] => commandCounts
      end
  | [] => commandCounts
  end.

Definition checkForStuckPattern (messages : list M) : bool :=
  let recentMessages := sliceLast 10 messages in
  let commandCounts := stuckLoop recentMessages ∅ in
  existsb (fun count => 3 <=? count) (map snd (map_to_list commandCounts)).

Definition recentDiagnosisCount (messages : list M) : nat :=
  length (filter (fun msg => isToolMessage msg && isDiagnosis msg = true)
                 (sliceLast 20 messages)).

Definition highErrorThreshold : Q := (8 # 10)%Q.

Definition shouldUseSmartRecovery (messages : list M) : bool :=
  let toolGroups := groupToolMessagesByAIMessage messages in
  if length toolGroups <? 2 then false
  else if 2 <=? recentDiagnosisCount messages then true
  else if (3 <=? length toolGroups)
          && forallb (fun group => Qle_bool highErrorThreshold (calculateErrorRate group))
                     (sliceLast 3 toolGroups)
  then true
  else checkForStuckPattern messages.

End WithMessages.
End Transcript.

Arguments Transcript.GroupLoop M : clear implicits.


(* ===================================================================== *)
(** * Report synthesizer ([parseSecurityAnalysis])                        *)
(* ===================================================================== *)

Inductive Severity := SevCritical | SevHigh | SevMedium | SevLow | SevInfo.
Inductive Risk := critical | high | medium | low.

#[global] Instance Risk_eq_dec : EqDecision Risk.
Proof. solve_decision. Defined.

Record SecurityVulnerability := {
  severity : Severity;
  category : string;
  description : string;
  file : string;
  line : option nat;
  recommendation : string;
  cweId : option string
}.

Record SecurityAuditReport := {
  vulnerabilities : list SecurityVulnerability;
  summary : string;
  overallRisk : Risk;
  recommendations : list string
}.

Module Report.
Import Text.

(** [msg.content] kept by
    [.filter(content => typeof content === 'string' && content.length > 0)]. *)
Definition textOf (msg : BaseMessage) : option string :=
  match content msg with
  | ContentText s => if 0 <? String.length s then Some s else None
  | ContentBlocks => None
  end.

(** [auditMessages?.map(..).filter(..).join('\n\n') || ''] *)
Definition analysisTextOf (auditMessages : list BaseMessage) : string :=
  join (nl +:+ nl) (omap textOf auditMessages).

Definition criticalKeywords : list string :=
  ["critical"; "severe"; "high risk"; "vulnerability"].
Definition highKeywords : list string :=
  ["important"; "significant"; "security issue"].
Definition mediumKeywords : list string :=
  ["consider"; "recommend"; "improve"].

(** [keywords.some(keyword => analysisText.toLowerCase().includes(keyword))] *)
Definition someKeyword (keywords : list string) (analysisText : string) : bool :=
  existsb (fun keyword => includes (toLowerCase analysisText) keyword) keywords.

Definition riskOf (analysisText : string) : Risk :=
  if someKeyword criticalKeywords analysisText then critical
  else if someKeyword highKeywords analysisText then high
  else if someKeyword mediumKeywords analysisText then medium
  else low.

(** The class [[\d\-\*]]. *)
Definition isMarker (c : ascii) : bool :=
  isDigit c || bool_decide (c = "-"%char) || bool_decide (c = "*"%char).

(** A literal word under the [/i] flag: both sides are canonicalised with
    [toUpperCase] before they are compared. *)
Fixpoint startsWithCI (k s : string) : bool :=
  match k, s with
  | EmptyString, _ => true
  | String a k', String b s' =>
      bool_decide (toUpperChar a = toUpperChar b) && startsWithCI k' s'
  | String _ _, EmptyString => false
  end.

(** [.*word]: any run of characters other than line terminators, then the
    word. *)
Fixpoint dotStarWord (word s : string) : bool :=
  startsWithCI word s ||
  match s with
  | EmptyString => false
  | String c s' => negb (isLineTerminator c) && dotStarWord word s'
  end.

(** [\s*.*word] *)
Fixpoint spaceStarDotStarWord (word s : string) : bool :=
  dotStarWord word s ||
  match s with
  | EmptyString => false
  | String c s' => isSpace c && spaceStarDotStarWord word s'
  end.

(** One alternative [^[\d\-\*]\s*.*word] of the pattern. *)
Definition markedLineWith (word line : string) : bool :=
  match line with
  | EmptyString => false
  | String c rest => isMarker c && spaceStarDotStarWord word rest
  end.

(** [line.match(/^[\d\-\*]\s*.*recommend|^[\d\-\*]\s*.*should|^[\d\-\*]\s*.*consider/i)]
    as a truth value. *)
Definition matchesRecommendation (line : string) : bool :=
  markedLineWith "recommend" line || markedLineWith "should" line
  || markedLineWith "consider" line.

(** [line.replace(/^[\d\-\*]\s*/, '')] *)
Definition stripMarker (line : string) : string :=
  match line with
  | EmptyString => EmptyString
  | String c rest => if isMarker c then dropWhile isSpace rest else line
  end.

(** The loop over [analysisText.split('\n')]. *)
Fixpoint collectRecommendations (lines : list string) (recommendations : list string)
  : list string :=
  match lines with
  | [] => recommendations
  | line :: rest =>
      collectRecommendations rest
        (if matchesRecommendation line
         then recommendations ++ [trim (stripMarker line)]
         else recommendations)
  end.

(** The summary: the text is cut when its [length] exceeds 500, and replaced
    by the fixed sentence when it is falsy, that is, empty. *)
Definition summaryOf (analysisText : string) : string :=
  if 500 <? length16 analysisText
  then substring0 500 analysisText +:+ "..."
  else if 0 <? String.length analysisText then analysisText
       else "Security audit completed with no specific issues identified.".

Definition parseSecurityAnalysis (auditMessages : list BaseMessage)
  : SecurityAuditReport :=
  let analysisText := analysisTextOf auditMessages in
  let recommendations := collectRecommendations (splitLines analysisText) [] in
  {| vulnerabilities := [];
     summary := summaryOf analysisText;
     overallRisk := riskOf analysisText;
     recommendations := take 10 recommendations |}.

End Report.

(* ===================================================================== *)
(** * Collaborators as interaction programs                               *)
(* ===================================================================== *)

(** What the nodes ask of their collaborators. *)
Inductive Call :=
| GetSandbox                                        (* getSandboxWithErrorHandling *)
| ExecuteCommand (command : string) (timeout : nat) (* executor.executeCommand *)
| LoadModel (task : LLMTask)                        (* loadModel(config, task) *)
| InvokeModel (task : LLMTask) (inputs : list string). (* model.invoke(prompt) *)

(** What a collaborator answers; [Threw] is a raised exception. *)
Inductive Reply :=
| Threw
| SandboxReply (codebaseTree : option string) (dependenciesInstalled : option bool)
| CommandReply (exitCode : Z) (result : string)
| ModelLoaded
| ModelReply (response : BaseMessage).

(** What leaves a node through [throw]. *)
Inductive Exn :=
| CollaboratorFailure
| Error (message : string).

Inductive Outcome (U : Type) :=
| Returned (update : U)
| Failed (e : Exn).
Arguments Returned {U} update.
Arguments Failed {U} e.

(** A program over a shared store [S]: it returns, calls a collaborator and
    continues with the reply, or reads or writes the store. *)
Inductive Prog (S A : Type) :=
| Ret (a : A)
| Do (c : Call) (k : Reply -> Prog S A)
| Get (k : S -> Prog S A)
| Put (s : S) (p : Prog S A).
Arguments Ret {S A} a.
Arguments Do {S A} c k.
Arguments Get {S A} k.
Arguments Put {S A} s p.

Fixpoint bind {S A B} (p : Prog S A) (f : A -> Prog S B) : Prog S B :=
  match p with
  | Ret a => f a
  | Do c k => Do c (fun r => bind (k r) f)
  | Get k => Get (fun s => bind (k s) f)
  | Put s p' => Put s (bind p' f)
  end.

#[global] Instance Prog_ret {S} : MRet (Prog S) := fun A a => Ret a.
#[global] Instance Prog_bind {S} : MBind (Prog S) := fun A B f p => bind p f.

(** The collaborators' behaviour: the reply to the [n]-th call of a run. *)
Definition Oracle := nat -> Call -> Reply.

Record Run (S A : Type) := {
  result : A;
  final : S;
  trace : list (S * Call)   (* each call, with the store as it was then *)
}.
Arguments result {S A} r.
Arguments final {S A} r.
Arguments trace {S A} r.

Fixpoint runFrom {S A} (o : Oracle) (n : nat) (s : S) (p : Prog S A) : Run S A :=
  match p with
  | Ret a => {| result := a; final := s; trace := [] |}
  | Do c k =>
      let r := runFrom o (Datatypes.S n) s (k (o n c)) in
      {| result := result r; final := final r; trace := (s, c) :: trace r |}
  | Get k => runFrom o n s (k s)
  | Put s' p' => runFrom o n s' p'
  end.

Definition run {S A} (o : Oracle) (s : S) (p : Prog S A) : Run S A :=
  runFrom o 0 s p.

(* ===================================================================== *)
(** * Recovery strategy selector ([smartErrorRecovery])                   *)
(* ===================================================================== *)

Module Recovery.
Import Text.

Record ErrorPattern := {
  errorType : string;
  count : nat;
  lastOccurrence : nat;
  commands : list string
}.

Record RecoveryState := {
  errorPatterns : gmap string ErrorPattern;
  retryCount : nat;
  lastModelUsed : LLMTask;
  alternativeApproaches : list string
}.

(** [recoveryStates]: the process-wide map from thread id to state. *)
Abbreviation Store := (gmap string RecoveryState).

Record GraphUpdate := {
  messages : list BaseMessage;
  internalMessages : list BaseMessage
}.

(** The array and the index computed inside [selectRecoveryModel]; the
    comments are the source's. *)
Definition modelRotation : list LLMTask :=
  [ PROGRAMMER;   (* First attempt - use programmer model *)
    PLANNER;      (* Second attempt - use planner model for different perspective *)
    SUMMARIZER ]. (* Third attempt - fall back to summarizer *)

Definition modelIndex (retryCount : nat) : nat :=
  retryCount mod length modelRotation.

(** [selectRecoveryModel(_config, _errorType, retryCount)].  The index is
    always in range ([modelIndex] is a remainder by the list's length), so
    the default of [nth] is never read. *)
Definition selectRecoveryModel (retryCount : nat) : LLMTask :=
  nth (modelIndex retryCount) modelRotation PROGRAMMER.

(** [config.configurable?.thread_id || "default"] *)
Definition threadIdOf (thread_id : option string) : string :=
  match thread_id with
  | Some t => if bool_decide (t = "") then "default" else t
  | None => "default"
  end.

Definition newRecoveryState : RecoveryState :=
  {| errorPatterns := ∅; retryCount := 0; lastModelUsed := SUMMARIZER;
     alternativeApproaches := [] |}.

Definition setRetryCount (n : nat) (r : RecoveryState) : RecoveryState :=
  {| errorPatterns := errorPatterns r; retryCount := n;
     lastModelUsed := lastModelUsed r;
     alternativeApproaches := alternativeApproaches r |}.

Definition setLastModelUsed (m : LLMTask) (r : RecoveryState) : RecoveryState :=
  {| errorPatterns := errorPatterns r; retryCount := retryCount r;
     lastModelUsed := m;
     alternativeApproaches := alternativeApproaches r |}.

Definition helpMessage (retryCount : nat) : BaseMessage :=
  {| msg_type := AIType;
     content := ContentText
       ("I've attempted error recovery " +:+ showNat retryCount +:+
        " times but am still encountering issues. The system has hit a circuit breaker limit. I need human assistance to proceed. Please review the error patterns and provide guidance.");
     tool_calls :=
       [{| tc_id := None; tc_name := "request_human_help";
           tc_args := [("help_request",
             "Repeated failures after " +:+ showNat retryCount +:+
             " recovery attempts. Need human intervention to resolve error patterns.")] |}];
     tool_call_id := None; name := None; status := None;
     additional_kwargs := noKwargs |}.

Definition humanHelp (retryCount : nat) : GraphUpdate :=
  {| messages := [helpMessage retryCount];
     internalMessages := [helpMessage retryCount] |}.

Definition recoveryToolMessage (toolCall : ToolCall) (retryCount : nat)
    (recoveryModel : LLMTask) : BaseMessage :=
  {| msg_type := ToolType;
     content := ContentText
       ("Smart error recovery completed. Analysis includes pattern detection, alternative approaches, and circuit breaker protection. Retry attempt "
        +:+ showNat retryCount +:+ "/5.");
     tool_calls := [];
     tool_call_id := Some (default "" (tc_id toolCall));
     name := Some (tc_name toolCall);
     status := Some StatusSuccess;
     additional_kwargs :=
       {| is_diagnosis := true; is_smart_recovery := true;
          retry_count := Some retryCount; model_used := Some recoveryModel;
          hidden := None |} |}.

Definition missingToolCall : Exn :=
  Error "Failed to generate a tool call when diagnosing error.".

(** The part of [smartErrorRecovery] after the circuit breaker.  The
    transcript, task plan and codebase tree only feed the prompt handed to
    the model, which belongs to the collaborator. *)
Definition recover (threadId : string) (retryCount : nat)
  : Prog Store (Outcome GraphUpdate) :=
  let recoveryModel := selectRecoveryModel retryCount in
  Do (LoadModel recoveryModel) (fun loaded =>
    match loaded with
    | ModelLoaded =>
        Do (InvokeModel recoveryModel []) (fun reply =>
          match reply with
          | ModelReply response =>
              match head (tool_calls response) with
              | None => Ret (Failed missingToolCall)
              | Some toolCall =>
                  Get (fun recoveryStates =>
                    let now := default retryCount
                                 (Recovery.retryCount <$> recoveryStates !! threadId) in
                    Put (alter (setLastModelUsed recoveryModel) threadId recoveryStates)
                      (let toolMessage :=
                         recoveryToolMessage toolCall now recoveryModel in
                       Ret (Returned {| messages := [response; toolMessage];
                                        internalMessages := [response; toolMessage] |})))
              end
          | _ => Ret (Failed CollaboratorFailure)
          end)
    | _ => Ret (Failed CollaboratorFailure)
    end).

Definition smartErrorRecovery (thread_id : option string)
  : Prog Store (Outcome GraphUpdate) :=
  let threadId := threadIdOf thread_id in
  Get (fun recoveryStates =>
    let recoveryState := default newRecoveryState (recoveryStates !! threadId) in
    let recoveryState := setRetryCount (retryCount recoveryState + 1) recoveryState in
    Put (<[threadId := recoveryState]> recoveryStates)
      (if 5 <? retryCount recoveryState
       then Ret (Returned (humanHelp (retryCount recoveryState)))
       else recover threadId (retryCount recoveryState))).

(** Successive invocations, one oracle per invocation. *)
Fixpoint invocations (thread_id : option string) (os : list Oracle)
    (recoveryStates : Store) : list (Run Store (Outcome GraphUpdate)) :=
  match os with
  | [] => []
  | o :: os' =>
      let r := run o recoveryStates (smartErrorRecovery thread_id) in
      r :: invocations thread_id os' (final r)
  end.

End Recovery.

(* ===================================================================== *)
(** * Security-audit pipeline                                             *)
(* ===================================================================== *)

Module Audit.
Import Text.

Record TargetRepository := {
  owner : string;
  repo : string;
  branch : option string
}.

Record SecurityAuditorGraphState := {
  auditMessages : list BaseMessage;
  targetRepository : TargetRepository;
  branchName : string;
  baseBranchName : option string;
  changedFiles : option string;
  scannedFiles : option string;
  securityReport : option SecurityAuditReport;
  codebaseTree : option string;
  dependenciesInstalled : option bool
}.

(** [Partial<SecurityAuditorGraphState>] as the nodes return it; a field
    left out is [None], and no [auditMessages] is the empty list. *)
Record SecurityAuditorGraphUpdate := {
  u_auditMessages : list BaseMessage;
  u_baseBranchName : option string;
  u_changedFiles : option string;
  u_scannedFiles : option string;
  u_securityReport : option SecurityAuditReport;
  u_codebaseTree : option string;
  u_dependenciesInstalled : option bool
}.

Definition messagesOnly (msgs : list BaseMessage) : SecurityAuditorGraphUpdate :=
  {| u_auditMessages := msgs; u_baseBranchName := None; u_changedFiles := None;
     u_scannedFiles := None; u_securityReport := None; u_codebaseTree := None;
     u_dependenciesInstalled := None |}.

(** The library reducer of the [auditMessages] channel; the messages the
    nodes produce carry fresh ids, for which it appends. *)
Definition messagesStateReducer (state update : list BaseMessage) : list BaseMessage :=
  state ++ update.

(** [(_state, update) => update], applied when the field is present. *)
Definition replaceWith {A} (state update : option A) : option A :=
  match update with Some _ => update | None => state end.

Definition applyUpdate (st : SecurityAuditorGraphState)
    (u : SecurityAuditorGraphUpdate) : SecurityAuditorGraphState :=
  {| auditMessages := messagesStateReducer (auditMessages st) (u_auditMessages u);
     targetRepository := targetRepository st;
     branchName := branchName st;
     baseBranchName := replaceWith (baseBranchName st) (u_baseBranchName u);
     changedFiles := replaceWith (changedFiles st) (u_changedFiles u);
     scannedFiles := replaceWith (scannedFiles st) (u_scannedFiles u);
     securityReport := replaceWith (securityReport st) (u_securityReport u);
     codebaseTree := replaceWith (codebaseTree st) (u_codebaseTree u);
     dependenciesInstalled :=
       replaceWith (dependenciesInstalled st) (u_dependenciesInstalled u) |}.

Definition aiText (s : string) : BaseMessage :=
  {| msg_type := AIType; content := ContentText s; tool_calls := [];
     tool_call_id := None; name := None; status := None;
     additional_kwargs := noKwargs |}.

Definition withHidden (b : bool) : Kwargs :=
  {| is_diagnosis := false; is_smart_recovery := false; retry_count := None;
     model_used := None; hidden := Some b |}.

(** Truthiness of a string that may be missing. *)
Definition truthy (s : option string) : option string :=
  match s with
  | Some t => if bool_decide (t = "") then None else Some t
  | None => None
  end.

(** ** initialize-security-audit *)

Definition createSecurityAuditStartedMessage : list BaseMessage :=
  [ {| msg_type := AIType;
       content := ContentText "🔒 Starting security audit of code changes...";
       tool_calls := [{| tc_id := None; tc_name := "security_audit_started";
                         tc_args := [("audit_started", "true")] |}];
       tool_call_id := None; name := None; status := None;
       additional_kwargs := withHidden false |};
    {| msg_type := ToolType;
       content := ContentText "Security audit initialized";
       tool_calls := []; tool_call_id := None; name := None; status := None;
       additional_kwargs := withHidden true |} ].

Definition changedFilesCommand (baseBranchName : string) : string :=
  "git diff " +:+ baseBranchName +:+ " --name-only".

Definition getChangedFiles {S} (baseBranchName : string) : Prog S string :=
  Do (ExecuteCommand (changedFilesCommand baseBranchName) 30) (fun changedFilesRes =>
    match changedFilesRes with
    | CommandReply exitCode result =>
        if bool_decide (exitCode ≠ 0%Z) then Ret "Failed to get changed files."
        else Ret (trim result)
    | _ => Ret "Failed to get changed files."
    end).

Definition getBaseBranchName {S} : Prog S string :=
  Do (ExecuteCommand "git config init.defaultBranch" 30) (fun baseBranchNameRes =>
    match baseBranchNameRes with
    | CommandReply exitCode result =>
        if bool_decide (exitCode ≠ 0%Z) then Ret "main"
        else Ret (trim result)
    | _ => Ret "main"
    end).

Definition initializeSecurityAudit {S} (state : SecurityAuditorGraphState)
  : Prog S (Outcome SecurityAuditorGraphUpdate) :=
  Do GetSandbox (fun sandboxRes =>
    match sandboxRes with
    | SandboxReply codebaseTree dependenciesInstalled =>
        baseBranchName ←
          match truthy (branch (targetRepository state)) with
          | Some b => Ret b
          | None => getBaseBranchName
          end;
        changedFiles ←
          (if bool_decide (baseBranchName = "") then Ret ""
           else getChangedFiles baseBranchName);
        Ret (Returned
          {| u_baseBranchName := Some baseBranchName;
             u_changedFiles := Some changedFiles;
             u_scannedFiles := Some "";
             u_auditMessages := createSecurityAuditStartedMessage;
             u_securityReport := None;
             u_codebaseTree := truthy codebaseTree;
             u_dependenciesInstalled := dependenciesInstalled |})
    | _ => Ret (Failed CollaboratorFailure)
    end).

(** ** scan-code-changes *)

Definition codeChangesCommand (baseBranchName : option string) : string :=
  "git diff " +:+ default "undefined" baseBranchName +:+ " --unified=3".

Definition getCodeChanges {S} (state : SecurityAuditorGraphState) : Prog S string :=
  Do GetSandbox (fun sandboxRes =>
    match sandboxRes with
    | SandboxReply _ _ =>
        Do (ExecuteCommand (codeChangesCommand (baseBranchName state)) 60) (fun diffRes =>
          match diffRes with
          | CommandReply exitCode result =>
              if bool_decide (exitCode ≠ 0%Z)
              then Ret "Failed to retrieve code changes for security analysis."
              else Ret (trim result)
          | _ => Ret "Failed to retrieve code changes for security analysis."
          end)
    | _ => Ret "Failed to retrieve code changes for security analysis."
    end).

(** [!state.changedFiles || state.changedFiles.trim() === ""] *)
Definition noChangedFiles (state : SecurityAuditorGraphState) : bool :=
  match truthy (changedFiles state) with
  | None => true
  | Some files => bool_decide (trim files = "")
  end.

Definition noChangesMessage : BaseMessage :=
  aiText "ℹ️ No code changes detected to scan for security vulnerabilities.".

Definition scanFailedMessage : BaseMessage :=
  aiText "❌ Failed to complete security scan due to an error. Please review the code changes manually for potential security vulnerabilities.".

Definition scanResult (scanned : option string) (msg : BaseMessage)
  : SecurityAuditorGraphUpdate :=
  {| u_auditMessages := [msg]; u_baseBranchName := None; u_changedFiles := None;
     u_scannedFiles := scanned; u_securityReport := None; u_codebaseTree := None;
     u_dependenciesInstalled := None |}.

Definition responseMessage (response : BaseMessage) : BaseMessage :=
  {| msg_type := AIType; content := content response; tool_calls := [];
     tool_call_id := None; name := None; status := None;
     additional_kwargs := noKwargs |}.

Definition scanCodeChanges {S} (state : SecurityAuditorGraphState)
  : Prog S (Outcome SecurityAuditorGraphUpdate) :=
  if noChangedFiles state then
    Ret (Returned (scanResult (Some "No files changed") noChangesMessage))
  else
    codeChanges ← getCodeChanges state;
    Do (LoadModel PROGRAMMER) (fun loaded =>
      match loaded with
      | ModelLoaded =>
          Do (InvokeModel PROGRAMMER [default "" (changedFiles state); codeChanges])
            (fun reply =>
              match reply with
              | ModelReply response =>
                  Ret (Returned (scanResult (changedFiles state)
                                            (responseMessage response)))
              | _ => Ret (Returned (scanResult (changedFiles state) scanFailedMessage))
              end)
      | _ => Ret (Returned (scanResult (changedFiles state) scanFailedMessage))
      end).

(** ** generate-security-recommendations *)

Definition getTaskContext (state : SecurityAuditorGraphState) : string :=
  trim (nl +:+ "Task: Code changes" +:+ nl +:+
        "Changed Files: " +:+ default "No files changed" (truthy (changedFiles state))
        +:+ nl +:+
        "Repository: " +:+ owner (targetRepository state) +:+ "/" +:+
        default "Unknown" (truthy (Some (repo (targetRepository state)))) +:+ nl +:+
        "Branch: " +:+ default "Unknown" (truthy (Some (branchName state))) +:+ nl
        +:+ "  ").

Definition getSecurityAnalysis (state : SecurityAuditorGraphState) : string :=
  default "No security analysis available"
    (truthy (Some (Report.analysisTextOf (auditMessages state)))).

Definition recommendationsFailedMessage : BaseMessage :=
  aiText "❌ Failed to generate security recommendations due to an error. Please manually review the security analysis and create appropriate recommendations.".

Definition generateSecurityRecommendations {S} (state : SecurityAuditorGraphState)
  : Prog S (Outcome SecurityAuditorGraphUpdate) :=
  let securityAnalysis := getSecurityAnalysis state in
  let taskContext := getTaskContext state in
  Do (LoadModel PROGRAMMER) (fun loaded =>
    match loaded with
    | ModelLoaded =>
        Do (InvokeModel PROGRAMMER [securityAnalysis; taskContext]) (fun reply =>
          match reply with
          | ModelReply response =>
              Ret (Returned (messagesOnly [responseMessage response]))
          | _ => Ret (Returned (messagesOnly [recommendationsFailedMessage]))
          end)
    | _ => Ret (Returned (messagesOnly [recommendationsFailedMessage]))
    end).

(** ** finalize-security-report *)

Definition riskName (r : Risk) : string :=
  match r with
  | critical => "critical" | high => "high" | medium => "medium" | low => "low"
  end.

Definition riskEmoji (r : Risk) : string :=
  match r with
  | critical => "🚨" | high => "⚠️" | medium => "⚡" | low => "ℹ️"
  end.

(** [recs.map((rec, i) => `${i + 1}. ${rec}`)] from index [i]. *)
Fixpoint numbered (i : nat) (recs : list string) : list string :=
  match recs with
  | [] => []
  | rec :: rest => (showNat (i + 1) +:+ ". " +:+ rec) :: numbered (i + 1) rest
  end.

Definition summaryMessage (report : SecurityAuditReport) : string :=
  trim (nl +:+ riskEmoji (overallRisk report) +:+ " **Security Audit Complete**"
        +:+ nl +:+ nl +:+
        "**Overall Risk Level:** " +:+ toUpperCase (riskName (overallRisk report))
        +:+ nl +:+
        "**Vulnerabilities Found:** " +:+ showNat (length (vulnerabilities report))
        +:+ nl +:+
        "**Files Scanned:** Changed files in this session" +:+ nl +:+ nl +:+
        summary report +:+ nl +:+ nl +:+
        (if 0 <? length (recommendations report)
         then "**Key Recommendations:**" +:+ nl +:+
              join nl (numbered 0 (take 3 (recommendations report)))
         else "") +:+ nl +:+ nl +:+
        "See detailed security analysis above for complete findings and recommendations."
        +:+ nl +:+ "  ").

Definition createSecurityCompletedMessage (report : SecurityAuditReport)
  : list BaseMessage :=
  [ {| msg_type := AIType;
       content := ContentText (summaryMessage report);
       tool_calls :=
         [{| tc_id := None; tc_name := "security_audit_completed";
             tc_args := [("audit_completed", "true");
                         ("vulnerabilities_found",
                          showNat (length (vulnerabilities report)));
                         ("overall_risk", riskName (overallRisk report))] |}];
       tool_call_id := None; name := None; status := None;
       additional_kwargs := withHidden false |};
    {| msg_type := ToolType;
       content := ContentText "Security audit completed successfully";
       tool_calls := []; tool_call_id := None; name := None; status := None;
       additional_kwargs := withHidden true |} ].

(** The body of the [try]; nothing in it raises, so the [catch] with its
    fallback report is never entered by this model. *)
Definition finalizeSecurityReport {S} (state : SecurityAuditorGraphState)
  : Prog S (Outcome SecurityAuditorGraphUpdate) :=
  let securityReport := Report.parseSecurityAnalysis (auditMessages state) in
  Ret (Returned
    {| u_auditMessages := createSecurityCompletedMessage securityReport;
       u_baseBranchName := None; u_changedFiles := None; u_scannedFiles := None;
       u_securityReport := Some securityReport;
       u_codebaseTree := None; u_dependenciesInstalled := None |}).

(** ** The graph *)

Inductive Node :=
| initialize_security_audit
| scan_code_changes
| generate_security_recommendations
| finalize_security_report.

(** [proceedToRecommendationsOrFinalize]; [None] is the read of a missing
    last element, on which [isAIMessage] raises. *)
Definition proceedToRecommendationsOrFinalize (state : SecurityAuditorGraphState)
  : option Node :=
  match auditMessages state !! (length (auditMessages state) - 1) with
  | None => None
  | Some lastMessage =>
      if isAIMessage lastMessage && (0 <? length (tool_calls lastMessage))
      then Some generate_security_recommendations
      else Some finalize_security_report
  end.

Record AuditRun := {
  visited : list Node;
  finished : Outcome SecurityAuditorGraphState
}.

(** Run one node on the state and merge its update. *)
Definition step {S} (node : SecurityAuditorGraphState ->
                            Prog S (Outcome SecurityAuditorGraphUpdate))
    (state : SecurityAuditorGraphState) : Prog S (Outcome SecurityAuditorGraphState) :=
  out ← node state;
  match out with
  | Returned u => Ret (Returned (applyUpdate state u))
  | Failed e => Ret (Failed e)
  end.

Definition finalizeFrom {S} (path : list Node) (state : SecurityAuditorGraphState)
  : Prog S AuditRun :=
  out ← step finalizeSecurityReport state;
  Ret {| visited := path ++ [finalize_security_report]; finished := out |}.

(** The conditional edge out of scan-code-changes, and what follows it. *)
Definition afterScan {S} (state : SecurityAuditorGraphState) : Prog S AuditRun :=
  let path := [initialize_security_audit; scan_code_changes] in
  match proceedToRecommendationsOrFinalize state with
  | None =>
      Ret {| visited := path;
             finished := Failed (Error "Cannot read properties of undefined") |}
  | Some generate_security_recommendations =>
      out ← step generateSecurityRecommendations state;
      let path := path ++ [generate_security_recommendations] in
      match out with
      | Failed e => Ret {| visited := path; finished := Failed e |}
      | Returned st3 => finalizeFrom path st3
      end
  | Some _ => finalizeFrom path state
  end.

Definition afterInitialize {S} (state : SecurityAuditorGraphState) : Prog S AuditRun :=
  out ← step scanCodeChanges state;
  match out with
  | Failed e =>
      Ret {| visited := [initialize_security_audit; scan_code_changes];
             finished := Failed e |}
  | Returned st2 => afterScan st2
  end.

(** START -> initialize -> scan -> (recommend)? -> finalize -> END *)
Definition workflow {S} (state : SecurityAuditorGraphState) : Prog S AuditRun :=
  out ← step initializeSecurityAudit state;
  match out with
  | Failed e => Ret {| visited := [initialize_security_audit]; finished := Failed e |}
  | Returned st1 => afterInitialize st1
  end.

End Audit.


(* ===================================================================== *)
(** * The ordinary-diagnosis decision and the failed-action listing       *)
(* ===================================================================== *)

(** [xs.slice(-n)] for any [n]: [-0] is [0], so [n = 0] keeps everything. *)
Definition sliceFromEnd {A} (n : nat) (xs : list A) : list A :=
  if n =? 0 then xs else sliceLast n xs.

Module Escalation.
Section WithMessages.
Context {M : Type} `{MessageLike M}.
Import Transcript.

(** One iteration of the loop of [hasRecentDiagnosisToolCall]: the grouping
    loop again, this time keeping diagnosis-flagged tool messages. *)
Definition allGroupsStep (st : GroupLoop M) (message : M) : GroupLoop M :=
  if isAIMessage message then
    setProcessing true (saveGroup st)
  else if isToolMessage message && processingToolsForAI st then
    {| groups := groups st;
       currentGroup := currentGroup st ++ [message];
       processingToolsForAI := processingToolsForAI st |}
  else if negb (isToolMessage message) && processingToolsForAI st then
    setProcessing false (saveGroup st)
  else st.

Definition allGroups (messages : list M) : list (list M) :=
  groups (saveGroup (fold_left allGroupsStep messages groupInit)).

Definition hasRecentDiagnosisToolCall (messages : list M) (groupCount : nat) : bool :=
  let recentGroups := sliceFromEnd groupCount (allGroups messages) in
  existsb (fun group => existsb (fun message => isDiagnosis message) group) recentGroups.

Definition IMMEDIATE_THRESHOLD : Q := (5 # 10)%Q.
Definition ERROR_THRESHOLD : Q := (6 # 10)%Q.

Definition shouldDiagnoseError (messages : list M) : bool :=
  let toolGroups := groupToolMessagesByAIMessage messages in
  if length toolGroups <? 2 then false
  else if hasRecentDiagnosisToolCall messages 2 then false
  else if checkForStuckPattern messages then true
  else if (2 <=? length toolGroups)
          && forallb (fun group => Qle_bool IMMEDIATE_THRESHOLD (calculateErrorRate group))
                     (sliceLast 2 toolGroups)
  then true
  else if 3 <=? length toolGroups
  then forallb (fun group => Qle_bool ERROR_THRESHOLD (calculateErrorRate group))
               (sliceLast 3 toolGroups)
  else false.

(** [getMessageString] lives outside these files; it is a parameter. *)
Variable getMessageString : M -> string.

(** The [while (i < messages.length - 1)] loop of [getAllLastFailedActions],
    on the messages from index [i] on. *)
Fixpoint failedActionsLoop (messages : list M) (result : list string) : list string :=
  match messages with
  | currentMessage :: rest =>
      match rest with
      | nextMessage :: rest' =>
          if isAIMessage currentMessage && isToolMessage nextMessage
             && isErrorStatus nextMessage
          then failedActionsLoop rest'
                 (result ++ [getMessageString currentMessage;
                             getMessageString nextMessage])
          else if isToolMessage currentMessage && negb (isErrorStatus currentMessage)
          then result
          else failedActionsLoop rest result
      | [] => result
      end
  | [] => result
  end.

Definition getAllLastFailedActions (messages : list M) : string :=
  Text.join Text.nl (failedActionsLoop messages []).

End WithMessages.
End Escalation.

(* ===================================================================== *)
(** * Error-pattern analysis for the recovery prompt                      *)
(* ===================================================================== *)

Module ErrorAnalysis.
Import Text.

(** The chain of [includes] tests that categorises an error text. *)
Definition errorTypeOf (content : string) : string :=
  if includes content "syntax error" || includes content "SyntaxError"
  then "syntax_error"
  else if includes content "not found" || includes content "No such file"
  then "file_not_found"
  else if includes content "permission" || includes content "Permission denied"
  then "permission_error"
  else if includes content "command not found" || includes content "not recognized"
  then "command_not_found"
  else if includes content "timeout" || includes content "Timeout"
  then "timeout_error"
  else "unknown".

(** The longest prefix of characters satisfying [p], and the rest. *)
Fixpoint span (p : ascii -> bool) (s : string) : string * string :=
  match s with
  | EmptyString => (EmptyString, EmptyString)
  | String c s' =>
      if p c then
        let (run, rest) := span p s' in (String c run, rest)
      else (EmptyString, s)
  end.

(** [(.+?)(?:\n|$)] at the start of [t]: the lazy group grows over characters
    that [.] matches and stops the first time a newline or the end of the
    input follows, which is at the end of the run or never. *)
Definition captureLine (t : string) : option string :=
  let (run, rest) := span (fun c => negb (isLineTerminator c)) t in
  match run with
  | EmptyString => None
  | _ =>
      match rest with
      | EmptyString => Some run
      | String c _ => if code c =? 10 then Some run else None
      end
  end.

(** [\s*(.+?)(?:\n|$)] at the start of [t]: the greedy [\s*] first takes every
    space it can and gives them back one by one while the rest fails. *)
Fixpoint afterSpaces (t : string) : option string :=
  match t with
  | EmptyString => None
  | String c t' =>
      if isSpace c then
        match afterSpaces t' with
        | Some captured => Some captured
        | None => captureLine t
        end
      else captureLine t
  end.

(** What is left of [s] after a prefix that matches [k] under [/i]. *)
Fixpoint afterPrefixCI (k s : string) : option string :=
  match k, s with
  | EmptyString, _ => Some s
  | String a k', String b s' =>
      if bool_decide (toUpperChar a = toUpperChar b) then afterPrefixCI k' s' else None
  | String _ _, EmptyString => None
  end.

(** [content.match(/Command:\s*(.+?)(?:\n|$)/i)?.[1]]: the first position at
    which the whole expression matches. *)
Fixpoint commandLine (s : string) : option string :=
  match s with
  | EmptyString => None
  | String _ s' =>
      match afterPrefixCI "Command:" s with
      | Some t =>
          match afterSpaces t with
          | Some captured => Some captured
          | None => commandLine s'
          end
      | None => commandLine s'
      end
  end.

Definition isBacktick (c : ascii) : bool := code c =? 96.

(** [content.match(/`([^`]+)`/)?.[1]]. *)
Fixpoint backticked (s : string) : option string :=
  match s with
  | EmptyString => None
  | String c s' =>
      if isBacktick c then
        let (run, rest) := span (fun c => negb (isBacktick c)) s' in
        match run, rest with
        | String _ _, String _ _ => Some run
        | _, _ => backticked s'
        end
      else backticked s'
  end.

(** [x || y] on possibly absent strings. *)
Definition orElse (x y : option string) : option string :=
  match x with
  | Some s => if bool_decide (s = "") then y else x
  | None => y
  end.

(** The text pushed on [failedCommands]: [command || "unknown"], where
    [command] is [commandMatch?.[1]?.trim() || message.name] and
    [commandMatch] is the first of the two matches that exists, else
    [[null, message.name]]. *)
Definition commandOf (content : string) (name : option string) : string :=
  let captured :=
    match commandLine content with
    | Some c => Some c
    | None =>
        match backticked content with
        | Some c => Some c
        | None => name
        end
    end in
  let command := orElse (trim <$> captured) name in
  default "unknown" (orElse command None).

(** [Map.prototype.get] and [set] on a map kept in insertion order. *)
Fixpoint mapGet {V} (key : string) (m : list (string * V)) : option V :=
  match m with
  | [] => None
  | (k, v) :: m' => if bool_decide (k = key) then Some v else mapGet key m'
  end.

Fixpoint mapSet {V} (key : string) (value : V) (m : list (string * V))
  : list (string * V) :=
  match m with
  | [] => [(key, value)]
  | (k, v) :: m' =>
      if bool_decide (k = key) then (key, value) :: m' else (k, v) :: mapSet key value m'
  end.

Record Tally := {
  errorPatterns : list (string * Recovery.ErrorPattern);
  failedCommands : list string
}.

Definition emptyTally : Tally := {| errorPatterns := []; failedCommands := [] |}.

(** The body of the first loop for a failed tool message at index [i]. *)
Definition recordFailure (i : nat) (content : string) (name : option string)
    (t : Tally) : Tally :=
  let command := commandOf content name in
  let errorType := errorTypeOf content in
  let pattern :=
    default {| Recovery.errorType := errorType; Recovery.count := 0;
               Recovery.lastOccurrence := i; Recovery.commands := [] |}
            (mapGet errorType (errorPatterns t)) in
  let pattern :=
    {| Recovery.errorType := Recovery.errorType pattern;
       Recovery.count := Recovery.count pattern + 1;
       Recovery.lastOccurrence := i;
       Recovery.commands := Recovery.commands pattern ++ [command] |} in
  {| errorPatterns := mapSet errorType pattern (errorPatterns t);
     failedCommands := failedCommands t ++ [command] |}.

(** [commandCounts]: one entry per distinct command, in order of first
    failure. *)
Definition commandCounts (failedCommands : list string) : list (string * nat) :=
  fold_left (fun counts cmd => mapSet cmd (default 0 (mapGet cmd counts) + 1) counts)
            failedCommands [].

(** [sort(([_, a], [__, b]) => b - a)]: by falling count, entries of equal
    count keeping their order. *)
Fixpoint insertByCount (x : string * nat) (sorted : list (string * nat))
  : list (string * nat) :=
  match sorted with
  | [] => [x]
  | y :: sorted' =>
      if snd x <? snd y then y :: insertByCount x sorted' else x :: sorted
  end.

Definition sortByCount (entries : list (string * nat)) : list (string * nat) :=
  foldr insertByCount [] entries.

Definition repeatedCommands (failedCommands : list string) : list (string * nat) :=
  sortByCount (filter (fun entry => 1 < snd entry) (commandCounts failedCommands)).

(** [type.replace('_', ' ')]: the first underscore only. *)
Fixpoint replaceUnderscore (s : string) : string :=
  match s with
  | EmptyString => EmptyString
  | String c s' => if code c =? 95 then String " " s' else String c (replaceUnderscore s')
  end.

Definition quote : string := String (ascii_of_nat 34) "".

Definition patternLines (entry : string * Recovery.ErrorPattern) : string :=
  "- **" +:+ toUpperCase (replaceUnderscore (fst entry)) +:+ "**: "
    +:+ showNat (Recovery.count (snd entry)) +:+ " occurrences" +:+ nl
    +:+ "  - Commands: " +:+ join ", " (sliceLast 3 (Recovery.commands (snd entry)))
    +:+ nl.

Definition repeatedLine (entry : string * nat) : string :=
  "  - " +:+ quote +:+ fst entry +:+ quote +:+ ": failed " +:+ showNat (snd entry)
    +:+ " times" +:+ nl.

Definition concatMap {A} (f : A -> string) (xs : list A) : string :=
  fold_left (fun analysis x => analysis +:+ f x) xs "".

(** The text assembled after the loop. *)
Definition analysisOf (t : Tally) : string :=
  "## Error Pattern Analysis:" +:+ nl
  +:+ (match errorPatterns t with
       | [] => "- No clear error patterns detected" +:+ nl
       | patterns => concatMap patternLines patterns
       end)
  +:+ nl +:+ "## Command Repetition Analysis:" +:+ nl
  +:+ (match repeatedCommands (failedCommands t) with
       | [] => "- No obviously repeated failed commands detected" +:+ nl
       | repeated =>
           "- **REPEATED FAILED COMMANDS** (avoid these):" +:+ nl
           +:+ concatMap repeatedLine repeated
       end).

Section WithMessages.
Context {M : Type} `{MessageLike M}.

(** [getMessageContentString] lives outside these files; it is a parameter. *)
Variable getMessageContentString : M -> string.

(** [isToolMessage(message) && message.status === "error"] *)
Definition failed (message : M) : bool :=
  isToolMessage message && Transcript.isErrorStatus message.

(** The first loop of [analyzeErrorPatterns], on the messages from index [i]
    on. *)
Fixpoint analyzeLoop (i : nat) (messages : list M) (t : Tally) : Tally :=
  match messages with
  | [] => t
  | message :: rest =>
      analyzeLoop (S i) rest
        (if failed message
         then recordFailure i (getMessageContentString message) (toolName message) t
         else t)
  end.

Definition analyzeErrorPatterns (messages : list M) : string :=
  analysisOf (analyzeLoop 0 messages emptyTally).

End WithMessages.
End ErrorAnalysis.

(* ===================================================================== *)
(** * Environment file validation ([scripts/validate-env.js])             *)
(* ===================================================================== *)

Module EnvFile.
Import Text.

(** The class [[^#\s=]]. *)
Definition isKeyChar (c : ascii) : bool :=
  negb (code c =? 35) && negb (isSpace c) && negb (code c =? 61).

Definition isQuote (c : ascii) : bool := code c =? 34.

(** [line.match] with the line pattern, giving its two groups: a key of one
    or more characters of the class [[^#\s=]] from the start of the line, the
    sign [=], and a value [.*] up to the end of the line.  The key class
    excludes [=], so the greedy key run must be followed by it; the greedy
    [.*] must reach the end of the line. *)
Definition matchLine (line : string) : option (string * string) :=
  let (key, rest) := ErrorAnalysis.span isKeyChar line in
  match key, rest with
  | String _ _, String c value =>
      if code c =? 61 then
        match ErrorAnalysis.span (fun c => negb (isLineTerminator c)) value with
        | (_, EmptyString) => Some (key, value)
        | _ => None
        end
      else None
  | _, _ => None
  end.

(** The second alternative of the quote pattern: a double quote that ends
    the string. *)
Fixpoint dropLastQuote (s : string) : string :=
  match s with
  | EmptyString => EmptyString
  | String c EmptyString => if isQuote c then EmptyString else s
  | String c s' => String c (dropLastQuote s')
  end.

(** The [replace] applied to the second group, whose global pattern is a
    double quote at the start or a double quote at the end: the one at the
    start is removed, and so is the one at the end unless it is that same
    character. *)
Definition stripQuotes (value : string) : string :=
  match value with
  | EmptyString => EmptyString
  | String c rest => if isQuote c then dropLastQuote rest else dropLastQuote value
  end.

(** The [forEach] over the lines.  [envVars] is read at the six required
    names only, for which a plain object behaves as a map. *)
Definition readLine (envVars : gmap string string) (line : string)
  : gmap string string :=
  match matchLine line with
  | Some (key, value) => <[key := stripQuotes value]> envVars
  | None => envVars
  end.

Definition parseEnv (envContent : string) : gmap string string :=
  fold_left readLine (splitLines envContent) ∅.

Definition requiredGitHubVars : list string :=
  [ "NEXT_PUBLIC_GITHUB_APP_CLIENT_ID";
    "GITHUB_APP_CLIENT_SECRET";
    "GITHUB_APP_REDIRECT_URI";
    "GITHUB_APP_ID";
    "GITHUB_APP_PRIVATE_KEY" ].

Section WithURL.

(** Whether [new URL(s)] returns; the URL parser is the platform's. *)
Variable validUrl : string -> bool.

(** The check of one GitHub variable, as it updates [hasIssues]. *)
Definition checkGitHubVar (envVars : gmap string string) (hasIssues : bool)
    (varName : string) : bool :=
  match Audit.truthy (envVars !! varName) with
  | None => true
  | Some redirectUrl =>
      if bool_decide (varName = "GITHUB_APP_REDIRECT_URI")
      then (if validUrl redirectUrl then hasIssues else true)
      else hasIssues
  end.

(** [validateEnvironment()], on the content of [apps/web/.env] if the file
    exists; the console output is not modelled. *)
Definition validateEnvironment (envFile : option string) : bool :=
  match envFile with
  | None => false
  | Some envContent =>
      let envVars := parseEnv envContent in
      let hasIssues :=
        match Audit.truthy (envVars !! "NEXT_PUBLIC_API_URL") with
        | None => true
        | Some apiUrl => negb (validUrl apiUrl)
        end in
      let hasIssues := fold_left (checkGitHubVar envVars) requiredGitHubVars hasIssues in
      negb hasIssues
  end.

End WithURL.
End EnvFile.

(* ===================================================================== *)
(** * Vocabulary of the properties                                        *)
(* ===================================================================== *)

Section TranscriptVocabulary.
Context {M : Type} `{MessageLike M}.
Import Transcript.

(** What the grouper keeps: tool results that are not diagnosis-flagged. *)
Definition kept (m : M) : Prop :=
  isToolMessage m = true /\ isDiagnosis m = false.

#[local] Instance kept_dec m : Decision (kept m).
Proof. unfold kept. apply _. Defined.

(** Everything collected so far, group boundaries forgotten. *)
Definition collected (st : GroupLoop M) : list M :=
  concat (groups st) ++ currentGroup st.

(** In window [w], an agent message at position [i] is immediately followed
    by an error tool result whose command key is [k]. *)
Definition failedPairAt (w : list M) (i : nat) (k : string) : Prop :=
  exists current next,
    w !! i = Some current /\ w !! (S i) = Some next
    /\ isAIMessage current = true /\ isToolMessage next = true
    /\ toolStatus next = Some StatusError /\ commandKey next = k.

(** The stuck pattern: some command key heads such a pair at three distinct
    positions of the last ten messages. *)
Definition stuckPattern (messages : list M) : Prop :=
  exists k i1 i2 i3,
    i1 < i2 /\ i2 < i3
    /\ failedPairAt (sliceLast 10 messages) i1 k
    /\ failedPairAt (sliceLast 10 messages) i2 k
    /\ failedPairAt (sliceLast 10 messages) i3 k.

(** How many adjacent pairs of [ms] fail with key [k]. *)
Fixpoint pairCount (k : string) (ms : list M) : nat :=
  match ms with
  | current :: rest =>
      match rest with
      | next :: _ =>
          (if failedPair current next && bool_decide (commandKey next = k)
           then 1 else 0) + pairCount k rest
      | [] => 0
      end
  | [] => 0
  end.

End TranscriptVocabulary.

Section MapVocabulary.
Import Transcript.

Definition mapLoop {A B : Type} (f : A -> B) (st : GroupLoop A) : GroupLoop B :=
  {| groups := map (map f) (groups st);
     currentGroup := map f (currentGroup st);
     processingToolsForAI := processingToolsForAI st |}.

End MapVocabulary.

(** The transcript with every message paired with its position. *)
Definition positioned {M} (messages : list M) : list (nat * M) :=
  zip (seq 0 (length messages)) messages.


Section TextVocabulary.
Import Text.

(** Two strings that differ at most in the case of their letters. *)
Fixpoint sameIgnoringCase (a b : string) : Prop :=
  match a, b with
  | EmptyString, EmptyString => True
  | String x a', String y b' =>
      toLowerChar x = toLowerChar y /\ sameIgnoringCase a' b'
  | _, _ => False
  end.

(** The keyword occurs somewhere in the text, in any letter case. *)
Definition occursIgnoringCase (keyword text : string) : Prop :=
  exists pre mid post, text = pre +:+ mid +:+ post /\ sameIgnoringCase mid keyword.

End TextVocabulary.

(** Some keyword of the tier occurs in the text, in any letter case. *)
Definition tierPresent (keywords : list string) (text : string) : Prop :=
  exists keyword, keyword ∈ keywords /\ occursIgnoringCase keyword text.

(** A shell command failed: a non-zero exit code, or no command result. *)
Definition commandFailed (r : Reply) : Prop :=
  match r with
  | CommandReply exitCode _ => exitCode ≠ 0%Z
  | _ => True
  end.

(** In a run, whose [i]-th call the oracle answers at index [i], the
    changed-files command was issued and failed. *)
Definition changedFilesRetrievalFailed {St} (o : Oracle) (tr : list (St * Call)) : Prop :=
  exists i s base,
    tr !! i = Some (s, ExecuteCommand (Audit.changedFilesCommand base) 30)
    /\ commandFailed (o i (ExecuteCommand (Audit.changedFilesCommand base) 30)).


Section RecoveryVocabulary.
Import Recovery.

(** The retry count on record for a thread; a thread without a record is
    about to get a fresh one, which counts from 0. *)
Definition retryCountOf (recoveryStates : gmap string RecoveryState)
    (threadId : string) : nat :=
  retryCount (default newRecoveryState (recoveryStates !! threadId)).

(** The human-help outcome carrying a retry count: one agent message, filed
    under both channels, whose text states the count and whose single tool
    call asks for human help, stating the count again. *)
Definition requestsHumanHelp (count : nat) (out : Outcome GraphUpdate) : Prop :=
  exists helpMessage toolCall,
    out = Returned {| messages := [helpMessage]; internalMessages := [helpMessage] |}
    /\ msg_type helpMessage = AIType
    /\ content helpMessage
       = ContentText
           ("I've attempted error recovery " +:+ Text.showNat count +:+
            " times but am still encountering issues. The system has hit a circuit breaker limit. I need human assistance to proceed. Please review the error patterns and provide guidance.")
    /\ tool_calls helpMessage = [toolCall]
    /\ tc_name toolCall = "request_human_help"
    /\ tc_args toolCall
       = [("help_request",
           "Repeated failures after " +:+ Text.showNat count +:+
           " recovery attempts. Need human intervention to resolve error patterns.")].

(** An automated recovery attempt with a retry count: the first thing the
    run does is load a model, and an update it returns is the model's reply
    followed by a diagnosis-flagged tool message that records the count. *)
Definition attemptsRecovery (count : nat) (r : Run Store (Outcome GraphUpdate)) : Prop :=
  (exists task, head (trace r).*2 = Some (LoadModel task))
  /\ forall u, result r = Returned u ->
       exists response toolMessage,
         messages u = [response; toolMessage]
         /\ internalMessages u = [response; toolMessage]
         /\ msg_type toolMessage = ToolType
         /\ is_diagnosis (additional_kwargs toolMessage) = true
         /\ retry_count (additional_kwargs toolMessage) = Some count.

End RecoveryVocabulary.

Definition isModelCall (c : Call) : bool :=
  match c with
  | LoadModel _ | InvokeModel _ _ => true
  | _ => false
  end.


(* ===================================================================== *)
(** * Sample inputs                                                       *)
(* ===================================================================== *)

Definition sampleAI : BaseMessage :=
  {| msg_type := AIType; content := ContentText "run"; tool_calls := [];
     tool_call_id := None; name := None; status := None;
     additional_kwargs := noKwargs |}.
Definition sampleTool (n : string) (s : ToolStatus) : BaseMessage :=
  {| msg_type := ToolType; content := ContentText "out"; tool_calls := [];
     tool_call_id := None; name := Some n; status := Some s;
     additional_kwargs := noKwargs |}.

Definition sampleText (s : string) : BaseMessage :=
  {| msg_type := AIType; content := ContentText s; tool_calls := [];
     tool_call_id := None; name := None; status := None;
     additional_kwargs := noKwargs |}.

Definition sampleState : Audit.SecurityAuditorGraphState :=
  {| Audit.auditMessages := [];
     Audit.targetRepository :=
       {| Audit.owner := "o"; Audit.repo := "r"; Audit.branch := Some "main" |};
     Audit.branchName := "feature"; Audit.baseBranchName := None;
     Audit.changedFiles := None; Audit.scannedFiles := None;
     Audit.securityReport := None; Audit.codebaseTree := None;
     Audit.dependenciesInstalled := None |}.

Definition sampleOracle : Oracle := fun n c =>
  match c with
  | GetSandbox => SandboxReply None None
  | ExecuteCommand _ _ => CommandReply 0 " "
  | LoadModel _ => ModelLoaded
  | InvokeModel _ _ => Threw
  end.

(** The state a first audit of [sampleState] leaves behind: what a second
    audit on the same thread starts from. *)
Definition auditedState : Audit.SecurityAuditorGraphState :=
  match Audit.finished (result (run sampleOracle () (Audit.workflow sampleState))) with
  | Returned st => st
  | Failed _ => sampleState
  end.

(** No sandbox can be had. *)
Definition sandboxDown : Oracle := fun n c => Threw.

Definition stuckTranscript : list BaseMessage :=
  [sampleAI; sampleTool "shell" StatusError; sampleAI; sampleTool "shell" StatusError;
   sampleAI; sampleTool "shell" StatusError].

Definition failingDiff : Oracle := fun n c =>
  match c with
  | GetSandbox => SandboxReply None None
  | ExecuteCommand _ _ => CommandReply 128 "fatal: bad revision 'main'"
  | LoadModel _ => ModelLoaded
  | InvokeModel _ _ => Threw
  end.

Definition silentModel : Oracle := fun n c =>
  match c with
  | LoadModel _ => ModelLoaded
  | InvokeModel _ _ => ModelReply sampleAI
  | _ => Threw
  end.


(* ===================================================================== *)
(** * Further vocabulary                                                  *)
(* ===================================================================== *)

Section EscalationVocabulary.
Context {M : Type} `{MessageLike M}.
Import Transcript.

(** The number of error-status messages of a group. *)
Definition errorCount (group : list M) : nat :=
  length (filter (fun m => isErrorStatus m = true) group).

(** The same messages, read with the diagnosis flag ignored. *)
Definition ignoringDiagnosis : MessageLike M :=
  {| getType := getType; toolStatus := toolStatus; toolName := toolName;
     isDiagnosis := fun _ => false |}.

(** A group holds a diagnosis-flagged message. *)
Definition holdsDiagnosis (group : list M) : Prop :=
  exists m, m ∈ group /\ isDiagnosis m = true.

(** Groups with their diagnosis-flagged messages removed, and the groups
    that this empties dropped. *)
Definition undiagnosedGroups (gs : list (list M)) : list (list M) :=
  filter (fun g => g ≠ []) (map (filter (fun m => isDiagnosis m = false)) gs).

(** The loop state of the diagnosis-keeping loop against the state of the
    diagnosis-skipping loop. *)
Definition related (a g : GroupLoop M) : Prop :=
  groups g = undiagnosedGroups (groups a)
  /\ currentGroup g = filter (fun m => isDiagnosis m = false) (currentGroup a)
  /\ processingToolsForAI g = processingToolsForAI a.

End EscalationVocabulary.

Section RecoveryOutcomeVocabulary.
Import Recovery.

(** The outcome of a successful recovery: the model's response followed by
    the tool message built for its first tool call. *)
Definition diagnosisUpdate (response : BaseMessage) (toolCall : ToolCall)
    (retryCount : nat) (recoveryModel : LLMTask) : Outcome GraphUpdate :=
  Returned
    {| messages := [response; recoveryToolMessage toolCall retryCount recoveryModel];
       internalMessages :=
         [response; recoveryToolMessage toolCall retryCount recoveryModel] |}.

End RecoveryOutcomeVocabulary.

Section ReportVocabulary.
Import Text.

(** No character of the string is a line feed. *)
Fixpoint noNewline (s : string) : Prop :=
  match s with
  | EmptyString => True
  | String c s' => c ≠ ascii_of_nat 10 /\ noNewline s'
  end.

(** The risk tiers in ascending order. *)
Definition riskRank (r : Risk) : nat :=
  match r with
  | low => 0 | medium => 1 | high => 2 | critical => 3
  end.

(** The risk decided by which tiers are present. *)
Definition riskFrom (anyCritical anyHigh anyMedium : bool) : Risk :=
  if anyCritical then critical
  else if anyHigh then high
  else if anyMedium then medium
  else low.

(** The higher of two risks. *)
Definition riskMax (a b : Risk) : Risk :=
  if riskRank a <? riskRank b then b else a.

(** The recommendations found in one text. *)
Definition recommendationsIn (text : string) : list string :=
  Report.collectRecommendations (splitLines text) [].

End ReportVocabulary.

Section AuditVocabulary.
Import Audit.

(** The base branch name that the reply to the lookup command stands for. *)
Definition baseBranchFrom (reply : Reply) : string :=
  match reply with
  | CommandReply exitCode result =>
      if bool_decide (exitCode ≠ 0%Z) then "main" else Text.trim result
  | _ => "main"
  end.

(** The changed-files value that the reply to the diff command stands for. *)
Definition changedFilesFrom (reply : Reply) : string :=
  match reply with
  | CommandReply exitCode result =>
      if bool_decide (exitCode ≠ 0%Z) then "Failed to get changed files."
      else Text.trim result
  | _ => "Failed to get changed files."
  end.

End AuditVocabulary.

(* ===================================================================== *)
(** * Further sample inputs                                               *)
(* ===================================================================== *)

Definition sampleDiagnosis : BaseMessage :=
  {| msg_type := ToolType; content := ContentText "diagnosis"; tool_calls := [];
     tool_call_id := None; name := Some "diagnose_error";
     status := Some StatusSuccess;
     additional_kwargs :=
       {| is_diagnosis := true; is_smart_recovery := false; retry_count := None;
          model_used := None; hidden := None |} |}.

(** A stand-in for [getMessageString]: the tool name, or the text. *)
Definition sampleMessageString (m : BaseMessage) : string :=
  match name m, content m with
  | Some n, _ => n
  | None, ContentText s => s
  | None, ContentBlocks => ""
  end.

(** A model that answers with one [diagnose_error] tool call. *)
Definition diagnosingModel : Oracle := fun n c =>
  match c with
  | LoadModel _ => ModelLoaded
  | InvokeModel _ _ =>
      ModelReply
        {| msg_type := AIType; content := ContentText "";
           tool_calls := [{| tc_id := Some "call-1"; tc_name := "diagnose_error";
                             tc_args := [("diagnosis", "wrong directory")] |}];
           tool_call_id := None; name := None; status := None;
           additional_kwargs := noKwargs |}
  | _ => Threw
  end.

Section ErrorAnalysisVocabulary.
Import Text.

(** Every character of the string satisfies the test. *)
Fixpoint allChars (p : ascii -> bool) (s : string) : bool :=
  match s with
  | EmptyString => true
  | String c s' => p c && allChars p s'
  end.

(** The text carries no [Command:] label in any letter case and no
    backtick. *)
Definition unlabelled (content : string) : Prop :=
  includes (toLowerCase content) "command:" = false
  /\ allChars (fun c => negb (ErrorAnalysis.isBacktick c)) content = true.

(** How often a command occurs among the failed ones. *)
Definition occurrences (cmd : string) (failedCommands : list string) : nat :=
  length (filter (fun c => c = cmd) failedCommands).

End ErrorAnalysisVocabulary.

Section TallyVocabulary.
Context {M : Type} `{MessageLike M} (getMessageContentString : M -> string).
Import ErrorAnalysis.

(** The command text under which a failed message is filed. *)
Definition recorded (message : M) : string :=
  commandOf (getMessageContentString message) (toolName message).

(** A failed tool message whose text is of the given category. *)
Definition failureOf (type : string) (message : M) : Prop :=
  failed message = true /\ errorTypeOf (getMessageContentString message) = type.

Definition failuresOf (type : string) (messages : list M) : list M :=
  filter (failureOf type) messages.

(** Index [i] holds the last failure of the category. *)
Definition lastFailureAt (type : string) (messages : list M) (i : nat) : Prop :=
  (exists m, messages !! i = Some m /\ failureOf type m)
  /\ forall j m, i < j -> messages !! j = Some m -> ~ failureOf type m.

(** The tally describes the transcript: the failed commands are those of
    the failed tool messages in order, and there is one pattern per category
    that occurs, holding the commands of its failures, their number and the
    index of the last one. *)
Definition tallies (messages : list M) (t : Tally) : Prop :=
  failedCommands t = recorded <$> filter (fun m => failed m = true) messages
  /\ NoDup (errorPatterns t).*1
  /\ (forall type, type ∈ (errorPatterns t).*1 <-> failuresOf type messages ≠ [])
  /\ forall type p, (type, p) ∈ errorPatterns t ->
       Recovery.errorType p = type
       /\ Recovery.commands p = recorded <$> failuresOf type messages
       /\ Recovery.count p = length (failuresOf type messages)
       /\ lastFailureAt type messages (Recovery.lastOccurrence p).

End TallyVocabulary.

Section AnalysisVocabulary.
Import Text.

(** The analysis text of a transcript without failures. *)
Definition quietAnalysis : string :=
  "## Error Pattern Analysis:" +:+ nl
  +:+ "- No clear error patterns detected" +:+ nl
  +:+ nl +:+ "## Command Repetition Analysis:" +:+ nl
  +:+ "- No obviously repeated failed commands detected" +:+ nl.

End AnalysisVocabulary.

Section AuditReportVocabulary.
Import Text.

(** The text of the two messages with which Initialize opens the audit, as
    the report synthesizer joins them. *)
Definition auditBanner : string :=
  "🔒 Starting security audit of code changes..." +:+ nl +:+ nl
  +:+ "Security audit initialized".

End AuditReportVocabulary.

Section EnvFileVocabulary.
Import Text EnvFile.

(** The value a line gives to the name, if it is an assignment to it. *)
Definition definesAs (name line : string) : option string :=
  match matchLine line with
  | Some (key, value) => if bool_decide (key = name) then Some (stripQuotes value) else None
  | None => None
  end.

(** The last value the content assigns to the name. *)
Definition lastDefinition (name envContent : string) : option string :=
  last (omap (definesAs name) (splitLines envContent)).

(** The names whose values must parse as URLs. *)
Definition isUrlVar (name : string) : bool :=
  bool_decide (name = "NEXT_PUBLIC_API_URL")
  || bool_decide (name = "GITHUB_APP_REDIRECT_URI").

(** The names the validation reads. *)
Definition readNames : list string := "NEXT_PUBLIC_API_URL" :: requiredGitHubVars.

(** The content gives the name a non-empty value, of URL form where that is
    asked. *)
Definition configured (validUrl : string -> bool) (envContent name : string) : Prop :=
  exists value,
    lastDefinition name envContent = Some value
    /\ value ≠ ""
    /\ (isUrlVar name = true -> validUrl value = true).

(** The line ends with a carriage return. *)
Definition endsWithCR (line : string) : Prop :=
  exists l, line = l +:+ String (ascii_of_nat 13) "".

(** Sample URL test and environment files. *)
Definition sampleValidUrl (s : string) : bool := startsWith "http" s.

Definition sampleEnv : string :=
  join nl
    [ "# web";
      "NEXT_PUBLIC_API_URL=http://localhost:3000/api";
      "NEXT_PUBLIC_GITHUB_APP_CLIENT_ID=Iv1";
      "GITHUB_APP_CLIENT_SECRET=s3";
      "GITHUB_APP_REDIRECT_URI=http://localhost:3000/api/auth/github/callback";
      "GITHUB_APP_ID=12";
      "GITHUB_APP_PRIVATE_KEY=key" ].

Definition sampleEnvCRLF : string :=
  "NEXT_PUBLIC_API_URL=http://localhost:3000/api" +:+ String (ascii_of_nat 13) nl
  +:+ "GITHUB_APP_ID=12" +:+ String (ascii_of_nat 13) nl.

End EnvFileVocabulary.

Section EnvCheckVocabulary.
Import EnvFile.

(** [configured], as a test. *)
Definition isConfigured (validUrl : string -> bool) (envContent name : string) : bool :=
  match Audit.truthy (lastDefinition name envContent) with
  | None => false
  | Some value => if isUrlVar name then validUrl value else true
  end.

End EnvCheckVocabulary.
(* ===================================================================== *)
(** * Worked examples                                                     *)
(* ===================================================================== *)

Example example_groups :
  Transcript.groupToolMessagesByAIMessage
    [sampleTool "x" StatusError; sampleAI; sampleTool "a" StatusError;
     sampleTool "b" StatusSuccess; sampleAI; sampleAI; sampleTool "c" StatusError]
  = [[sampleTool "a" StatusError; sampleTool "b" StatusSuccess];
     [sampleTool "c" StatusError]].
Proof. vm_compute. reflexivity. Qed.

Example example_stuck :
  Transcript.checkForStuckPattern
    [sampleAI; sampleTool "a" StatusError; sampleAI; sampleTool "a" StatusError;
     sampleAI; sampleTool "a" StatusError] = true
  /\ Transcript.shouldUseSmartRecovery
    [sampleAI; sampleTool "a" StatusError; sampleAI; sampleTool "a" StatusSuccess;
     sampleAI; sampleTool "a" StatusError] = false.
Proof. vm_compute. split; reflexivity. Qed.

Example example_text :
  Text.showNat 12 = "12" /\ Text.trim "  a b  " = "a b"
  /\ Text.splitLines ("a" +:+ Text.nl +:+ "b" +:+ Text.nl) = ["a"; "b"; ""].
Proof. repeat split; reflexivity. Qed.

Example example_recommendations :
  recommendations
    (Report.parseSecurityAnalysis
       [sampleText "- We Recommend x "; sampleText "* consider y";
        sampleText "you should"])
  = ["We Recommend x"; "consider y"]
  /\ overallRisk (Report.parseSecurityAnalysis [sampleText "- We Recommend x "])
     = medium.
Proof. vm_compute. repeat split; reflexivity. Qed.

Example example_audit :
  let r := run sampleOracle () (Audit.workflow sampleState) in
  Audit.visited (result r)
  = [Audit.initialize_security_audit; Audit.scan_code_changes;
     Audit.finalize_security_report]
  /\ (trace r).*2 = [GetSandbox; ExecuteCommand "git diff main --name-only" 30]
  /\ match Audit.finished (result r) with
     | Returned st => length (Audit.auditMessages st) = 5
     | Failed _ => False
     end.
Proof. vm_compute. repeat split; reflexivity. Qed.

(* ===================================================================== *)
(** * Model rotation                                                      *)
(* ===================================================================== *)

Lemma modelIndex_lt retryCount :
  Recovery.modelIndex retryCount < length Recovery.modelRotation.
Proof. unfold Recovery.modelIndex. apply Nat.mod_upper_bound. discriminate. Qed.

Lemma selectRecoveryModel_lookup retryCount :
  Recovery.modelRotation !! Recovery.modelIndex retryCount
  = Some (Recovery.selectRecoveryModel retryCount).
Proof.
  unfold Recovery.selectRecoveryModel.
  pose proof (modelIndex_lt retryCount) as Hlt.
  destruct (Recovery.modelIndex retryCount) as [|[|[|n]]]; simpl in *;
    try reflexivity; lia.
Qed.

(** C1.  What the code selects: for retryCount = 1, 2, 3, 4 the
    selected indices are [1; 2; 0; 1], not [0; 1; 2; 0], and the first
    attempt (retryCount = 1, the value after the increment on a fresh thread)
    selects PLANNER at index 1, not the PROGRAMMER entry that the array's own
    comment calls the first attempt; the first invocation on a fresh thread
    loads the PLANNER model whatever the collaborators answer. *)
Theorem C1_rotation_starts_at_planner :
  map Recovery.modelIndex [1; 2; 3; 4] = [1; 2; 0; 1]
  /\ map Recovery.selectRecoveryModel [1; 2; 3; 4]
     = [PLANNER; SUMMARIZER; PROGRAMMER; PLANNER]
  /\ forall (o : Oracle) (thread_id : option string),
       head (trace (run o ∅ (Recovery.smartErrorRecovery thread_id))).*2
       = Some (LoadModel PLANNER).
Proof.
  split; [reflexivity | split; [reflexivity |]].
  intros o thread_id. unfold run, Recovery.smartErrorRecovery. simpl.
  rewrite lookup_empty. reflexivity.
Qed.

(* ===================================================================== *)
(** * The transcript grouper                                              *)
(* ===================================================================== *)

Section GrouperFacts.
Context {M : Type} `{MessageLike M}.
Import Transcript.

Lemma saveGroup_collected (st : GroupLoop M) :
  collected (saveGroup st) = collected st.
Proof.
  unfold collected, saveGroup.
  destruct (currentGroup st) as [|m g] eqn:E; simpl; [by rewrite E|].
  by rewrite concat_app, app_nil_r; simpl; rewrite app_nil_r.
Qed.

Lemma saveGroup_current (st : GroupLoop M) : currentGroup (saveGroup st) = [].
Proof. unfold saveGroup. by destruct (currentGroup st) eqn:E; simpl. Qed.

Lemma saveGroup_nonempty (st : GroupLoop M) :
  Forall (fun g => g ≠ []) (groups st) ->
  Forall (fun g => g ≠ []) (groups (saveGroup st)).
Proof.
  intros Hne. unfold saveGroup.
  destruct (currentGroup st) as [|m g] eqn:E; simpl; [done|].
  apply Forall_app; split; [done|]. by repeat constructor.
Qed.

Lemma setProcessing_collected b (st : GroupLoop M) :
  collected (setProcessing b st) = collected st.
Proof. reflexivity. Qed.

Lemma groupStep_collected (st : GroupLoop M) (m : M) :
  collected (groupStep st m) = collected st ++ (if decide (kept m) then
     if processingToolsForAI st then [m] else [] else [])
  \/ collected (groupStep st m) = collected st.
Proof.
  unfold groupStep.
  destruct (isAIMessage m) eqn:Eai.
  { right. by rewrite setProcessing_collected, saveGroup_collected. }
  destruct (isToolMessage m && processingToolsForAI st && negb (isDiagnosis m)) eqn:Et.
  { left. apply andb_prop in Et as [Et Hd]. apply andb_prop in Et as [Et Hp].
    apply negb_true_iff in Hd. rewrite Hp.
    rewrite decide_True by done. unfold collected; simpl. by rewrite app_assoc. }
  right. destruct (negb (isToolMessage m) && processingToolsForAI st); [|done].
  by rewrite setProcessing_collected, saveGroup_collected.
Qed.

Lemma groupStep_extends (st : GroupLoop M) (m : M) :
  exists ys, collected (groupStep st m) = collected st ++ ys
             /\ ys `sublist_of` filter kept [m].
Proof.
  destruct (groupStep_collected st m) as [E|E].
  - destruct (decide (kept m)) as [Hk|Hk].
    + destruct (processingToolsForAI st).
      * exists [m]. split; [done|]. by rewrite filter_cons_True.
      * exists []. split; [done|]. apply sublist_nil_l.
    + exists []. split; [done|]. apply sublist_nil_l.
  - exists []. rewrite app_nil_r. split; [done|]. apply sublist_nil_l.
Qed.

Lemma groupStep_nonempty (st : GroupLoop M) (m : M) :
  Forall (fun g => g ≠ []) (groups st) ->
  Forall (fun g => g ≠ []) (groups (groupStep st m)).
Proof.
  intros Hne. unfold groupStep.
  destruct (isAIMessage m); [by apply saveGroup_nonempty|].
  destruct (isToolMessage m && processingToolsForAI st && negb (isDiagnosis m)); [done|].
  destruct (negb (isToolMessage m) && processingToolsForAI st); [|done].
  by apply saveGroup_nonempty.
Qed.

Lemma groupLoop_extends (messages : list M) (st : GroupLoop M) :
  exists ys, collected (fold_left groupStep messages st) = collected st ++ ys
             /\ ys `sublist_of` filter kept messages.
Proof.
  revert st. induction messages as [|m ms IH]; intros st; simpl.
  - exists []. by rewrite app_nil_r.
  - destruct (IH (groupStep st m)) as (ys & Eys & Hys).
    destruct (groupStep_extends st m) as (y & Ey & Hy).
    exists (y ++ ys). split.
    + by rewrite Eys, Ey, app_assoc.
    + change (m :: ms) with ([m] ++ ms). rewrite filter_app.
      by apply sublist_app.
Qed.

Lemma groupLoop_nonempty (messages : list M) (st : GroupLoop M) :
  Forall (fun g => g ≠ []) (groups st) ->
  Forall (fun g => g ≠ []) (groups (fold_left groupStep messages st)).
Proof.
  revert st. induction messages as [|m ms IH]; intros st Hne; simpl; [done|].
  apply IH. by apply groupStep_nonempty.
Qed.

Lemma concat_groups (messages : list M) :
  concat (groupToolMessagesByAIMessage messages) `sublist_of` filter kept messages.
Proof.
  unfold groupToolMessagesByAIMessage.
  destruct (groupLoop_extends messages groupInit) as (ys & Eys & Hys).
  set (st := fold_left groupStep messages groupInit) in *.
  pose proof (saveGroup_collected st) as E.
  unfold collected at 1 in E. rewrite saveGroup_current, app_nil_r in E.
  rewrite E, Eys. done.
Qed.

Lemma groups_nonempty (messages : list M) :
  Forall (fun g => g ≠ []) (groupToolMessagesByAIMessage messages).
Proof.
  unfold groupToolMessagesByAIMessage.
  apply saveGroup_nonempty, groupLoop_nonempty. constructor.
Qed.

Lemma groups_kept (messages : list M) :
  Forall (Forall kept) (groupToolMessagesByAIMessage messages).
Proof.
  apply Forall_concat.
  apply Forall_forall. intros m Hm.
  pose proof (elem_of_sublist _ _ _ Hm (concat_groups messages)) as Hin.
  by apply list_elem_of_filter in Hin as [? _].
Qed.

End GrouperFacts.

(** The grouper commutes with any map that preserves what it observes. *)
Section GrouperNaturality.
Context {A B : Type} `{MessageLike A} `{MessageLike B} (f : A -> B).
Hypothesis f_type : forall a, getType (f a) = getType a.
Hypothesis f_diagnosis : forall a, isDiagnosis (f a) = isDiagnosis a.
Import Transcript.

Lemma saveGroup_map (st : GroupLoop A) :
  saveGroup (mapLoop f st) = mapLoop f (saveGroup st).
Proof.
  unfold saveGroup, mapLoop; simpl. rewrite length_map.
  destruct (0 <? length (currentGroup st)); simpl; [|done].
  by rewrite map_app.
Qed.

Lemma groupStep_map (st : GroupLoop A) (a : A) :
  groupStep (mapLoop f st) (f a) = mapLoop f (groupStep st a).
Proof.
  unfold groupStep, isAIMessage, isToolMessage.
  rewrite f_type, f_diagnosis.
  destruct (bool_decide (getType a = AIType)).
  { by rewrite saveGroup_map. }
  change (processingToolsForAI (mapLoop f st)) with (processingToolsForAI st).
  destruct (bool_decide (getType a = ToolType) && processingToolsForAI st
            && negb (isDiagnosis a)).
  { unfold mapLoop; simpl. by rewrite map_app. }
  destruct (negb (bool_decide (getType a = ToolType)) && processingToolsForAI st);
    [|done].
  by rewrite saveGroup_map.
Qed.

Lemma groupLoop_map (l : list A) (st : GroupLoop A) :
  fold_left groupStep (map f l) (mapLoop f st) = mapLoop f (fold_left groupStep l st).
Proof.
  revert st. induction l as [|a l IH]; intros st; simpl; [done|].
  by rewrite groupStep_map, IH.
Qed.

Lemma groupToolMessagesByAIMessage_map (l : list A) :
  groupToolMessagesByAIMessage (map f l)
  = map (map f) (groupToolMessagesByAIMessage l).
Proof.
  unfold groupToolMessagesByAIMessage.
  change (@groupInit B) with (mapLoop f groupInit).
  by rewrite groupLoop_map, saveGroup_map.
Qed.

End GrouperNaturality.

Lemma sublist_map {A B} (f : A -> B) (l1 l2 : list A) :
  l1 `sublist_of` l2 -> map f l1 `sublist_of` map f l2.
Proof. induction 1; simpl; by constructor. Qed.

Lemma sublist_StronglySorted {A} (R : relation A) (l1 l2 : list A) :
  l1 `sublist_of` l2 -> StronglySorted R l2 -> StronglySorted R l1.
Proof.
  induction 1 as [|x l1 l2 Hs IH|x l1 l2 Hs IH]; intros Hsorted; [done| |].
  - apply StronglySorted_cons in Hsorted as [Hx Hl]. apply StronglySorted_cons.
    split; [|by apply IH].
    apply Forall_forall. intros y Hy.
    rewrite Forall_forall in Hx. apply Hx. by eapply elem_of_sublist.
  - apply StronglySorted_cons in Hsorted as [_ Hl]. by apply IH.
Qed.

Lemma StronglySorted_seq (j n : nat) : StronglySorted lt (seq j n).
Proof.
  revert j. induction n as [|n IH]; intros j; simpl; [constructor|].
  apply StronglySorted_cons. split; [|apply IH].
  apply Forall_forall. intros y Hy. apply elem_of_seq in Hy. lia.
Qed.

Lemma positioned_snd {M} (messages : list M) : (positioned messages).*2 = messages.
Proof. unfold positioned. apply snd_zip. by rewrite length_seq. Qed.

Lemma positioned_fst {M} (messages : list M) :
  (positioned messages).*1 = seq 0 (length messages).
Proof. unfold positioned. apply fst_zip. by rewrite length_seq. Qed.

Lemma positioned_lookup {M} (messages : list M) (p : nat * M) :
  p ∈ positioned messages -> messages !! p.1 = Some p.2.
Proof.
  intros Hp. apply list_elem_of_lookup in Hp as [i Hi].
  destruct p as [j m]. unfold positioned in Hi.
  apply lookup_zip_Some in Hi as [Hj Hm]. simpl.
  apply lookup_seq in Hj as [-> _]. done.
Qed.

(** C8.  For every transcript the groups the grouper returns are non-empty;
    they hold only tool results that are not diagnosis-flagged; their
    concatenation is a subsequence of the transcript's tool-result messages;
    and, running the grouper on the transcript with each message paired with
    its position, the groups are those of the plain transcript, every grouped
    entry sits at its recorded position, and the recorded positions, read
    through the groups in order, strictly increase -- so no position is in
    two groups or twice in one, and transcript order is preserved within and
    across groups. *)
Theorem C8_grouper_invariants {M : Type} `{MessageLike M} (messages : list M) :
  let gs := Transcript.groupToolMessagesByAIMessage messages in
  let pgs := Transcript.groupToolMessagesByAIMessage (positioned messages) in
  Forall (fun g => g ≠ []) gs
  /\ Forall (Forall (fun m => isToolMessage m = true /\ isDiagnosis m = false)) gs
  /\ concat gs `sublist_of` filter (fun m => isToolMessage m = true) messages
  /\ map (map snd) pgs = gs
  /\ Forall (fun p => messages !! p.1 = Some p.2) (concat pgs)
  /\ StronglySorted lt (concat pgs).*1.
Proof.
  intros gs pgs. split; [apply groups_nonempty|]. split; [apply groups_kept|].
  split; [|split; [|split]].
  - etrans; [apply concat_groups|].
    induction messages as [|m ms IH]; simpl; [done|].
    rewrite !filter_cons. unfold kept at 1.
    destruct (decide (isToolMessage m = true ∧ isDiagnosis m = false)) as [[Ht _]|Hn].
    + rewrite decide_True by done. by constructor.
    + destruct (decide (isToolMessage m = true)); [by constructor|done].
  - subst gs pgs. rewrite <- (positioned_snd messages) at 2.
    symmetry. by apply (groupToolMessagesByAIMessage_map snd).
  - apply Forall_forall. intros p Hp. apply positioned_lookup.
    pose proof (concat_groups (positioned messages)) as Hsub.
    apply (elem_of_sublist _ _ _ Hp) in Hsub.
    by apply list_elem_of_filter in Hsub as [_ ?].
  - eapply sublist_StronglySorted; [|apply (StronglySorted_seq 0 (length messages))].
    rewrite <- positioned_fst. apply sublist_map.
    etrans; [apply concat_groups|]. apply sublist_filter.
Qed.

(* ===================================================================== *)
(** * Stuck detection and the smart-recovery decision                     *)
(* ===================================================================== *)

Section StuckFacts.
Context {M : Type} `{MessageLike M}.
Import Transcript.

Lemma bump_tally (k k' : string) (counts : gmap string nat) :
  default 0 (bump k' counts !! k)
  = default 0 (counts !! k) + (if bool_decide (k' = k) then 1 else 0).
Proof.
  unfold bump. rewrite lookup_insert.
  destruct (decide (k' = k)) as [->|Hne].
  - rewrite bool_decide_true by done. reflexivity.
  - rewrite bool_decide_false by done. simpl. lia.
Qed.

Lemma stuckLoop_tally (ms : list M) (counts : gmap string nat) (k : string) :
  default 0 (stuckLoop ms counts !! k) = default 0 (counts !! k) + pairCount k ms.
Proof.
  revert counts. induction ms as [|current rest IH]; intros counts; [simpl; lia|].
  destruct rest as [|next rest']; [simpl; lia|].
  change (stuckLoop (current :: next :: rest') counts)
    with (stuckLoop (next :: rest')
            (if failedPair current next then bump (commandKey next) counts
             else counts)).
  change (pairCount k (current :: next :: rest'))
    with ((if failedPair current next && bool_decide (commandKey next = k)
           then 1 else 0) + pairCount k (next :: rest')).
  rewrite IH. destruct (failedPair current next); cbv iota; simpl andb; cbv iota.
  - rewrite bump_tally. destruct (bool_decide (commandKey next = k)); lia.
  - lia.
Qed.

Lemma failedPairAt_failedPair (w : list M) i k current next :
  w !! i = Some current -> w !! (S i) = Some next ->
  failedPairAt w i k <-> failedPair current next = true /\ commandKey next = k.
Proof.
  intros Hc Hn. unfold failedPairAt, failedPair, isErrorStatus. split.
  - intros (c & n & Hc' & Hn' & Hai & Ht & Hs & Hk).
    rewrite Hc in Hc'. rewrite Hn in Hn'. simplify_eq.
    rewrite Hai, Ht, Hs. by rewrite bool_decide_true.
  - intros [Hf Hk]. exists current, next.
    apply andb_prop in Hf as [Hf Hs]. apply andb_prop in Hf as [Hai Ht].
    apply bool_decide_eq_true in Hs. done.
Qed.

Lemma pairCount_at (k : string) (ms : list M) (i : nat) :
  failedPairAt ms i k -> 1 + pairCount k (drop (S i) ms) <= pairCount k ms.
Proof.
  revert ms. induction i as [|i IH]; intros ms Hat.
  - destruct Hat as (c & n & Hc & Hn & Hai & Ht & Hs & Hk).
    destruct ms as [|a [|b r]]; [done|done|].
    injection Hc as ->. injection Hn as ->.
    change (pairCount k (c :: n :: r))
      with ((if failedPair c n && bool_decide (commandKey n = k) then 1 else 0)
            + pairCount k (n :: r)).
    change (drop 1 (c :: n :: r)) with (n :: r).
    unfold failedPair, isErrorStatus. rewrite Hai, Ht, Hs.
    rewrite !bool_decide_true by done. simpl andb. cbv iota. lia.
  - destruct ms as [|a ms']; [by destruct Hat as (? & ? & ? & _)|].
    assert (failedPairAt ms' i k) as Hat'.
    { destruct Hat as (c & n & Hc & Hn & Hrest). exists c, n.
      split; [exact Hc|]. split; [exact Hn|exact Hrest]. }
    specialize (IH ms' Hat').
    change (drop (S (S i)) (a :: ms')) with (drop (S i) ms').
    destruct ms' as [|b r]; [by destruct Hat' as (? & ? & ? & _)|].
    change (pairCount k (a :: b :: r))
      with ((if failedPair a b && bool_decide (commandKey b = k) then 1 else 0)
            + pairCount k (b :: r)).
    lia.
Qed.

Lemma failedPairAt_drop (w : list M) (n i : nat) (k : string) :
  failedPairAt w (n + i) k -> failedPairAt (drop n w) i k.
Proof.
  intros (c & x & Hc & Hn & Hrest). exists c, x.
  rewrite !lookup_drop. replace (n + S i) with (S (n + i)) by lia. done.
Qed.

Lemma stuckPattern_pairCount (w : list M) (k : string) i1 i2 i3 :
  i1 < i2 -> i2 < i3 ->
  failedPairAt w i1 k -> failedPairAt w i2 k -> failedPairAt w i3 k ->
  3 <= pairCount k w.
Proof.
  intros H12 H23 H1 H2 H3.
  pose proof (pairCount_at k w i1 H1) as G1.
  assert (failedPairAt (drop (S i1) w) (i2 - S i1) k) as H2'.
  { apply failedPairAt_drop. by replace (S i1 + (i2 - S i1)) with i2 by lia. }
  pose proof (pairCount_at k _ _ H2') as G2.
  rewrite drop_drop in G2. replace (S i1 + S (i2 - S i1)) with (S i2) in G2 by lia.
  assert (failedPairAt (drop (S i2) w) (i3 - S i2) k) as H3'.
  { apply failedPairAt_drop. by replace (S i2 + (i3 - S i2)) with i3 by lia. }
  pose proof (pairCount_at k _ _ H3') as G3.
  lia.
Qed.

Lemma checkForStuckPattern_tally (messages : list M) :
  checkForStuckPattern messages = true
  <-> exists k, 3 <= pairCount k (sliceLast 10 messages).
Proof.
  unfold checkForStuckPattern. rewrite existsb_exists. split.
  - intros (c & Hin & Hc). apply Nat.leb_le in Hc.
    apply list_elem_of_In, list_elem_of_fmap in Hin as ([k c'] & -> & Hin).
    apply elem_of_map_to_list in Hin. exists k.
    pose proof (stuckLoop_tally (sliceLast 10 messages) ∅ k) as E.
    rewrite Hin, lookup_empty in E. simpl in *. lia.
  - intros (k & Hk).
    pose proof (stuckLoop_tally (sliceLast 10 messages) ∅ k) as E.
    rewrite lookup_empty in E. simpl in E.
    destruct (stuckLoop (sliceLast 10 messages) ∅ !! k) as [c|] eqn:Hl; simpl in E; [|lia].
    exists c. split; [|apply Nat.leb_le; lia].
    apply list_elem_of_In, list_elem_of_fmap. exists (k, c). split; [done|].
    by apply elem_of_map_to_list.
Qed.

Lemma stuckPattern_checkForStuckPattern (messages : list M) :
  stuckPattern messages -> checkForStuckPattern messages = true.
Proof.
  intros (k & i1 & i2 & i3 & H12 & H23 & H1 & H2 & H3).
  apply checkForStuckPattern_tally. exists k.
  by apply (stuckPattern_pairCount _ k i1 i2 i3).
Qed.

Lemma failedPairAt_undrop (w : list M) (n i : nat) (k : string) :
  failedPairAt (drop n w) i k -> failedPairAt w (n + i) k.
Proof.
  intros (c & x & Hc & Hn & Hrest). exists c, x.
  rewrite !lookup_drop in Hc, Hn. replace (S (n + i)) with (n + S i) by lia. done.
Qed.

(** The first failing pair with key [k], when there is one. *)
Lemma pairCount_first (k : string) (ms : list M) :
  1 <= pairCount k ms ->
  exists i, failedPairAt ms i k /\ pairCount k ms = 1 + pairCount k (drop (S i) ms).
Proof.
  induction ms as [|current rest IH]; [simpl; lia|].
  destruct rest as [|next rest']; [simpl; lia|].
  change (pairCount k (current :: next :: rest'))
    with ((if failedPair current next && bool_decide (commandKey next = k)
           then 1 else 0) + pairCount k (next :: rest')).
  destruct (failedPair current next && bool_decide (commandKey next = k)) eqn:E.
  - intros _. exists 0. split; [|reflexivity].
    apply andb_prop in E as [Hf Hk]. apply bool_decide_eq_true in Hk.
    by apply (failedPairAt_failedPair _ 0 k current next).
  - intros Hpos. destruct (IH Hpos) as (i & Hat & Hcount).
    exists (S i). split.
    + by apply (failedPairAt_undrop (current :: next :: rest') 1 i).
    + exact Hcount.
Qed.

(** [checkForStuckPattern] decides the stuck pattern. *)
Lemma checkForStuckPattern_spec (messages : list M) :
  checkForStuckPattern messages = true <-> stuckPattern messages.
Proof.
  split; [|apply stuckPattern_checkForStuckPattern].
  intros Hc. apply checkForStuckPattern_tally in Hc as (k & Hk).
  set (w := sliceLast 10 messages) in *.
  destruct (pairCount_first k w) as (i1 & H1 & E1); [lia|].
  destruct (pairCount_first k (drop (S i1) w)) as (j2 & H2 & E2); [lia|].
  destruct (pairCount_first k (drop (S j2) (drop (S i1) w))) as (j3 & H3 & E3); [lia|].
  apply failedPairAt_undrop in H3. apply failedPairAt_undrop in H3, H2.
  exists k, i1, (S i1 + j2), (S i1 + (S j2 + j3)).
  split; [lia|]. split; [lia|]. done.
Qed.

End StuckFacts.

Lemma recentDiagnosisCount_filter {M : Type} `{MessageLike M} (messages : list M) :
  Transcript.recentDiagnosisCount messages
  = length (filter (fun m => isToolMessage m = true /\ isDiagnosis m = true)
                   (sliceLast 20 messages)).
Proof.
  unfold Transcript.recentDiagnosisCount. f_equal. apply list_filter_iff.
  intros m. by rewrite andb_true_iff.
Qed.

(** C7.  For every message list that forms at least two tool-invocation
    groups, [shouldUseSmartRecovery] is true whenever at least two
    diagnosis-flagged tool results are among the last 20 messages, and also
    whenever the stuck pattern holds (one command key at three agent-message /
    error-tool-result pairs within the last 10 messages); nothing is assumed
    of the groups' error rates. *)
Theorem C7_smart_recovery_triggers {M : Type} `{MessageLike M} (messages : list M) :
  2 <= length (Transcript.groupToolMessagesByAIMessage messages) ->
  2 <= length (filter (fun m => isToolMessage m = true /\ isDiagnosis m = true)
                      (sliceLast 20 messages))
  \/ stuckPattern messages ->
  Transcript.shouldUseSmartRecovery messages = true.
Proof.
  intros Hgroups Htrigger. unfold Transcript.shouldUseSmartRecovery.
  destruct (Nat.ltb_spec (length (Transcript.groupToolMessagesByAIMessage messages)) 2);
    [lia|].
  destruct (Nat.leb_spec 2 (Transcript.recentDiagnosisCount messages)) as [|Hfew];
    [done|].
  destruct Htrigger as [Hdiag|Hstuck].
  - rewrite recentDiagnosisCount_filter in Hfew. lia.
  - rewrite (stuckPattern_checkForStuckPattern messages Hstuck).
    by destruct (_ && _).
Qed.

Lemma C7_smart_recovery_triggers_witness :
  Transcript.shouldUseSmartRecovery stuckTranscript = true.
Proof.
  apply C7_smart_recovery_triggers.
  - vm_compute. lia.
  - right. exists "shell", 0, 2, 4.
    split; [lia|]. split; [lia|].
    repeat split; eexists _, _; repeat split; reflexivity.
Defined.

(* ===================================================================== *)
(** * Text facts                                                          *)
(* ===================================================================== *)

Section TextFacts.
Import Text.

Lemma startsWith_spec (k s : string) :
  startsWith k s = true <-> exists post, s = k +:+ post.
Proof.
  revert s. induction k as [|a k IH]; intros s; simpl.
  - split; [intros _; by exists s|done].
  - destruct s as [|b s]; [split; [done|by intros [? ?]]|].
    rewrite andb_true_iff, bool_decide_eq_true, IH. split.
    + intros [-> [post ->]]. by exists post.
    + intros [post Hp]. injection Hp as -> ->. split; [done|by exists post].
Qed.

Lemma includes_spec (s k : string) :
  includes s k = true <-> exists pre post, s = pre +:+ k +:+ post.
Proof.
  induction s as [|c s IH].
  - simpl. rewrite orb_false_r, startsWith_spec. split.
    + intros [post Hp]. by exists "", post.
    + intros (pre & post & Hp). destruct pre; [by exists post|done].
  - change (includes (String c s) k)
      with (startsWith k (String c s) || includes s k).
    rewrite orb_true_iff, startsWith_spec, IH. split.
    + intros [[post Hp]|(pre & post & Hp)].
      * by exists "", post.
      * exists (String c pre), post. by rewrite Hp.
    + intros (pre & post & Hp). destruct pre as [|x pre].
      * left. by exists post.
      * right. injection Hp as -> ->. by exists pre, post.
Qed.

Lemma toLowerCase_append (a b : string) :
  toLowerCase (a +:+ b) = toLowerCase a +:+ toLowerCase b.
Proof. induction a as [|x a IH]; simpl; [done|by rewrite IH]. Qed.

Lemma toLowerCase_split (s a b : string) :
  toLowerCase s = a +:+ b ->
  exists s1 s2, s = s1 +:+ s2 /\ toLowerCase s1 = a /\ toLowerCase s2 = b.
Proof.
  revert s. induction a as [|x a IH]; intros s Hs; simpl in Hs.
  - by exists "", s.
  - destruct s as [|y s]; [done|]. simpl in Hs. injection Hs as Hx Hs.
    destruct (IH s Hs) as (s1 & s2 & -> & H1 & H2).
    exists (String y s1), s2. simpl. by rewrite Hx, H1.
Qed.

Lemma sameIgnoringCase_lower (a b : string) :
  sameIgnoringCase a b <-> toLowerCase a = toLowerCase b.
Proof.
  revert b. induction a as [|x a IH]; intros [|y b]; simpl; try done.
  rewrite IH. split; [by intros [-> ->]|]. intros E. by injection E.
Qed.

Lemma includes_lower (text keyword : string) :
  toLowerCase keyword = keyword ->
  includes (toLowerCase text) keyword = true <-> occursIgnoringCase keyword text.
Proof.
  intros Hk. rewrite includes_spec. unfold occursIgnoringCase. split.
  - intros (pre & post & E).
    apply toLowerCase_split in E as (s1 & s23 & -> & _ & E).
    apply toLowerCase_split in E as (s2 & s3 & -> & E & _).
    exists s1, s2, s3. split; [done|].
    apply sameIgnoringCase_lower. by rewrite Hk.
  - intros (pre & mid & post & -> & E). apply sameIgnoringCase_lower in E.
    exists (toLowerCase pre), (toLowerCase post).
    by rewrite !toLowerCase_append, E, Hk.
Qed.

End TextFacts.

(* ===================================================================== *)
(** * Report synthesizer: the risk tier                                   *)
(* ===================================================================== *)

Lemma someKeyword_spec (keywords : list string) (text : string) :
  Forall (fun k => Text.toLowerCase k = k) keywords ->
  Report.someKeyword keywords text = true <-> tierPresent keywords text.
Proof.
  intros Hlow. unfold Report.someKeyword, tierPresent.
  rewrite existsb_exists. rewrite Forall_forall in Hlow.
  split; intros (k & Hin & Hk); exists k.
  - apply list_elem_of_In in Hin. split; [done|]. by apply includes_lower; auto.
  - split; [by apply list_elem_of_In|]. by apply includes_lower; auto.
Qed.

Lemma tier_keywords_lowercase :
  Forall (fun k => Text.toLowerCase k = k) Report.criticalKeywords
  /\ Forall (fun k => Text.toLowerCase k = k) Report.highKeywords
  /\ Forall (fun k => Text.toLowerCase k = k) Report.mediumKeywords.
Proof. repeat split; repeat constructor. Qed.

Lemma someKeyword_false (keywords : list string) (text : string) :
  Forall (fun k => Text.toLowerCase k = k) keywords ->
  ~ tierPresent keywords text -> Report.someKeyword keywords text = false.
Proof.
  intros Hlow Hno. apply not_true_is_false. by rewrite someKeyword_spec.
Qed.

(** C6.  For every analysis text the report's overall risk goes by
    case-insensitive keyword presence in strict priority order: a
    critical-tier keyword gives critical whatever else the text contains (so
    also next to a medium-tier keyword); failing that a high-tier keyword
    gives high; failing both a medium-tier keyword gives medium; a text with
    no tier keyword gives low. *)
Theorem C6_risk_tier_priority (auditMessages : list BaseMessage) :
  let text := Report.analysisTextOf auditMessages in
  let risk := overallRisk (Report.parseSecurityAnalysis auditMessages) in
  (tierPresent Report.criticalKeywords text -> risk = critical)
  /\ (~ tierPresent Report.criticalKeywords text ->
      tierPresent Report.highKeywords text -> risk = high)
  /\ (~ tierPresent Report.criticalKeywords text ->
      ~ tierPresent Report.highKeywords text ->
      tierPresent Report.mediumKeywords text -> risk = medium)
  /\ (~ tierPresent Report.criticalKeywords text ->
      ~ tierPresent Report.highKeywords text ->
      ~ tierPresent Report.mediumKeywords text -> risk = low).
Proof.
  intros text risk. subst risk. simpl. fold text. unfold Report.riskOf.
  destruct tier_keywords_lowercase as (Hc & Hh & Hm).
  repeat split.
  - intros Hcrit. apply (someKeyword_spec _ _ Hc) in Hcrit. by rewrite Hcrit.
  - intros Hnc Hhigh. rewrite (someKeyword_false _ _ Hc Hnc).
    apply (someKeyword_spec _ _ Hh) in Hhigh. by rewrite Hhigh.
  - intros Hnc Hnh Hmed.
    rewrite (someKeyword_false _ _ Hc Hnc), (someKeyword_false _ _ Hh Hnh).
    apply (someKeyword_spec _ _ Hm) in Hmed. by rewrite Hmed.
  - intros Hnc Hnh Hnm.
    by rewrite (someKeyword_false _ _ Hc Hnc), (someKeyword_false _ _ Hh Hnh),
               (someKeyword_false _ _ Hm Hnm).
Qed.

(** Every text is the analysis text of some message list. *)
Lemma analysisTextOf_onto (text : string) :
  exists auditMessages, Report.analysisTextOf auditMessages = text.
Proof.
  destruct text as [|c s].
  - by exists [].
  - by exists [sampleText (String c s)].
Qed.

Lemma C6_risk_tier_priority_witness :
  overallRisk (Report.parseSecurityAnalysis
     [sampleText "Please CONSIDER this: a Critical flaw"]) = critical.
Proof.
  apply (C6_risk_tier_priority [sampleText "Please CONSIDER this: a Critical flaw"]).
  exists "critical". split; [by left|].
  exists "Please CONSIDER this: a ", "Critical", " flaw".
  split; [reflexivity|]. simpl. repeat split.
Defined.

(* ===================================================================== *)
(** * Report synthesizer: recommendations                                 *)
(* ===================================================================== *)

Lemma collectRecommendations_filter (lines acc : list string) :
  Report.collectRecommendations lines acc
  = acc ++ map (fun line => Text.trim (Report.stripMarker line))
               (filter (fun line => Report.matchesRecommendation line = true) lines).
Proof.
  revert acc. induction lines as [|line rest IH]; intros acc; simpl.
  - by rewrite app_nil_r.
  - rewrite IH, filter_cons.
    destruct (Report.matchesRecommendation line) eqn:E.
    + rewrite decide_True by done. simpl. by rewrite <- app_assoc.
    + by rewrite decide_False by done.
Qed.

Lemma matchesRecommendation_marker (line : string) :
  Report.matchesRecommendation line = true ->
  exists c rest, line = String c rest /\ Report.isMarker c = true.
Proof.
  unfold Report.matchesRecommendation, Report.markedLineWith.
  destruct line as [|c rest]; [done|].
  intros Hm. exists c, rest. split; [done|].
  destruct (Report.isMarker c); [done|]. by simpl in Hm.
Qed.

(** A recommendation of the report comes from a line of the analysis text
    that starts with a digit, a dash or an asterisk: a line without such a
    marker is never captured. *)
Lemma recommendation_has_marker (auditMessages : list BaseMessage) (r : string) :
  r ∈ recommendations (Report.parseSecurityAnalysis auditMessages) ->
  exists c rest,
    String c rest ∈ Text.splitLines (Report.analysisTextOf auditMessages)
    /\ Report.isMarker c = true
    /\ r = Text.trim (Text.dropWhile Text.isSpace rest).
Proof.
  simpl. intros Hr.
  pose proof (elem_of_sublist _ _ _ Hr (sublist_take _ _)) as Hin.
  clear Hr. rewrite collectRecommendations_filter in Hin. simpl in Hin.
  apply list_elem_of_fmap in Hin as (line & -> & Hline).
  apply list_elem_of_filter in Hline as [Hm Hline].
  destruct (matchesRecommendation_marker line Hm) as (c & rest & -> & Hc).
  exists c, rest. split; [done|]. split; [done|].
  unfold Report.stripMarker. by rewrite Hc.
Qed.

(** Whatever else the analysis text contains, the extraction loop records
    the line "1. You should rotate credentials" with the dot in front. *)
Lemma numbered_line_recorded_with_dot (lines : list string) :
  "1. You should rotate credentials" ∈ lines ->
  ". You should rotate credentials" ∈ Report.collectRecommendations lines [].
Proof.
  intros Hin. rewrite collectRecommendations_filter. simpl.
  apply list_elem_of_fmap. exists "1. You should rotate credentials".
  split; [reflexivity|]. apply list_elem_of_filter. by split.
Qed.

(** C2.  What the code records: the line "1. You should rotate credentials"
    matches the recommendation pattern, but stripping the marker removes only
    the digit and the whitespace after it, so the recommendation recorded is
    ". You should rotate credentials", with the list marker's dot still in
    front, not "You should rotate credentials". *)
Theorem C2_numbered_marker_keeps_dot :
  let line := "1. You should rotate credentials" in
  Report.matchesRecommendation line = true
  /\ Text.trim (Report.stripMarker line) = ". You should rotate credentials"
  /\ recommendations (Report.parseSecurityAnalysis [sampleText line])
     = [". You should rotate credentials"]
  /\ recommendations (Report.parseSecurityAnalysis [sampleText line])
     ≠ ["You should rotate credentials"].
Proof. repeat split; try reflexivity. vm_compute. discriminate. Qed.

(* ===================================================================== *)
(** * Running interaction programs                                        *)
(* ===================================================================== *)

Lemma runFrom_bind {St A B} (o : Oracle) (p : Prog St A) (f : A -> Prog St B) n s :
  let r1 := runFrom o n s p in
  let r2 := runFrom o (n + length (trace r1)) (final r1) (f (result r1)) in
  runFrom o n s (bind p f)
  = {| result := result r2; final := final r2; trace := trace r1 ++ trace r2 |}.
Proof.
  revert n s. induction p as [a|c k IH|k IH|s' p IH]; intros n s; simpl.
  - rewrite Nat.add_0_r. by destruct (runFrom o n s (f a)).
  - rewrite IH. simpl. by replace (n + S (length (trace (runFrom o (S n) s (k (o n c))))))
      with (S n + length (trace (runFrom o (S n) s (k (o n c))))) by lia.
  - apply IH.
  - apply IH.
Qed.

#[local] Arguments Audit.changedFilesCommand : simpl never.
#[local] Arguments Audit.codeChangesCommand : simpl never.
#[local] Arguments Text.trim : simpl never.

Lemma traced_command {St} (s s' : St) (c c' : string) (t t' : nat) :
  Some (s, ExecuteCommand c t) = Some (s', ExecuteCommand c' t') -> c = c'.
Proof. congruence. Qed.

(** C3, as stated, fails: with a diff command that exits non-zero, Initialize
    returns and its changedFiles is not the empty string. *)
Lemma C3_changedFiles_not_empty_on_failure :
  ~ (forall (o : Oracle) (state : Audit.SecurityAuditorGraphState) u,
       let r := run o () (Audit.initializeSecurityAudit state) in
       result r = Returned u ->
       changedFilesRetrievalFailed o (trace r) ->
       Audit.u_changedFiles u = Some "").
Proof.
  intros Hall.
  specialize (Hall failingDiff sampleState _ eq_refl).
  assert (changedFilesRetrievalFailed failingDiff
            (trace (run failingDiff () (Audit.initializeSecurityAudit sampleState)))) as Hf.
  { exists 1, (), "main". split; [reflexivity|]. simpl. discriminate. }
  specialize (Hall Hf). vm_compute in Hall. discriminate.
Qed.

(** C3, amended.  Whenever the changed-files command is issued during
    Initialize and fails (it exits non-zero or raises), Initialize still
    returns, and the changedFiles it returns is the fixed string
    "Failed to get changed files." -- a string, never null, and not empty. *)
Theorem C3_changedFiles_failure_sentinel
    (o : Oracle) (state : Audit.SecurityAuditorGraphState) :
  let r := run o () (Audit.initializeSecurityAudit state) in
  changedFilesRetrievalFailed o (trace r) ->
  exists u, result r = Returned u
            /\ Audit.u_changedFiles u = Some "Failed to get changed files.".
Proof.
  intros r (i & s & base & Htr & Hfail). subst r. revert Htr Hfail.
  unfold run, Audit.initializeSecurityAudit. simpl.
  destruct (o 0 GetSandbox) as [| tree deps | | |]; simpl;
    try (destruct i as [|[|i]]; simpl; intros; discriminate).
  destruct (Audit.truthy (Audit.branch (Audit.targetRepository state))) as [b|] eqn:Eb.
  - assert (b ≠ "") as Hb.
    { unfold Audit.truthy in Eb. destruct (Audit.branch _) as [t|]; [|done].
      destruct (decide (t = "")) as [->|Hne]; [done|].
      rewrite bool_decide_false in Eb by done. by injection Eb as <-. }
    simpl. rewrite bool_decide_false by done. simpl.
    destruct (o 1 (ExecuteCommand (Audit.changedFilesCommand b) 30))
      as [| | exitCode out | |] eqn:Ereply; simpl;
      try (intros _ _; eexists; split; reflexivity).
    destruct (decide (exitCode ≠ 0%Z)) as [Hcode|Hcode].
    { rewrite bool_decide_true by done. simpl.
      intros _ _; eexists; split; reflexivity. }
    rewrite bool_decide_false by done. simpl.
    destruct i as [|[|[|i]]]; simpl; intros Htr Hfail; try discriminate.
    apply traced_command in Htr as Hcmd. rewrite <- Hcmd, Ereply in Hfail.
    done.
  - simpl.
    set (reply := o 1 (ExecuteCommand "git config init.defaultBranch" 30)).
    set (bb := match reply with
               | CommandReply exitCode result =>
                   if bool_decide (exitCode ≠ 0%Z) then "main" else Text.trim result
               | _ => "main"
               end).
    assert (forall {T} (k : string -> Prog () T),
              runFrom o 2 () (bind (match reply with
                 | CommandReply exitCode result =>
                     if bool_decide (exitCode ≠ 0%Z) then Ret "main"
                     else Ret (Text.trim result)
                 | _ => Ret "main" end) k) = runFrom o 2 () (k bb)) as Hbb.
    { intros T k. subst bb. destruct reply; try done. by destruct (bool_decide _). }
    unfold mbind, Prog_bind. rewrite Hbb.
    destruct (decide (bb = "")) as [->|Hne].
    + simpl. destruct i as [|[|[|i]]]; simpl; intros Htr Hfail; discriminate.
    + rewrite bool_decide_false by done. simpl.
      destruct (o 2 (ExecuteCommand (Audit.changedFilesCommand bb) 30))
        as [| | exitCode out | |] eqn:Ereply; simpl;
        try (intros _ _; eexists; split; reflexivity).
      destruct (decide (exitCode ≠ 0%Z)) as [Hcode|Hcode].
      { rewrite bool_decide_true by done. simpl.
        intros _ _; eexists; split; reflexivity. }
      rewrite bool_decide_false by done. simpl.
      destruct i as [|[|[|[|i]]]]; simpl; intros Htr Hfail; try discriminate.
      apply traced_command in Htr as Hcmd. rewrite <- Hcmd, Ereply in Hfail.
      done.
Qed.

Lemma C3_changedFiles_failure_sentinel_witness :
  exists u, result (run failingDiff () (Audit.initializeSecurityAudit sampleState))
            = Returned u
            /\ Audit.u_changedFiles u = Some "Failed to get changed files.".
Proof.
  apply (C3_changedFiles_failure_sentinel failingDiff sampleState).
  exists 1, (), "main". split; [reflexivity|]. simpl. discriminate.
Defined.

(* ===================================================================== *)
(** * Recovery strategy selector                                          *)
(* ===================================================================== *)

Section RecoveryFacts.
Import Recovery.

(** A run of the part after the circuit breaker: the thread's retry count is
    seen unchanged by every collaborator call and is unchanged at the end,
    other threads are untouched, and the outcome is never a human-help
    request. *)
Lemma recover_run (o : Oracle) (n : nat) (threadId : string) (c : nat)
    (recoveryStates : gmap string RecoveryState) (rs : RecoveryState) :
  recoveryStates !! threadId = Some rs ->
  let r := runFrom o n recoveryStates (recover threadId c) in
  retryCount <$> final r !! threadId = Some (retryCount rs)
  /\ (forall t, t ≠ threadId -> final r !! t = recoveryStates !! t)
  /\ Forall (fun sc => sc.1 = recoveryStates) (trace r)
  /\ (forall k, result r ≠ Returned (humanHelp k)).
Proof.
  intros Hrs. unfold recover. simpl.
  destruct (o n (LoadModel (selectRecoveryModel c))); simpl;
    try (rewrite Hrs; repeat split; [by repeat constructor|done]).
  destruct (o (S n) (InvokeModel (selectRecoveryModel c) [])) as [| | | |response]; simpl;
    try (rewrite Hrs; repeat split; [by repeat constructor|done]).
  destruct (head (tool_calls response)) as [toolCall|]; simpl.
  - rewrite lookup_alter_eq, Hrs. simpl. repeat split.
    + intros t Ht. by rewrite lookup_alter_ne.
    + by repeat constructor.
    + intros k E.
      apply (f_equal (fun out => match out with
                                 | Returned u => length (messages u)
                                 | Failed _ => 0
                                 end)) in E.
      simpl in E. discriminate.
  - rewrite Hrs. repeat split; [by repeat constructor|done].
Qed.

(** One invocation: the thread's retry count goes up by one whatever the
    outcome, every collaborator call already sees the incremented count,
    other threads are untouched, and the outcome is the human-help request
    carrying the new count exactly when the new count exceeds 5. *)
Lemma smartErrorRecovery_run (o : Oracle) (thread_id : option string)
    (recoveryStates : gmap string RecoveryState) :
  let threadId := threadIdOf thread_id in
  let c := retryCountOf recoveryStates threadId in
  let r := run o recoveryStates (smartErrorRecovery thread_id) in
  retryCount <$> final r !! threadId = Some (c + 1)
  /\ (forall t, t ≠ threadId -> final r !! t = recoveryStates !! t)
  /\ Forall (fun sc => retryCount <$> sc.1 !! threadId = Some (c + 1)) (trace r)
  /\ (5 < c + 1 -> result r = Returned (humanHelp (c + 1)) /\ trace r = [])
  /\ (c + 1 <= 5 -> forall k, result r ≠ Returned (humanHelp k)).
Proof.
  intros threadId c r. subst r. unfold run, smartErrorRecovery. simpl.
  fold threadId. fold (retryCountOf recoveryStates threadId). fold c.
  set (rs := setRetryCount (c + 1) (default newRecoveryState (recoveryStates !! threadId))).
  set (σ := <[threadId := rs]> recoveryStates).
  assert (σ !! threadId = Some rs) as Hrs by apply lookup_insert_eq.
  destruct (Nat.ltb_spec 5 (c + 1)) as [Hgt|Hle]; simpl.
  - rewrite Hrs. repeat split; try done; try lia.
    intros t Ht. by apply lookup_insert_ne.
  - destruct (recover_run o 0 threadId (c + 1) σ rs Hrs) as (Hfin & Hother & Htr & Hres).
    repeat split; try done; try lia.
    + intros t Ht. rewrite Hother by done. by apply lookup_insert_ne.
    + eapply Forall_impl; [exact Htr|]. intros [s call] Hs. simpl in *. subst s.
      by rewrite Hrs.
Qed.

End RecoveryFacts.

Section RecoverySequences.
Import Recovery.

Lemma retryCountOf_final (σ : gmap string RecoveryState) (threadId : string) (n : nat) :
  retryCount <$> σ !! threadId = Some n -> retryCountOf σ threadId = n.
Proof.
  unfold retryCountOf. destruct (σ !! threadId); simpl; [|done]. congruence.
Qed.

Lemma invocations_length thread_id os σ :
  length (invocations thread_id os σ) = length os.
Proof. revert σ. induction os as [|o os IH]; intros σ; simpl; [done|by rewrite IH]. Qed.

Lemma invocations_lookup thread_id (os : list Oracle) (σ : gmap string RecoveryState) i r :
  invocations thread_id os σ !! i = Some r ->
  let threadId := threadIdOf thread_id in
  let n := retryCountOf σ threadId + i + 1 in
  retryCount <$> final r !! threadId = Some n
  /\ (5 < n -> result r = Returned (humanHelp n))
  /\ (n <= 5 -> forall k, result r ≠ Returned (humanHelp k)).
Proof.
  revert σ i. induction os as [|o os IH]; intros σ i; [done|].
  destruct (smartErrorRecovery_run o thread_id σ) as (Hfin & _ & _ & Hhelp & Hnot).
  destruct i as [|i]; simpl.
  - intros [= <-]. rewrite Nat.add_0_r. split; [done|]. split; [|done].
    intros Hn. by apply Hhelp.
  - intros Hr. apply IH in Hr. simpl in Hr.
    rewrite (retryCountOf_final _ _ _ Hfin) in Hr.
    by replace (retryCountOf σ (threadIdOf thread_id) + S i + 1)
      with (retryCountOf σ (threadIdOf thread_id) + 1 + i + 1) by lia.
Qed.

End RecoverySequences.

Section BreakerFacts.
Import Recovery.

Lemma humanHelp_requests (k : nat) : requestsHumanHelp k (Returned (humanHelp k)).
Proof. by eexists _, _. Qed.

(** Below the breaker an invocation is an automated recovery attempt, and its
    outcome is not a human-help request. *)
Lemma smartErrorRecovery_attempt (o : Oracle) (thread_id : option string)
    (recoveryStates : gmap string RecoveryState) :
  let threadId := threadIdOf thread_id in
  let c := retryCountOf recoveryStates threadId in
  let r := run o recoveryStates (smartErrorRecovery thread_id) in
  c + 1 <= 5 ->
  attemptsRecovery (c + 1) r /\ forall k, ~ requestsHumanHelp k (result r).
Proof.
  intros threadId c r Hle. subst r.
  unfold attemptsRecovery, requestsHumanHelp, run, smartErrorRecovery. simpl.
  fold threadId. fold (retryCountOf recoveryStates threadId). fold c.
  destruct (Nat.ltb_spec 5 (c + 1)) as [Hgt|_]; [lia|]. simpl.
  unfold recover. simpl.
  destruct (o 0 (LoadModel (selectRecoveryModel (c + 1)))); simpl;
    try (split; [split; [by eexists|done]|by intros k (? & ? & ? & _)]).
  destruct (o 1 (InvokeModel (selectRecoveryModel (c + 1)) [])) as [| | | |response];
    simpl;
    try (split; [split; [by eexists|done]|by intros k (? & ? & ? & _)]).
  destruct (head (tool_calls response)) as [toolCall|]; simpl.
  - rewrite lookup_insert_eq. simpl. split; [split; [by eexists|]|].
    + intros u [= <-]. by eexists _, _.
    + intros k (m & tc & E & _).
      apply (f_equal (fun out => match out with
                                 | Returned u => length (messages u)
                                 | Failed _ => 0
                                 end)) in E.
      simpl in E. discriminate.
  - split; [split; [by eexists|done]|by intros k (? & ? & ? & _)].
Qed.

(** Each run of a sequence is an invocation on the store its predecessors
    left, in which the thread's count has gone up once per predecessor. *)
Lemma invocations_run thread_id (os : list Oracle) (σ : gmap string RecoveryState) i r :
  invocations thread_id os σ !! i = Some r ->
  exists o σ',
    r = run o σ' (smartErrorRecovery thread_id)
    /\ retryCountOf σ' (threadIdOf thread_id)
       = retryCountOf σ (threadIdOf thread_id) + i.
Proof.
  revert σ i. induction os as [|o os IH]; intros σ i; [done|].
  destruct (smartErrorRecovery_run o thread_id σ) as (Hfin & _).
  destruct i as [|i]; simpl.
  - intros [= <-]. exists o, σ. by rewrite Nat.add_0_r.
  - intros Hr. apply IH in Hr as (o' & σ' & -> & Hcount).
    exists o', σ'. split; [done|]. rewrite Hcount.
    rewrite (retryCountOf_final _ _ _ Hfin). lia.
Qed.

End BreakerFacts.

(** C4.  Starting from a thread with no recovery state on record and
    invoking the selector repeatedly on that thread, whatever the
    collaborators answer: every invocation yields an outcome; invocations 1
    to 5 do not yield the human-help request -- each is an automated recovery
    attempt, which starts by loading a model and whose update, if it returns
    one, is the model's reply and a diagnosis-flagged tool message recording
    the attempt's number; invocation 6 and every later one calls no
    collaborator and yields the human-help request: one agent message whose
    text states the invocation's number as the count of recovery attempts and
    whose single tool call, request_human_help, states it again; and after
    invocation number i the stored retry count is i -- the breaker does not
    reset it. *)
Theorem C4_circuit_breaker (thread_id : option string) (os : list Oracle)
    (recoveryStates : gmap string Recovery.RecoveryState) :
  recoveryStates !! Recovery.threadIdOf thread_id = None ->
  let runs := Recovery.invocations thread_id os recoveryStates in
  length runs = length os
  /\ forall i r, runs !! i = Some r ->
       (i < 5 ->
        (forall k, result r ≠ Returned (Recovery.humanHelp k))
        /\ (forall k, ~ requestsHumanHelp k (result r))
        /\ attemptsRecovery (i + 1) r)
       /\ (5 <= i ->
           result r = Returned (Recovery.humanHelp (i + 1))
           /\ requestsHumanHelp (i + 1) (result r)
           /\ trace r = [])
       /\ Recovery.retryCount <$> final r !! Recovery.threadIdOf thread_id
          = Some (i + 1).
Proof.
  intros Hfresh runs. split; [apply invocations_length|].
  intros i r Hr.
  assert (retryCountOf recoveryStates (Recovery.threadIdOf thread_id) = 0) as E.
  { unfold retryCountOf. by rewrite Hfresh. }
  pose proof (invocations_run _ _ _ _ _ Hr) as (o & σ' & Hrun & Hcount).
  apply invocations_lookup in Hr as (Hfin & Hhelp & Hnot).
  rewrite E in *. simpl in *.
  split; [|split; [|done]].
  - intros Hi. split; [apply Hnot; lia|].
    destruct (smartErrorRecovery_attempt o thread_id σ') as [Hattempt Hno].
    { rewrite Hcount. lia. }
    rewrite Hcount in Hattempt. rewrite <- Hrun in Hattempt, Hno. by split.
  - intros Hi. rewrite Hhelp by lia. split; [done|]. split; [apply humanHelp_requests|].
    destruct (smartErrorRecovery_run o thread_id σ') as (_ & _ & _ & Hbreak & _).
    rewrite Hcount in Hbreak. rewrite <- Hrun in Hbreak. apply Hbreak. lia.
Qed.

Lemma C4_circuit_breaker_witness :
  let runs := Recovery.invocations (Some "thread-1") (replicate 7 sampleOracle) ∅ in
  length runs = 7
  /\ (forall i r, runs !! i = Some r ->
        (i < 5 ->
         (forall k, result r ≠ Returned (Recovery.humanHelp k))
         /\ (forall k, ~ requestsHumanHelp k (result r))
         /\ attemptsRecovery (i + 1) r)
        /\ (5 <= i ->
            result r = Returned (Recovery.humanHelp (i + 1))
            /\ requestsHumanHelp (i + 1) (result r)
            /\ trace r = [])
        /\ Recovery.retryCount <$> final r !! "thread-1" = Some (i + 1))
  /\ exists r helpMessage,
       runs !! 5 = Some r
       /\ Recovery.messages <$> (match result r with
                                 | Returned u => Some u
                                 | Failed _ => None
                                 end) = Some [helpMessage]
       /\ content helpMessage
          = ContentText "I've attempted error recovery 6 times but am still encountering issues. The system has hit a circuit breaker limit. I need human assistance to proceed. Please review the error patterns and provide guidance.".
Proof.
  pose proof (C4_circuit_breaker (Some "thread-1") (replicate 7 sampleOracle) ∅ eq_refl)
    as [Hlen Hruns].
  split; [exact Hlen|]. split; [exact Hruns|].
  eexists _, _. split; [reflexivity|]. split; reflexivity.
Defined.

(** C10.  On every invocation, whatever the collaborators answer and whatever
    the outcome, the thread's retry count ends one above where it started;
    every collaborator call of the invocation already sees the incremented
    count; the circuit breaker tests the incremented count; and when the
    model is loaded and answers without a tool call, the invocation fails
    with the missing-tool-call error -- with the count incremented all the
    same. *)
Theorem C10_retry_count_incremented_first (o : Oracle) (thread_id : option string)
    (recoveryStates : gmap string Recovery.RecoveryState) :
  let threadId := Recovery.threadIdOf thread_id in
  let c := retryCountOf recoveryStates threadId in
  let r := run o recoveryStates (Recovery.smartErrorRecovery thread_id) in
  Recovery.retryCount <$> final r !! threadId = Some (c + 1)
  /\ Forall (fun sc => Recovery.retryCount <$> sc.1 !! threadId = Some (c + 1)) (trace r)
  /\ (result r = Returned (Recovery.humanHelp (c + 1)) <-> 5 < c + 1)
  /\ (forall response,
        c + 1 <= 5 ->
        o 0 (LoadModel (Recovery.selectRecoveryModel (c + 1))) = ModelLoaded ->
        o 1 (InvokeModel (Recovery.selectRecoveryModel (c + 1)) []) = ModelReply response ->
        tool_calls response = [] ->
        result r = Failed Recovery.missingToolCall).
Proof.
  intros threadId c r.
  destruct (smartErrorRecovery_run o thread_id recoveryStates)
    as (Hfin & _ & Htr & Hhelp & Hnot).
  fold threadId c r in Hfin, Htr, Hhelp, Hnot.
  split; [done|]. split; [done|]. split; [split|].
  - intros Hres. destruct (Nat.lt_ge_cases 5 (c + 1)) as [|Hle]; [done|].
    by apply Hnot in Hres.
  - intros Hgt. by apply Hhelp.
  - intros response Hle Hload Hinvoke Hcalls. subst r.
    unfold run, Recovery.smartErrorRecovery. simpl.
    fold threadId. fold (retryCountOf recoveryStates threadId). fold c.
    destruct (Nat.ltb_spec 5 (c + 1)) as [|_]; [lia|].
    unfold Recovery.recover. simpl. rewrite Hload. simpl. rewrite Hinvoke. simpl.
    by rewrite Hcalls.
Qed.

Lemma C10_retry_count_incremented_first_witness :
  let r := run silentModel ∅ (Recovery.smartErrorRecovery (Some "thread-1")) in
  result r = Failed Recovery.missingToolCall
  /\ Recovery.retryCount <$> final r !! "thread-1" = Some 1.
Proof.
  pose proof (C10_retry_count_incremented_first silentModel (Some "thread-1") ∅)
    as (Hfin & _ & _ & Hfail).
  split; [|exact Hfin].
  apply (Hfail sampleAI); [vm_compute; lia|reflexivity|reflexivity|reflexivity].
Defined.

(* ===================================================================== *)
(** * Security-audit pipeline                                             *)
(* ===================================================================== *)

Section AuditFacts.
Import Audit.

Lemma initialize_shape {St} (o : Oracle) (n : nat) (s : St)
    (state : SecurityAuditorGraphState) :
  let r := runFrom o n s (initializeSecurityAudit state) in
  (result r = Failed CollaboratorFailure
   \/ exists bb cf tree deps,
        result r = Returned
          {| u_baseBranchName := Some bb; u_changedFiles := Some cf;
             u_scannedFiles := Some "";
             u_auditMessages := createSecurityAuditStartedMessage;
             u_securityReport := None; u_codebaseTree := tree;
             u_dependenciesInstalled := deps |})
  /\ Forall (fun sc => isModelCall sc.2 = false) (trace r).
Proof.
  unfold initializeSecurityAudit, getBaseBranchName, getChangedFiles. simpl.
  repeat (case_match; simpl); (split; [|by repeat constructor]); eauto 10.
Qed.

Lemma scan_shape {St} (o : Oracle) (n : nat) (s : St)
    (state : SecurityAuditorGraphState) :
  exists scanned msg,
    result (runFrom o n s (scanCodeChanges state)) = Returned (scanResult scanned msg).
Proof.
  unfold scanCodeChanges, getCodeChanges. simpl.
  repeat (case_match; simpl); eauto.
Qed.

Lemma scan_no_changes {St} (state : SecurityAuditorGraphState) :
  noChangedFiles state = true ->
  @scanCodeChanges St state
  = Ret (Returned (scanResult (Some "No files changed") noChangesMessage)).
Proof. intros Hno. unfold scanCodeChanges. by rewrite Hno. Qed.

Lemma recommend_shape {St} (o : Oracle) (n : nat) (s : St)
    (state : SecurityAuditorGraphState) :
  exists msg,
    result (runFrom o n s (generateSecurityRecommendations state))
    = Returned (messagesOnly [msg]).
Proof.
  unfold generateSecurityRecommendations. simpl.
  repeat (case_match; simpl); eauto.
Qed.

Lemma runFrom_step {St} (o : Oracle) (n : nat) (s : St)
    (node : SecurityAuditorGraphState -> Prog St (Outcome SecurityAuditorGraphUpdate))
    (state : SecurityAuditorGraphState) :
  let r := runFrom o n s (node state) in
  runFrom o n s (step node state)
  = {| result := match result r with
                 | Returned u => Returned (applyUpdate state u)
                 | Failed e => Failed e
                 end;
       final := final r; trace := trace r |}.
Proof.
  intros r. unfold step, mbind, Prog_bind. rewrite runFrom_bind. fold r.
  destruct (result r); simpl; by rewrite app_nil_r.
Qed.

(** The last element of a list that ends with [x]. *)
Lemma lookup_last_snoc {A} (l : list A) (x : A) :
  (l ++ [x]) !! (length (l ++ [x]) - 1) = Some x.
Proof.
  rewrite length_app. simpl.
  replace (length l + 1 - 1) with (length l + 0) by lia.
  by rewrite lookup_app_r, Nat.add_0_r, Nat.sub_diag by lia.
Qed.

Lemma route_after_scan (state : SecurityAuditorGraphState) scanned msg :
  proceedToRecommendationsOrFinalize (applyUpdate state (scanResult scanned msg))
  = Some (if isAIMessage msg && (0 <? length (tool_calls msg))
          then generate_security_recommendations else finalize_security_report).
Proof.
  unfold proceedToRecommendationsOrFinalize. simpl. unfold messagesStateReducer.
  rewrite lookup_last_snoc. by destruct (_ && _).
Qed.

Lemma runFrom_finalizeFrom {St} (o : Oracle) (n : nat) (s : St) path
    (state : SecurityAuditorGraphState) :
  runFrom o n s (finalizeFrom path state)
  = {| result :=
         {| visited := path ++ [finalize_security_report];
            finished := Returned (applyUpdate state
              {| u_auditMessages :=
                   createSecurityCompletedMessage
                     (Report.parseSecurityAnalysis (auditMessages state));
                 u_baseBranchName := None; u_changedFiles := None;
                 u_scannedFiles := None;
                 u_securityReport :=
                   Some (Report.parseSecurityAnalysis (auditMessages state));
                 u_codebaseTree := None; u_dependenciesInstalled := None |}) |};
       final := s; trace := [] |}.
Proof. reflexivity. Qed.


Lemma no_changes_report :
  Report.parseSecurityAnalysis (createSecurityAuditStartedMessage ++ [noChangesMessage])
  = {| vulnerabilities := [];
       summary := Report.analysisTextOf
                    (createSecurityAuditStartedMessage ++ [noChangesMessage]);
       overallRisk := low;
       recommendations := [] |}.
Proof. vm_compute. reflexivity. Qed.

(** Initialize returns exactly when the sandbox is had; otherwise it stops
    after that one call, with nothing returned. *)
Lemma initialize_sandbox {St} (o : Oracle) (n : nat) (s : St)
    (state : SecurityAuditorGraphState) :
  let r := runFrom o n s (initializeSecurityAudit state) in
  ((exists tree deps, o n GetSandbox = SandboxReply tree deps)
   /\ exists u, result r = Returned u
                /\ u_auditMessages u = createSecurityAuditStartedMessage)
  \/ ((forall tree deps, o n GetSandbox ≠ SandboxReply tree deps)
      /\ result r = Failed CollaboratorFailure
      /\ trace r = [(s, GetSandbox)]).
Proof.
  unfold initializeSecurityAudit, getBaseBranchName, getChangedFiles. simpl.
  destruct (o n GetSandbox) as [| | | |] eqn:E; simpl;
    try (right; split; [intros ? ?; discriminate|done]).
  left. split; [by eexists _, _|].
  repeat (case_match; simpl); by eexists.
Qed.

(** The one message Scan returns, on each of its paths. *)
Lemma scan_cases {St} (o : Oracle) (n : nat) (s : St)
    (state : SecurityAuditorGraphState) :
  exists scanned msg,
    result (runFrom o n s (scanCodeChanges state)) = Returned (scanResult scanned msg)
    /\ (msg = noChangesMessage
        \/ msg = scanFailedMessage
        \/ exists i call response,
             o i call = ModelReply response /\ msg = responseMessage response).
Proof.
  unfold scanCodeChanges, getCodeChanges. simpl.
  repeat (case_match; simpl); eauto 12.
Qed.

End AuditFacts.

(** C5, as stated, fails: an audit whose changed-files list is empty does
    not always end with a low-risk report.  A second audit on the state the
    first one left reads the first one's messages again, and the closing
    summary among them mentions recommendations, which is a medium-tier
    keyword. *)
Lemma C5_prior_messages_raise_risk :
  ~ (forall (o : Oracle) (state : Audit.SecurityAuditorGraphState)
            (u1 : Audit.SecurityAuditorGraphUpdate),
       result (run o () (Audit.initializeSecurityAudit state)) = Returned u1 ->
       Audit.noChangedFiles (Audit.applyUpdate state u1) = true ->
       exists st report,
         Audit.finished (result (run o () (Audit.workflow state))) = Returned st
         /\ Audit.securityReport st = Some report
         /\ overallRisk report = low
         /\ recommendations report = []).
Proof.
  intros Hall.
  destruct (Hall sampleOracle auditedState _ eq_refl eq_refl)
    as (st & report & Hfin & Hrep & Hlow & _).
  vm_compute in Hfin. injection Hfin as <-.
  vm_compute in Hrep. injection Hrep as <-.
  vm_compute in Hlow. discriminate.
Qed.

(** C5.  For an audit run that starts without audit messages and whose
    Initialize stage gathers an empty changed-files list: Scan is a bare
    return of one agent message without tool calls, whose text says that no
    code changes were detected, together with the scanned-files value "No
    files changed"; so no collaborator is called by it and the whole run
    never calls the model; the routing function, on the state Scan leaves,
    goes to Finalize, because the last audit message carries no tool calls;
    the run visits Initialize, Scan and Finalize only; and it finishes with
    that notice as its third audit message and with a report whose overall
    risk is low and whose recommendations are empty. *)
Theorem C5_no_changes_audit (o : Oracle) (state : Audit.SecurityAuditorGraphState)
    (u1 : Audit.SecurityAuditorGraphUpdate) :
  Audit.auditMessages state = [] ->
  result (run o () (Audit.initializeSecurityAudit state)) = Returned u1 ->
  Audit.noChangedFiles (Audit.applyUpdate state u1) = true ->
  let st1 := Audit.applyUpdate state u1 in
  let notice :=
    {| msg_type := AIType;
       content := ContentText
         "ℹ️ No code changes detected to scan for security vulnerabilities.";
       tool_calls := []; tool_call_id := None; name := None; status := None;
       additional_kwargs := noKwargs |} in
  let u2 :=
    {| Audit.u_auditMessages := [notice]; Audit.u_baseBranchName := None;
       Audit.u_changedFiles := None; Audit.u_scannedFiles := Some "No files changed";
       Audit.u_securityReport := None; Audit.u_codebaseTree := None;
       Audit.u_dependenciesInstalled := None |} in
  let r := run o () (Audit.workflow state) in
  @Audit.scanCodeChanges () st1 = Ret (Returned u2)
  /\ Forall (fun sc => isModelCall sc.2 = false) (trace r)
  /\ Audit.proceedToRecommendationsOrFinalize (Audit.applyUpdate st1 u2)
     = Some Audit.finalize_security_report
  /\ Audit.visited (result r)
     = [Audit.initialize_security_audit; Audit.scan_code_changes;
        Audit.finalize_security_report]
  /\ exists st report,
       Audit.finished (result r) = Returned st
       /\ Audit.auditMessages st !! 2 = Some notice
       /\ Audit.scannedFiles st = Some "No files changed"
       /\ Audit.securityReport st = Some report
       /\ overallRisk report = low
       /\ recommendations report = [].
Proof.
  intros Hempty Hinit Hno st1 notice u2 r.
  change notice with Audit.noChangesMessage in *.
  change u2 with (Audit.scanResult (Some "No files changed") Audit.noChangesMessage) in *.
  clear u2 notice.
  set (u2 := Audit.scanResult (Some "No files changed") Audit.noChangesMessage).
  pose proof (scan_no_changes (St:=()) st1 Hno) as Hscan.
  split; [exact Hscan|].
  destruct (initialize_shape o 0 () state) as [Hshape Hcalls].
  assert (Audit.proceedToRecommendationsOrFinalize (Audit.applyUpdate st1 u2)
          = Some Audit.finalize_security_report) as Hroute.
  { unfold u2. by rewrite route_after_scan. }
  assert (Audit.auditMessages (Audit.applyUpdate st1 u2)
          = Audit.createSecurityAuditStartedMessage ++ [Audit.noChangesMessage]) as Hmsgs.
  { unfold run in Hinit. rewrite Hinit in Hshape.
    destruct Hshape as [|(bb & cf & tree & deps & E)]; [done|].
    injection E as ->. subst st1. simpl. by rewrite Hempty. }
  subst r. unfold run, Audit.workflow, mbind, Prog_bind.
  rewrite runFrom_bind. cbv zeta. rewrite runFrom_step. cbv zeta.
  unfold run in Hinit. cbn [result final trace]. rewrite Hinit. cbv beta iota.
  fold st1. unfold Audit.afterInitialize, mbind, Prog_bind.
  rewrite runFrom_bind. cbv zeta. rewrite runFrom_step. cbv zeta.
  rewrite Hscan. cbn [result final trace runFrom]. cbv beta iota. fold u2.
  unfold Audit.afterScan. rewrite Hroute, runFrom_finalizeFrom.
  cbn [result final trace Audit.visited Audit.finished]. cbv beta iota.
  rewrite !app_nil_r. split; [exact Hcalls|]. split; [done|]. split; [done|].
  rewrite Hmsgs, no_changes_report.
  eexists _, _. split; [reflexivity|]. split.
  { change (Audit.auditMessages (Audit.applyUpdate ?s ?u))
      with (Audit.auditMessages s ++ Audit.u_auditMessages u).
    by rewrite Hmsgs. }
  split; [reflexivity|]. split; [reflexivity|]. split; reflexivity.
Qed.

Lemma C5_no_changes_audit_witness :
  let r := run sampleOracle () (Audit.workflow sampleState) in
  Audit.visited (result r)
  = [Audit.initialize_security_audit; Audit.scan_code_changes;
     Audit.finalize_security_report]
  /\ exists st report,
       Audit.finished (result r) = Returned st
       /\ Audit.scannedFiles st = Some "No files changed"
       /\ Audit.securityReport st = Some report
       /\ overallRisk report = low
       /\ recommendations report = [].
Proof.
  destruct (C5_no_changes_audit sampleOracle sampleState _ eq_refl eq_refl eq_refl)
    as (_ & _ & _ & Hvisited & st & report & Hfin & _ & Hscanned & Hreport).
  split; [exact Hvisited|]. exists st, report. exact (conj Hfin (conj Hscanned Hreport)).
Defined.

(** C9, as stated, fails for Initialize: it does not append a message on
    its failure path.  The sandbox is acquired outside any [try], so when it
    cannot be had Initialize returns no update at all. *)
Lemma C9_initialize_failure_appends_nothing :
  ~ (forall (o : Oracle) (state : Audit.SecurityAuditorGraphState),
       exists u,
         result (run o () (Audit.initializeSecurityAudit state)) = Returned u
         /\ Audit.u_auditMessages u ≠ []).
Proof.
  intros Hall. destruct (Hall sandboxDown sampleState) as (u & E & _).
  vm_compute in E. discriminate.
Qed.

(** C9.  Whatever the collaborators answer.  Initialize returns exactly when
    the sandbox is had, and then its update carries two messages, the agent
    message announcing the audit with its security_audit_started call and the
    tool message answering it; when the sandbox cannot be had it fails after
    that one call and returns nothing.  Scan always returns, with exactly one
    agent message without tool calls: the no-changes notice, the failure
    notice, or the text of a reply the model gave.  Recommend always returns,
    with exactly one message; Finalize always returns, with two.  Hence after
    Initialize and Scan have returned the audit-message list is not empty,
    its last element exists and the routing function is defined on it; and a
    run of the whole graph either finishes with a state, or stops in
    Initialize, before Scan and the routing function, because the sandbox
    could not be had -- it never stops on the routing function reading a
    missing element. *)
Theorem C9_routing_reads_existing_message (o : Oracle) (n : nat)
    (state : Audit.SecurityAuditorGraphState) :
  (((exists tree deps, o n GetSandbox = SandboxReply tree deps)
    /\ exists u started answer call,
         result (runFrom o n () (Audit.initializeSecurityAudit state)) = Returned u
         /\ Audit.u_auditMessages u = [started; answer]
         /\ msg_type started = AIType
         /\ content started = ContentText "🔒 Starting security audit of code changes..."
         /\ tool_calls started = [call]
         /\ tc_name call = "security_audit_started"
         /\ msg_type answer = ToolType
         /\ content answer = ContentText "Security audit initialized")
   \/ ((forall tree deps, o n GetSandbox ≠ SandboxReply tree deps)
       /\ result (runFrom o n () (Audit.initializeSecurityAudit state))
          = Failed CollaboratorFailure
       /\ trace (runFrom o n () (Audit.initializeSecurityAudit state))
          = [((), GetSandbox)]))
  /\ (forall u, result (runFrom o n () (Audit.initializeSecurityAudit state)) = Returned u ->
                Audit.u_auditMessages u = Audit.createSecurityAuditStartedMessage)
  /\ (exists u msg, result (runFrom o n () (Audit.scanCodeChanges state)) = Returned u
                    /\ Audit.u_auditMessages u = [msg]
                    /\ msg_type msg = AIType
                    /\ tool_calls msg = []
                    /\ (content msg
                        = ContentText
                            "ℹ️ No code changes detected to scan for security vulnerabilities."
                        \/ content msg
                           = ContentText
                               "❌ Failed to complete security scan due to an error. Please review the code changes manually for potential security vulnerabilities."
                        \/ exists i call response,
                             o i call = ModelReply response
                             /\ content msg = content response))
  /\ (exists u msg,
        result (runFrom o n () (Audit.generateSecurityRecommendations state)) = Returned u
        /\ Audit.u_auditMessages u = [msg])
  /\ (exists u, result (runFrom o n () (Audit.finalizeSecurityReport state)) = Returned u
                /\ length (Audit.u_auditMessages u) = 2)
  /\ (forall (o' : Oracle) (n' : nat) u1 u2,
        result (runFrom o n () (Audit.initializeSecurityAudit state)) = Returned u1 ->
        result (runFrom o' n' () (Audit.scanCodeChanges (Audit.applyUpdate state u1)))
        = Returned u2 ->
        let st2 := Audit.applyUpdate (Audit.applyUpdate state u1) u2 in
        Audit.auditMessages st2 ≠ []
        /\ is_Some (Audit.auditMessages st2 !! (length (Audit.auditMessages st2) - 1))
        /\ is_Some (Audit.proceedToRecommendationsOrFinalize st2))
  /\ ((exists st, Audit.finished (result (run o () (Audit.workflow state))) = Returned st)
      \/ (Audit.finished (result (run o () (Audit.workflow state)))
          = Failed CollaboratorFailure
          /\ Audit.visited (result (run o () (Audit.workflow state)))
             = [Audit.initialize_security_audit]
          /\ forall tree deps, o 0 GetSandbox ≠ SandboxReply tree deps)).
Proof.
  split; [|split; [|split; [|split; [|split; [|split]]]]].
  - destruct (initialize_sandbox o n () state) as [[Hsb (u & Hu & Hmsgs)]|Hfail].
    + left. split; [done|]. eexists u, _, _, _. split; [done|]. split; [exact Hmsgs|].
      repeat split.
    + by right.
  - intros u Hu. destruct (initialize_shape o n () state) as [[Hf|(bb & cf & tree & deps & E)] _].
    + rewrite Hf in Hu. done.
    + rewrite E in Hu. by injection Hu as <-.
  - destruct (scan_cases o n () state) as (scanned & msg & E & Hmsg).
    eexists _, msg. split; [exact E|]. split; [done|].
    destruct Hmsg as [->|[->|(i & call & response & Hreply & ->)]].
    + split; [done|]. split; [done|]. by left.
    + split; [done|]. split; [done|]. right. by left.
    + split; [done|]. split; [done|]. right. right. by exists i, call, response.
  - destruct (recommend_shape o n () state) as (msg & E). by eexists _, msg.
  - by eexists.
  - intros o' n' u1 u2 _ Hscan st2.
    destruct (scan_shape o' n' () (Audit.applyUpdate state u1)) as (scanned & msg & E).
    rewrite E in Hscan. injection Hscan as <-. subst st2.
    rewrite route_after_scan.
    change (Audit.auditMessages
              (Audit.applyUpdate (Audit.applyUpdate state u1)
                 (Audit.scanResult scanned msg)))
      with (Audit.auditMessages (Audit.applyUpdate state u1) ++ [msg]).
    split; [by intros [_ ?]%app_eq_nil|]. split; [|by eexists].
    rewrite lookup_last_snoc. by eexists.
  - unfold run, Audit.workflow, mbind, Prog_bind.
    rewrite runFrom_bind. cbv zeta. rewrite runFrom_step. cbv zeta.
    cbn [result final trace].
    destruct (initialize_sandbox o 0 () state) as [[_ (u & E & _)]|(Hsb & Hf & _)].
    2:{ rewrite Hf. right. by cbn. }
    rewrite E. cbv beta iota. left.
    unfold Audit.afterInitialize, mbind, Prog_bind.
    rewrite runFrom_bind. cbv zeta. rewrite runFrom_step. cbv zeta.
    cbn [result final trace].
    match goal with
    |- context [result (runFrom ?o' ?n' ?s' (Audit.scanCodeChanges ?st))] =>
      destruct (scan_shape o' n' s' st) as (scanned & msg & Escan)
    end.
    rewrite Escan. cbv beta iota.
    unfold Audit.afterScan. rewrite route_after_scan.
    destruct (isAIMessage msg && (0 <? length (tool_calls msg))).
    + unfold mbind, Prog_bind.
      rewrite runFrom_bind. cbv zeta. rewrite runFrom_step. cbv zeta.
      cbn [result final trace].
      match goal with
      |- context [result (runFrom ?o' ?n' ?s'
                            (Audit.generateSecurityRecommendations ?st))] =>
        destruct (recommend_shape o' n' s' st) as (msg' & Erec)
      end.
      rewrite Erec. cbv beta iota. rewrite runFrom_finalizeFrom. by eexists.
    + rewrite runFrom_finalizeFrom. by eexists.
Qed.

Lemma C9_routing_reads_existing_message_witness :
  let r1 := run sampleOracle () (Audit.initializeSecurityAudit sampleState) in
  (exists u1 u2,
     result r1 = Returned u1
     /\ result (runFrom sampleOracle (length (trace r1)) ()
                  (Audit.scanCodeChanges (Audit.applyUpdate sampleState u1))) = Returned u2
     /\ is_Some (Audit.proceedToRecommendationsOrFinalize
                   (Audit.applyUpdate (Audit.applyUpdate sampleState u1) u2)))
  /\ Audit.visited (result (run sandboxDown () (Audit.workflow sampleState)))
     = [Audit.initialize_security_audit].
Proof.
  split.
  - destruct (C9_routing_reads_existing_message sampleOracle 0 sampleState)
      as (_ & _ & _ & _ & _ & Hroute & _).
    eexists _, _. split; [reflexivity|]. split; [reflexivity|].
    destruct (Hroute sampleOracle 2 _ _ eq_refl eq_refl) as (_ & _ & Hdefined).
    exact Hdefined.
  - destruct (C9_routing_reads_existing_message sandboxDown 0 sampleState)
      as (_ & _ & _ & _ & _ & _ & [[st Hst]|(_ & Hvisited & _)]).
    + vm_compute in Hst. discriminate.
    + exact Hvisited.
Defined.


(* ===================================================================== *)
(** * Error rates                                                         *)
(* ===================================================================== *)

Section ErrorRateFacts.
Context {M : Type} `{MessageLike M}.
Import Transcript.

Lemma errorCount_le (group : list M) : errorCount group <= length group.
Proof. unfold errorCount. apply length_filter. Qed.

Lemma errorCount_zero (group : list M) :
  errorCount group = 0 <-> Forall (fun m => isErrorStatus m = false) group.
Proof.
  unfold errorCount. induction group as [|m g IH]; simpl.
  - split; [constructor|done].
  - rewrite filter_cons, Forall_cons. destruct (isErrorStatus m) eqn:E.
    + rewrite decide_True by done. simpl. split; [done|]. by intros [? _].
    + rewrite decide_False by done. rewrite IH. tauto.
Qed.

Lemma errorCount_full (group : list M) :
  errorCount group = length group <-> Forall (fun m => isErrorStatus m = true) group.
Proof.
  induction group as [|m g IH]; simpl.
  - split; [constructor|done].
  - unfold errorCount in *. rewrite filter_cons, Forall_cons.
    pose proof (length_filter (fun m => isErrorStatus m = true) g) as Hle.
    destruct (isErrorStatus m) eqn:E.
    + rewrite decide_True by done. simpl. rewrite <- IH. split; [|intros [_ ->]; done].
      intros [= ->]. done.
    + rewrite decide_False by done. split; [lia|]. by intros [? _].
Qed.

Lemma calculateErrorRate_quotient (group : list M) :
  group ≠ [] ->
  (calculateErrorRate group * inject_Z (Z.of_nat (length group))
   == inject_Z (Z.of_nat (errorCount group)))%Q.
Proof.
  intros Hne. unfold calculateErrorRate.
  destruct group as [|m g]; [done|]. cbn [length Nat.eqb].
  fold (errorCount (m :: g)).
  apply Qdiv_mult_l. unfold Qeq. simpl. lia.
Qed.

End ErrorRateFacts.
Section ErrorRateRange.
Context {M : Type} `{MessageLike M}.
Import Transcript.

(** X1.  The error rate of a group lies between 0 and 1; it is 0 exactly
    when the group has no error-status message (the empty group included)
    and 1 exactly when the group is non-empty and all of its messages have
    error status. *)
Theorem calculateErrorRate_range (group : list M) :
  let r := calculateErrorRate group in
  (0 <= r)%Q /\ (r <= 1)%Q
  /\ ((r == 0)%Q <-> Forall (fun m => isErrorStatus m = false) group)
  /\ ((r == 1)%Q <-> group ≠ [] /\ Forall (fun m => isErrorStatus m = true) group).
Proof.
  intros r. destruct (decide (group = [])) as [->|Hne].
  { subst r. change (calculateErrorRate (@nil M)) with 0%Q.
    split; [apply Qle_refl|]. split; [by unfold Qle|].
    split; [split; [constructor|reflexivity]|].
    split; [intros E; by unfold Qeq in E|by intros [? _]]. }
  pose proof (calculateErrorRate_quotient group Hne) as Hq. fold r in Hq.
  pose proof (errorCount_le group) as Hle.
  assert (0 < length group) as Hpos by (destruct group; [done|simpl; lia]).
  rewrite <- errorCount_zero, <- errorCount_full.
  set (n := length group) in *. set (e := errorCount group) in *.
  assert (0 < inject_Z (Z.of_nat n))%Q as HN.
  { unfold Qlt. simpl. lia. }
  assert (~ (inject_Z (Z.of_nat n) == 0)%Q) as HN0.
  { intros E. rewrite E in HN. by apply Qlt_irrefl in HN. }
  split; [|split; [|split]].
  - apply (Qmult_lt_0_le_reg_r _ _ _ HN). rewrite Hq, Qmult_0_l.
    change 0%Q with (inject_Z 0). rewrite <- Zle_Qle. lia.
  - apply (Qmult_lt_0_le_reg_r _ _ _ HN). rewrite Hq, Qmult_1_l.
    rewrite <- Zle_Qle. lia.
  - rewrite <- (Qmult_inj_r r 0 _ HN0), Hq, Qmult_0_l.
    change 0%Q with (inject_Z 0). rewrite inject_Z_injective. lia.
  - rewrite <- (Qmult_inj_r r 1 _ HN0), Hq, Qmult_1_l.
    rewrite inject_Z_injective. split; [intros E; split; [done|lia]|intros [_ E]; lia].
Qed.
End ErrorRateRange.

(* ===================================================================== *)
(** * The two grouping loops                                              *)
(* ===================================================================== *)

Section AllGroupsFacts.
Context {M : Type} `{MessageLike M}.
Import Transcript Escalation.

Lemma allGroupsStep_grouping (st : GroupLoop M) (m : M) :
  allGroupsStep st m = @groupStep M ignoringDiagnosis st m.
Proof.
  unfold allGroupsStep, groupStep, isAIMessage, isToolMessage. simpl.
  by rewrite andb_true_r.
Qed.

Lemma allGroups_grouping (messages : list M) :
  allGroups messages = @groupToolMessagesByAIMessage M ignoringDiagnosis messages.
Proof.
  unfold allGroups, groupToolMessagesByAIMessage. do 2 f_equal.
  generalize (@groupInit M). induction messages as [|m ms IH]; intros st; simpl; [done|].
  by rewrite allGroupsStep_grouping, IH.
Qed.

Lemma allGroups_nonempty (messages : list M) :
  Forall (fun g => g ≠ []) (allGroups messages).
Proof. rewrite allGroups_grouping. apply (@groups_nonempty M ignoringDiagnosis). Qed.

Lemma allGroups_concat (messages : list M) :
  concat (allGroups messages) `sublist_of` filter (fun m => isToolMessage m = true) messages.
Proof.
  rewrite allGroups_grouping.
  etrans; [apply (@concat_groups M ignoringDiagnosis)|].
  erewrite list_filter_iff; [reflexivity|].
  intros m. unfold kept, isToolMessage. simpl. tauto.
Qed.

End AllGroupsFacts.

Section GroupingRelation.
Context {M : Type} `{MessageLike M}.
Import Transcript Escalation.

Lemma undiagnosed_saveGroup (a g : GroupLoop M) :
  related a g -> related (saveGroup a) (saveGroup g).
Proof.
  intros (Hg & Hc & Hp). unfold saveGroup, related, undiagnosedGroups in *.
  destruct (currentGroup a) as [|x ca] eqn:Ea.
  { simpl in Hc. rewrite Hc. simpl. rewrite Ea. done. }
  cbn [length Nat.ltb Nat.leb]. cbn [groups currentGroup processingToolsForAI].
  rewrite fmap_app, filter_app. cbn [fmap list_fmap].
  destruct (currentGroup g) as [|y cg] eqn:Eg.
  - simpl. rewrite <- Hc. rewrite filter_cons, decide_False by tauto.
    rewrite filter_nil, app_nil_r. done.
  - cbn [length Nat.ltb Nat.leb]. cbn [groups currentGroup processingToolsForAI].
    rewrite <- Hc, Hg. rewrite (filter_cons _ (y :: cg)), decide_True by done.
    rewrite filter_nil. done.
Qed.

Lemma undiagnosed_step (a g : GroupLoop M) (m : M) :
  related a g -> related (allGroupsStep a m) (groupStep g m).
Proof.
  intros Hrel. pose proof Hrel as (Hg & Hc & Hp).
  unfold allGroupsStep, groupStep. rewrite Hp.
  destruct (isAIMessage m).
  { destruct (undiagnosed_saveGroup a g Hrel) as (? & ? & ?). by repeat split. }
  destruct (isToolMessage m) eqn:Et; simpl.
  - destruct (processingToolsForAI a) eqn:Ep; simpl; [|done].
    destruct (isDiagnosis m) eqn:Ed; simpl.
    + repeat split; try done. simpl. rewrite filter_app, filter_cons.
      rewrite decide_False by (rewrite Ed; done). by rewrite filter_nil, app_nil_r.
    + repeat split; try done. simpl. rewrite filter_app, filter_cons.
      rewrite decide_True by done. by rewrite filter_nil, Hc.
  - destruct (processingToolsForAI a) eqn:Ep; simpl; [|done].
    destruct (undiagnosed_saveGroup a g Hrel) as (? & ? & ?). by repeat split.
Qed.

Lemma undiagnosed_loop (messages : list M) (a g : GroupLoop M) :
  related a g ->
  related (fold_left allGroupsStep messages a) (fold_left groupStep messages g).
Proof.
  revert a g. induction messages as [|m ms IH]; intros a g Hrel; simpl; [done|].
  by apply IH, undiagnosed_step.
Qed.

(** X2.  The groups used for error rates are the groups of the
    diagnosis-cooldown loop with the diagnosis-flagged messages removed and
    the groups this empties dropped: the two loops cut the transcript at the
    same places. *)
Theorem groups_from_allGroups (messages : list M) :
  groupToolMessagesByAIMessage messages = undiagnosedGroups (allGroups messages).
Proof.
  unfold groupToolMessagesByAIMessage, allGroups.
  apply (undiagnosed_saveGroup _ _ (undiagnosed_loop messages groupInit groupInit
                                      (conj eq_refl (conj eq_refl eq_refl)))).
Qed.

End GroupingRelation.

(* ===================================================================== *)
(** * The ordinary-diagnosis decision                                     *)
(* ===================================================================== *)

Section CooldownFacts.
Context {M : Type} `{MessageLike M}.
Import Transcript Escalation.

Lemma sliceLast_widen {A} (n m : nat) (l : list A) (x : A) :
  n <= m -> x ∈ sliceLast n l -> x ∈ sliceLast m l.
Proof.
  intros Hnm. unfold sliceLast.
  replace (length l - n) with ((length l - m) + ((length l - n) - (length l - m))) by lia.
  rewrite <- drop_drop. intros Hx.
  eapply elem_of_sublist; [exact Hx|apply sublist_drop].
Qed.

Lemma sliceLast_subset {A} (n : nat) (l : list A) (x : A) :
  x ∈ sliceLast n l -> x ∈ l.
Proof. intros Hx. eapply elem_of_sublist; [exact Hx|apply sublist_drop]. Qed.

Lemma sliceLast_last {A} (n : nat) (l : list A) (x : A) :
  x ∈ sliceLast (S n) (l ++ [x]).
Proof.
  unfold sliceLast. rewrite length_app. simpl.
  rewrite drop_app_le by lia. apply elem_of_app. right. by left.
Qed.

Lemma hasRecentDiagnosisToolCall_spec (messages : list M) (n : nat) :
  hasRecentDiagnosisToolCall messages n = true
  <-> exists group, group ∈ sliceFromEnd n (allGroups messages) /\ holdsDiagnosis group.
Proof.
  unfold hasRecentDiagnosisToolCall, holdsDiagnosis. rewrite existsb_exists.
  split.
  - intros (g & Hg & Hd). apply existsb_exists in Hd as (m & Hm & Hd).
    exists g. split; [by apply list_elem_of_In|]. exists m. by rewrite list_elem_of_In.
  - intros (g & Hg & m & Hm & Hd). exists g. split; [by apply list_elem_of_In|].
    apply existsb_exists. exists m. by rewrite <- list_elem_of_In.
Qed.

(** X3.  The cooldown test can only succeed when the transcript has a
    diagnosis-flagged tool message; for positive group counts a wider window
    finds whatever a narrower one finds; and a group count of 0 is the widest
    window of all -- [slice(-0)] keeps every group -- not an empty one. *)
Theorem hasRecentDiagnosisToolCall_window (messages : list M) (n m : nat) :
  (hasRecentDiagnosisToolCall messages n = true ->
   exists x, x ∈ messages /\ isToolMessage x = true /\ isDiagnosis x = true)
  /\ (hasRecentDiagnosisToolCall messages n = true ->
      hasRecentDiagnosisToolCall messages 0 = true)
  /\ (1 <= n -> n <= m ->
      hasRecentDiagnosisToolCall messages n = true ->
      hasRecentDiagnosisToolCall messages m = true).
Proof.
  assert (forall k g, g ∈ sliceFromEnd k (allGroups messages) -> g ∈ allGroups messages)
    as Hsub.
  { intros k g. unfold sliceFromEnd. destruct (k =? 0); [done|apply sliceLast_subset]. }
  split; [|split].
  - intros (g & Hg & x & Hx & Hd)%hasRecentDiagnosisToolCall_spec.
    exists x. apply Hsub in Hg.
    assert (x ∈ concat (allGroups messages)) as Hin.
    { apply list_elem_of_In, in_concat. exists g. by rewrite <- !list_elem_of_In. }
    pose proof (elem_of_sublist _ _ _ Hin (allGroups_concat messages)) as Hf.
    apply list_elem_of_filter in Hf as [Ht Hm]. done.
  - rewrite !hasRecentDiagnosisToolCall_spec. intros (g & Hg & Hd).
    exists g. split; [|done]. by apply Hsub in Hg.
  - intros Hn Hnm. rewrite !hasRecentDiagnosisToolCall_spec. intros (g & Hg & Hd).
    exists g. split; [|done]. unfold sliceFromEnd in *.
    destruct n as [|n]; [lia|]. destruct m as [|m]; [lia|]. simpl in *.
    by apply (sliceLast_widen (S n)).
Qed.


Lemma forallb_sliceLast_weaken {A} (p q : A -> bool) (n m : nat) (l : list A) :
  n <= m -> (forall x, p x = true -> q x = true) ->
  forallb p (sliceLast m l) = true -> forallb q (sliceLast n l) = true.
Proof.
  intros Hnm Hpq. rewrite !forallb_forall. intros Hp x Hx.
  apply Hpq, Hp. apply list_elem_of_In. apply (sliceLast_widen n m); [done|].
  by apply list_elem_of_In.
Qed.

Lemma threshold_weaken (a b r : Q) :
  (a <= b)%Q -> Qle_bool b r = true -> Qle_bool a r = true.
Proof. rewrite !Qle_bool_iff. intros Hab Hb. by eapply Qle_trans. Qed.

(** X4.  Whenever smart recovery fires for a reason other than the count of
    recent diagnoses, and the diagnosis cooldown is not active, ordinary
    diagnosis fires too. *)
Theorem smart_recovery_implies_diagnosis (messages : list M) :
  shouldUseSmartRecovery messages = true ->
  recentDiagnosisCount messages < 2 ->
  hasRecentDiagnosisToolCall messages 2 = false ->
  shouldDiagnoseError messages = true.
Proof.
  unfold shouldUseSmartRecovery, shouldDiagnoseError.
  set (gs := groupToolMessagesByAIMessage messages).
  intros Hsmart Hcount Hcool. rewrite Hcool.
  destruct (length gs <? 2) eqn:Elen; [done|].
  apply Nat.ltb_ge in Elen.
  destruct (Nat.leb_spec 2 (recentDiagnosisCount messages)) as [|_]; [lia|].
  destruct (checkForStuckPattern messages); [done|].
  destruct (_ && forallb _ (sliceLast 3 gs)) eqn:Ehigh; [|done].
  apply andb_prop in Ehigh as [_ Ehigh].
  rewrite (proj2 (Nat.leb_le 2 (length gs)) Elen). simpl.
  assert (forall g : list M,
            Qle_bool highErrorThreshold (calculateErrorRate g) = true ->
            Qle_bool IMMEDIATE_THRESHOLD (calculateErrorRate g) = true) as Hweaker.
  { intros g. apply threshold_weaken. by unfold Qle. }
  by rewrite (forallb_sliceLast_weaken _ _ 2 3 gs (ltac:(lia)) Hweaker Ehigh).
Qed.

(** X5.  Sustained total failure triggers both decisions: with at least
    three groups, no diagnosis-flagged tool message in the transcript and
    only error results in the last three groups, ordinary diagnosis and
    smart recovery are both requested. *)
Theorem total_failure_triggers_both (messages : list M) :
  3 <= length (groupToolMessagesByAIMessage messages) ->
  (forall x, x ∈ messages -> isToolMessage x = true -> isDiagnosis x = false) ->
  Forall (Forall (fun m => isErrorStatus m = true))
         (sliceLast 3 (groupToolMessagesByAIMessage messages)) ->
  shouldDiagnoseError messages = true /\ shouldUseSmartRecovery messages = true.
Proof.
  intros Hlen Hnodiag Herr.
  assert (hasRecentDiagnosisToolCall messages 2 = false) as Hcool.
  { apply not_true_is_false. intros Hc.
    apply (proj1 (hasRecentDiagnosisToolCall_window messages 2 2)) in Hc
      as (x & Hx & Ht & Hd).
    rewrite (Hnodiag x Hx Ht) in Hd. done. }
  assert (forall thr, (thr <= 1)%Q ->
            forallb (fun g => Qle_bool thr (calculateErrorRate g))
                    (sliceLast 3 (groupToolMessagesByAIMessage messages)) = true) as Hrate.
  { intros thr Hthr. apply forallb_forall. intros g Hg%list_elem_of_In.
    rewrite Forall_forall in Herr. pose proof (Herr g Hg) as Hall.
    pose proof (groups_nonempty messages) as Hne. rewrite Forall_forall in Hne.
    specialize (Hne g (sliceLast_subset _ _ _ Hg)).
    destruct (calculateErrorRate_range g) as (_ & _ & _ & Hone).
    apply Qle_bool_iff. rewrite (proj2 Hone (conj Hne Hall)). done. }
  assert (shouldUseSmartRecovery messages = true) as Hsmart.
  { unfold shouldUseSmartRecovery.
    destruct (Nat.ltb_spec (length (groupToolMessagesByAIMessage messages)) 2); [lia|].
    destruct (2 <=? recentDiagnosisCount messages); [done|].
    rewrite (proj2 (Nat.leb_le 3 _) Hlen), Hrate; [done|by unfold Qle]. }
  split; [|done].
  unfold shouldDiagnoseError. rewrite Hcool.
  destruct (Nat.ltb_spec (length (groupToolMessagesByAIMessage messages)) 2); [lia|].
  destruct (checkForStuckPattern messages); [done|].
  rewrite (proj2 (Nat.leb_le 2 _)) by lia.
  rewrite (forallb_sliceLast_weaken _ _ 2 3 _ (ltac:(lia)) (fun x Hx => Hx)
             (Hrate IMMEDIATE_THRESHOLD ltac:(by unfold Qle))).
  done.
Qed.


End CooldownFacts.

Lemma hasRecentDiagnosisToolCall_window_witness :
  Escalation.hasRecentDiagnosisToolCall [sampleAI; sampleDiagnosis] 0 = true.
Proof.
  apply (proj1 (proj2 (hasRecentDiagnosisToolCall_window
                         [sampleAI; sampleDiagnosis] 2 2))).
  reflexivity.
Defined.

Lemma smart_recovery_implies_diagnosis_witness :
  Escalation.shouldDiagnoseError stuckTranscript = true.
Proof.
  apply smart_recovery_implies_diagnosis.
  - vm_compute. reflexivity.
  - vm_compute. lia.
  - reflexivity.
Defined.

Lemma total_failure_triggers_both_witness :
  Escalation.shouldDiagnoseError stuckTranscript = true
  /\ Transcript.shouldUseSmartRecovery stuckTranscript = true.
Proof.
  apply total_failure_triggers_both.
  - vm_compute. lia.
  - intros x Hx _.
    repeat (apply elem_of_cons in Hx as [->|Hx]; [reflexivity|]).
    by apply elem_of_nil in Hx.
  - vm_compute. repeat constructor.
Defined.

(* ===================================================================== *)
(** * The failed-action listing                                           *)
(* ===================================================================== *)

Section FailedActionFacts.
Context {M : Type} `{MessageLike M}.
Variable getMessageString : M -> string.
Import Transcript Escalation.

Lemma failedActionsLoop_cons2 (a b : M) (rest : list M) (acc : list string) :
  failedActionsLoop getMessageString (a :: b :: rest) acc
  = if isAIMessage a && isToolMessage b && isErrorStatus b
    then failedActionsLoop getMessageString rest
           (acc ++ [getMessageString a; getMessageString b])
    else if isToolMessage a && negb (isErrorStatus a) then acc
         else failedActionsLoop getMessageString (b :: rest) acc.
Proof. reflexivity. Qed.

Lemma failedActionsLoop_stop_bounded (n : nat) :
  forall (pre post : list M) (t : M) (acc : list string),
    length pre <= n ->
    isToolMessage t = true -> isErrorStatus t = false ->
    failedActionsLoop getMessageString (pre ++ t :: post) acc
    = failedActionsLoop getMessageString pre acc.
Proof.
  induction n as [|n IH]; intros pre post t acc Hlen Ht He.
  - destruct pre; [|simpl in Hlen; lia]. simpl.
    destruct post as [|p post]; [done|].
    assert (isAIMessage t = false) as Hai.
    { unfold isAIMessage, isToolMessage in *. apply bool_decide_eq_true in Ht.
      apply bool_decide_eq_false. by rewrite Ht. }
    by rewrite Hai, Ht, He.
  - destruct pre as [|a [|b pre]].
    + apply (IH [] post t acc); [simpl; lia|done|done].
    + change (([a] ++ t :: post)) with (a :: t :: post).
      rewrite failedActionsLoop_cons2, Ht, He. rewrite andb_false_r.
      destruct (isToolMessage a && negb (isErrorStatus a)); [done|].
      apply (IH [] post t acc); [simpl; lia|done|done].
    + change ((a :: b :: pre) ++ t :: post) with (a :: b :: (pre ++ t :: post)).
      rewrite !failedActionsLoop_cons2.
      destruct (isAIMessage a && isToolMessage b && isErrorStatus b).
      * apply IH; [simpl in Hlen; lia|done|done].
      * destruct (isToolMessage a && negb (isErrorStatus a)); [done|].
        apply (IH (b :: pre) post t acc); [simpl in *; lia|done|done].
Qed.

(** X6.  The failed-action listing reads nothing from the first tool result
    without error status on: a transcript cut just before such a message
    gives the same listing. *)
Theorem getAllLastFailedActions_stops_at_success (pre post : list M) (t : M) :
  isToolMessage t = true -> isErrorStatus t = false ->
  getAllLastFailedActions getMessageString (pre ++ t :: post)
  = getAllLastFailedActions getMessageString pre.
Proof.
  intros Ht He. unfold getAllLastFailedActions.
  by rewrite (failedActionsLoop_stop_bounded (length pre)).
Qed.

Lemma failedActionsLoop_pairs (pairs : list (M * M)) (rest : list M) (acc : list string) :
  Forall (fun p => failedPair p.1 p.2 = true) pairs ->
  failedActionsLoop getMessageString (flat_map (fun p => [p.1; p.2]) pairs ++ rest) acc
  = failedActionsLoop getMessageString rest
      (acc ++ flat_map (fun p => [getMessageString p.1; getMessageString p.2]) pairs).
Proof.
  revert acc. induction pairs as [|[a b] pairs IH]; intros acc Hall.
  - simpl. by rewrite app_nil_r.
  - apply Forall_cons in Hall as [Hab Hall]. simpl in Hab. unfold failedPair in Hab.
    cbn [flat_map app fst snd].
    rewrite failedActionsLoop_cons2, Hab, IH by done.
    by rewrite <- app_assoc.
Qed.

(** X7.  A transcript that starts with a run of failed actions (agent
    message, then error tool result) followed by a tool result without error
    status lists exactly that run, two entries per action, in order. *)
Theorem getAllLastFailedActions_leading_failures
    (pairs : list (M * M)) (t : M) (post : list M) :
  Forall (fun p => failedPair p.1 p.2 = true) pairs ->
  isToolMessage t = true -> isErrorStatus t = false ->
  getAllLastFailedActions getMessageString
    (flat_map (fun p => [p.1; p.2]) pairs ++ t :: post)
  = Text.join Text.nl
      (flat_map (fun p => [getMessageString p.1; getMessageString p.2]) pairs).
Proof.
  intros Hall Ht He.
  rewrite getAllLastFailedActions_stops_at_success by done.
  unfold getAllLastFailedActions.
  rewrite <- (app_nil_r (flat_map (fun p => [p.1; p.2]) pairs)).
  by rewrite failedActionsLoop_pairs.
Qed.

End FailedActionFacts.

Lemma getAllLastFailedActions_stops_at_success_witness :
  Escalation.getAllLastFailedActions sampleMessageString
    ([sampleAI; sampleTool "a" StatusError]
     ++ sampleTool "b" StatusSuccess :: [sampleAI; sampleTool "c" StatusError])
  = Escalation.getAllLastFailedActions sampleMessageString
      [sampleAI; sampleTool "a" StatusError].
Proof.
  apply (getAllLastFailedActions_stops_at_success sampleMessageString); reflexivity.
Defined.

Lemma getAllLastFailedActions_leading_failures_witness :
  Escalation.getAllLastFailedActions sampleMessageString
    (flat_map (fun p => [p.1; p.2]) [(sampleAI, sampleTool "a" StatusError)]
     ++ sampleTool "b" StatusSuccess :: [sampleAI])
  = Text.join Text.nl
      (flat_map (fun p => [sampleMessageString p.1; sampleMessageString p.2])
                [(sampleAI, sampleTool "a" StatusError)]).
Proof.
  apply (getAllLastFailedActions_leading_failures sampleMessageString).
  - repeat constructor.
  - reflexivity.
  - reflexivity.
Defined.
(* ===================================================================== *)
(** * Recovery strategy selector: outcomes and state                      *)
(* ===================================================================== *)

Section RecoveryOutcomes.
Import Recovery.

(** The four ways an invocation ends, each with the store it leaves. *)
Lemma smartErrorRecovery_cases (o : Oracle) (thread_id : option string)
    (recoveryStates : gmap string RecoveryState) :
  let threadId := threadIdOf thread_id in
  let c := retryCountOf recoveryStates threadId in
  let r := run o recoveryStates (smartErrorRecovery thread_id) in
  let model := selectRecoveryModel (c + 1) in
  let counted := setRetryCount (c + 1)
                   (default newRecoveryState (recoveryStates !! threadId)) in
  (5 < c + 1 /\ result r = Returned (humanHelp (c + 1))
   /\ final r = <[threadId := counted]> recoveryStates)
  \/ (c + 1 <= 5 /\ result r = Failed CollaboratorFailure
      /\ final r = <[threadId := counted]> recoveryStates)
  \/ (c + 1 <= 5 /\ result r = Failed missingToolCall
      /\ final r = <[threadId := counted]> recoveryStates)
  \/ (c + 1 <= 5
      /\ exists response toolCall,
           o 1 (InvokeModel model []) = ModelReply response
           /\ head (tool_calls response) = Some toolCall
           /\ result r = diagnosisUpdate response toolCall (c + 1) model
           /\ final r = <[threadId := setLastModelUsed model counted]> recoveryStates).
Proof.
  intros threadId c r model counted. subst r.
  unfold run, smartErrorRecovery. simpl.
  fold threadId. fold (retryCountOf recoveryStates threadId). fold c. fold counted.
  destruct (Nat.ltb_spec 5 (c + 1)) as [Hgt|Hle]; simpl; [by left|].
  right. unfold recover. simpl. fold model.
  destruct (o 0 (LoadModel model)); simpl; try (left; done).
  destruct (o 1 (InvokeModel model [])) as [| | | |response] eqn:Ereply; simpl;
    try (left; done).
  destruct (head (tool_calls response)) as [toolCall|] eqn:Ecall; simpl.
  - right. right. split; [done|]. exists response, toolCall.
    rewrite lookup_insert_eq. simpl. repeat split; try done.
    apply map_eq. intros t. destruct (decide (t = threadId)) as [->|Hne].
    + by rewrite lookup_alter_eq, !lookup_insert_eq.
    + by rewrite lookup_alter_ne, !lookup_insert_ne.
  - right. left. done.
Qed.


Lemma diagnosisUpdate_not_help response toolCall n m k :
  diagnosisUpdate response toolCall n m ≠ Returned (humanHelp k).
Proof.
  intros E.
  apply (f_equal (fun out => match out with
                             | Returned u => length (messages u)
                             | Failed _ => 0
                             end)) in E.
  simpl in E. discriminate.
Qed.

(** X8.  An invocation changes the recovery state of its own thread only,
    and there it raises the retry count by one, leaves the error patterns and
    the alternative approaches alone, and records the model used exactly when
    the outcome is a diagnosis; after a human-help request or a failure the
    last model used is what it was (SUMMARIZER for a thread seen for the
    first time). *)
Theorem smartErrorRecovery_state_effect (o : Oracle) (thread_id : option string)
    (recoveryStates : gmap string RecoveryState) :
  let threadId := threadIdOf thread_id in
  let before := default newRecoveryState (recoveryStates !! threadId) in
  let r := run o recoveryStates (smartErrorRecovery thread_id) in
  let model := selectRecoveryModel (retryCount before + 1) in
  (forall t, t ≠ threadId -> final r !! t = recoveryStates !! t)
  /\ exists after,
       final r !! threadId = Some after
       /\ retryCount after = retryCount before + 1
       /\ errorPatterns after = errorPatterns before
       /\ alternativeApproaches after = alternativeApproaches before
       /\ ((exists response toolCall,
              result r = diagnosisUpdate response toolCall (retryCount before + 1) model) ->
           lastModelUsed after = model)
       /\ ((forall response toolCall n m,
              result r ≠ diagnosisUpdate response toolCall n m) ->
           lastModelUsed after = lastModelUsed before).
Proof.
  intros threadId before r model.
  destruct (smartErrorRecovery_cases o thread_id recoveryStates)
    as [(_ & Hres & Hfin)|[(_ & Hres & Hfin)|[(_ & Hres & Hfin)|
        (_ & response & toolCall & _ & _ & Hres & Hfin)]]];
    fold threadId r in Hres, Hfin; unfold retryCountOf in Hres, Hfin;
    fold threadId before in Hres, Hfin; fold model in Hres, Hfin;
    rewrite Hfin, Hres.
  1-3: split; [intros t Ht; by rewrite lookup_insert_ne|];
       eexists; split; [apply lookup_insert_eq|]; simpl;
       repeat split; try done.
  - intros (response & toolCall & E). by apply eq_sym, diagnosisUpdate_not_help in E.
  - intros (response & toolCall & E). discriminate E.
  - intros (response & toolCall & E). discriminate E.
  - split; [intros t Ht; by rewrite lookup_insert_ne|].
    eexists; split; [apply lookup_insert_eq|]. simpl. repeat split; try done.
    intros Hnot. by destruct (Hnot response toolCall (retryCount before + 1) model).
Qed.

(** Consecutive retry counts select different models, and the selection
    repeats with period three. *)
Lemma selectRecoveryModel_rotates (retryCount : nat) :
  selectRecoveryModel (retryCount + 3) = selectRecoveryModel retryCount
  /\ selectRecoveryModel (retryCount + 1) ≠ selectRecoveryModel retryCount.
Proof.
  unfold selectRecoveryModel, modelIndex. simpl length.
  replace ((retryCount + 3) mod 3) with (retryCount mod 3)
    by (rewrite <- (Nat.Div0.add_mod_idemp_r retryCount 3 3); simpl;
        by rewrite Nat.add_0_r).
  split; [done|].
  rewrite <- (Nat.Div0.add_mod_idemp_l retryCount 1 3).
  pose proof (Nat.mod_upper_bound retryCount 3 ltac:(lia)) as Hlt.
  destruct (retryCount mod 3) as [|[|[|n]]]; simpl; try discriminate; lia.
Qed.

(** X9.  Below the circuit breaker every invocation first loads the model
    its new retry count selects; so two invocations in a row on one thread
    load different models, and the model loaded repeats every third
    invocation. *)
Theorem smartErrorRecovery_rotation (o o' : Oracle) (thread_id : option string)
    (recoveryStates : gmap string RecoveryState) :
  let c := retryCountOf recoveryStates (threadIdOf thread_id) in
  let r := run o recoveryStates (smartErrorRecovery thread_id) in
  let r' := run o' (final r) (smartErrorRecovery thread_id) in
  c + 2 <= 5 ->
  head (trace r).*2 = Some (LoadModel (selectRecoveryModel (c + 1)))
  /\ head (trace r').*2 = Some (LoadModel (selectRecoveryModel (c + 2)))
  /\ selectRecoveryModel (c + 2) ≠ selectRecoveryModel (c + 1)
  /\ selectRecoveryModel (c + 1 + 3) = selectRecoveryModel (c + 1).
Proof.
  intros c r r' Hle.
  assert (forall o σ, retryCountOf σ (threadIdOf thread_id) + 1 <= 5 ->
            head (trace (run o σ (smartErrorRecovery thread_id))).*2
            = Some (LoadModel
                      (selectRecoveryModel (retryCountOf σ (threadIdOf thread_id) + 1))))
    as Hfirst.
  { intros o1 σ Hc. unfold run, smartErrorRecovery. simpl.
    fold (retryCountOf σ (threadIdOf thread_id)).
    destruct (Nat.ltb_spec 5 (retryCountOf σ (threadIdOf thread_id) + 1)); [lia|].
    reflexivity. }
  destruct (smartErrorRecovery_run o thread_id recoveryStates) as (Hfin & _).
  apply retryCountOf_final in Hfin. fold r c in Hfin.
  split; [apply Hfirst; fold c; lia|]. split.
  - unfold r'. rewrite Hfirst; rewrite Hfin; [|lia].
    by replace (c + 1 + 1) with (c + 2) by lia.
  - replace (c + 2) with (c + 1 + 1) by lia.
    destruct (selectRecoveryModel_rotates (c + 1)) as [Hperiod Hdiff]. done.
Qed.

End RecoveryOutcomes.

Lemma smartErrorRecovery_rotation_witness :
  let r := run sampleOracle ∅ (Recovery.smartErrorRecovery (Some "thread-1")) in
  let r' := run sampleOracle (final r) (Recovery.smartErrorRecovery (Some "thread-1")) in
  head (trace r).*2 = Some (LoadModel PLANNER)
  /\ head (trace r').*2 = Some (LoadModel SUMMARIZER).
Proof.
  destruct (smartErrorRecovery_rotation sampleOracle sampleOracle (Some "thread-1") ∅)
    as (H1 & H2 & _); [vm_compute; lia|].
  exact (conj H1 H2).
Defined.

(* ===================================================================== *)
(** * Recovery output fed back into the transcript                        *)
(* ===================================================================== *)

Section FeedbackFacts.
Context {M : Type} `{MessageLike M}.
Import Transcript Escalation.

Lemma saveGroup_idem (st : GroupLoop M) (b : bool) :
  groups (saveGroup (setProcessing b (saveGroup st))) = groups (saveGroup st).
Proof.
  set (s1 := saveGroup st).
  assert (currentGroup (setProcessing b s1) = []) as Hcur.
  { simpl. apply saveGroup_current. }
  unfold saveGroup. by rewrite Hcur.
Qed.

Lemma groups_after_agent (pre : list M) (a : M) :
  isAIMessage a = true ->
  groupToolMessagesByAIMessage (pre ++ [a]) = groupToolMessagesByAIMessage pre.
Proof.
  intros Ha. unfold groupToolMessagesByAIMessage.
  rewrite fold_left_app. simpl. unfold groupStep at 1. rewrite Ha.
  apply saveGroup_idem.
Qed.

Lemma groups_after_agent_diagnosis (pre : list M) (a t : M) :
  isAIMessage a = true -> isToolMessage t = true -> isDiagnosis t = true ->
  groupToolMessagesByAIMessage (pre ++ [a; t]) = groupToolMessagesByAIMessage pre.
Proof.
  intros Ha Ht Hd. unfold groupToolMessagesByAIMessage.
  rewrite fold_left_app. simpl.
  assert (isAIMessage t = false) as Hnot.
  { unfold isAIMessage, isToolMessage in *. apply bool_decide_eq_true in Ht.
    apply bool_decide_eq_false. by rewrite Ht. }
  unfold groupStep at 1. rewrite Hnot, Ht, Hd. simpl.
  rewrite andb_false_r. simpl.
  unfold groupStep at 1. rewrite Ha. apply saveGroup_idem.
Qed.

Lemma allGroups_after_agent_tool (pre : list M) (a t : M) :
  isAIMessage a = true -> isToolMessage t = true ->
  allGroups (pre ++ [a; t]) = allGroups pre ++ [[t]].
Proof.
  intros Ha Ht. unfold allGroups.
  rewrite fold_left_app. simpl.
  assert (isAIMessage t = false) as Hnot.
  { unfold isAIMessage, isToolMessage in *. apply bool_decide_eq_true in Ht.
    apply bool_decide_eq_false. by rewrite Ht. }
  set (st := fold_left allGroupsStep pre groupInit).
  pose proof (saveGroup_current st) as Hcur.
  assert (allGroupsStep st a = setProcessing true (saveGroup st)) as ->.
  { unfold allGroupsStep. by rewrite Ha. }
  assert (allGroupsStep (setProcessing true (saveGroup st)) t
          = {| groups := groups (saveGroup st); currentGroup := [t];
               processingToolsForAI := true |}) as ->.
  { unfold allGroupsStep. rewrite Hnot, Ht. simpl. by rewrite Hcur. }
  reflexivity.
Qed.

Lemma cooldown_after_agent_diagnosis (pre : list M) (a t : M) :
  isAIMessage a = true -> isToolMessage t = true -> isDiagnosis t = true ->
  shouldDiagnoseError (pre ++ [a; t]) = false.
Proof.
  intros Ha Ht Hd. unfold shouldDiagnoseError.
  destruct (_ <? 2); [done|].
  assert (hasRecentDiagnosisToolCall (pre ++ [a; t]) 2 = true) as ->; [|done].
  apply hasRecentDiagnosisToolCall_spec. exists [t]. split.
  - rewrite allGroups_after_agent_tool by done. apply (sliceLast_last 1).
  - exists t. split; [by left|done].
Qed.

End FeedbackFacts.

(** X10.  The messages a recovery invocation returns never change how the
    transcript they are appended to is grouped, so error rates are computed
    from the same groups before and after; and once a diagnosis outcome is
    appended the ordinary-diagnosis decision is off, whatever came before. *)
Theorem recovery_output_in_transcript (o : Oracle) (thread_id : option string)
    (recoveryStates : gmap string Recovery.RecoveryState)
    (pre : list BaseMessage) (u : Recovery.GraphUpdate) :
  let r := run o recoveryStates (Recovery.smartErrorRecovery thread_id) in
  result r = Returned u ->
  (forall call response, o 1 call = ModelReply response -> msg_type response = AIType) ->
  Transcript.groupToolMessagesByAIMessage (pre ++ Recovery.messages u)
  = Transcript.groupToolMessagesByAIMessage pre
  /\ ((forall k, u ≠ Recovery.humanHelp k) ->
      Escalation.shouldDiagnoseError (pre ++ Recovery.messages u) = false).
Proof.
  intros r Hres Hai.
  destruct (smartErrorRecovery_cases o thread_id recoveryStates)
    as [(_ & Hr & _)|[(_ & Hr & _)|[(_ & Hr & _)|
        (_ & response & toolCall & Hreply & _ & Hr & _)]]];
    fold r in Hr; rewrite Hr in Hres; try discriminate.
  - injection Hres as <-. split.
    + by apply groups_after_agent.
    + intros Hnot. by destruct (Hnot _ eq_refl).
  - unfold diagnosisUpdate in Hres. injection Hres as <-. simpl.
    assert (isAIMessage response = true) as Hresp.
    { unfold isAIMessage. apply bool_decide_eq_true. simpl. by eapply Hai. }
    split; [by apply groups_after_agent_diagnosis|].
    intros _. by apply cooldown_after_agent_diagnosis.
Qed.

Lemma recovery_output_in_transcript_witness :
  exists u,
    result (run diagnosingModel ∅ (Recovery.smartErrorRecovery (Some "thread-1")))
    = Returned u
    /\ Escalation.shouldDiagnoseError (stuckTranscript ++ Recovery.messages u) = false.
Proof.
  eexists. split; [reflexivity|].
  apply (recovery_output_in_transcript diagnosingModel (Some "thread-1") ∅).
  - reflexivity.
  - intros call response E. destruct call; simpl in E; try discriminate.
    by injection E as <-.
  - intros k E. apply (f_equal (fun u => length (Recovery.messages u))) in E.
    simpl in E. discriminate.
Defined.
(* ===================================================================== *)
(** * Report synthesizer: message by message                              *)
(* ===================================================================== *)

Section ReportComposition.
Import Text Report.

Lemma startsWith_before_newline (k a b : string) :
  noNewline k ->
  startsWith k (a +:+ String (ascii_of_nat 10) b) = startsWith k a.
Proof.
  revert a. induction k as [|c k IH]; intros a Hk; [done|].
  destruct Hk as [Hc Hk]. destruct a as [|y a]; simpl.
  - rewrite bool_decide_false; [done|]. intros ->. by apply Hc.
  - by rewrite IH.
Qed.

Lemma includes_across_newline (a b k : string) :
  noNewline k -> k ≠ "" ->
  includes (a +:+ String (ascii_of_nat 10) b) k = includes a k || includes b k.
Proof.
  intros Hk Hne. induction a as [|x a IH].
  - destruct k as [|c k]; [done|]. destruct Hk as [Hc Hk].
    change ("" +:+ String (ascii_of_nat 10) b) with (String (ascii_of_nat 10) b).
    change (includes (String (ascii_of_nat 10) b) (String c k))
      with (startsWith (String c k) (String (ascii_of_nat 10) b) || includes b (String c k)).
    simpl startsWith. rewrite bool_decide_false; [done|]. intros ->. by apply Hc.
  - change (includes (String x a +:+ String (ascii_of_nat 10) b) k)
      with (startsWith k (String x a +:+ String (ascii_of_nat 10) b)
            || includes (a +:+ String (ascii_of_nat 10) b) k).
    change (includes (String x a) k) with (startsWith k (String x a) || includes a k).
    rewrite startsWith_before_newline, IH by done. by rewrite orb_assoc.
Qed.

Lemma includes_empty (k : string) : k ≠ "" -> includes "" k = false.
Proof. by destruct k. Qed.

Lemma includes_across_separator (a b k : string) :
  noNewline k -> k ≠ "" ->
  includes (a +:+ (nl +:+ nl) +:+ b) k = includes a k || includes b k.
Proof.
  intros Hk Hne.
  change (a +:+ (nl +:+ nl) +:+ b)
    with (a +:+ String (ascii_of_nat 10) ("" +:+ String (ascii_of_nat 10) b)).
  rewrite includes_across_newline by done.
  rewrite (includes_across_newline "" b k) by done.
  by rewrite (includes_empty k Hne).
Qed.

Lemma toLowerCase_separator (a b : string) :
  toLowerCase (a +:+ (nl +:+ nl) +:+ b)
  = toLowerCase a +:+ (nl +:+ nl) +:+ toLowerCase b.
Proof. by rewrite !toLowerCase_append. Qed.

Lemma someKeyword_separator (keywords : list string) (a b : string) :
  Forall (fun k => noNewline k /\ k ≠ "") keywords ->
  someKeyword keywords (a +:+ (nl +:+ nl) +:+ b)
  = someKeyword keywords a || someKeyword keywords b.
Proof.
  unfold someKeyword. rewrite toLowerCase_separator.
  induction 1 as [|k ks [Hk Hne] _ IH]; simpl; [done|].
  rewrite includes_across_separator, IH by done.
  destruct (includes (toLowerCase a) k), (includes (toLowerCase b) k); simpl;
    try done; by rewrite ?orb_true_r.
Qed.

Lemma someKeyword_empty (keywords : list string) :
  Forall (fun k => noNewline k /\ k ≠ "") keywords -> someKeyword keywords "" = false.
Proof.
  unfold someKeyword. induction 1 as [|k ks [Hk Hne] _ IH]; [done|].
  cbn [existsb toLowerCase] in *. by rewrite includes_empty, IH.
Qed.

Lemma someKeyword_join (keywords : list string) (texts : list string) :
  Forall (fun k => noNewline k /\ k ≠ "") keywords ->
  someKeyword keywords (join (nl +:+ nl) texts)
  = existsb (someKeyword keywords) texts.
Proof.
  intros Hk. induction texts as [|t [|t' rest] IH].
  - by apply someKeyword_empty.
  - simpl. by rewrite orb_false_r.
  - change (join (nl +:+ nl) (t :: t' :: rest))
      with (t +:+ (nl +:+ nl) +:+ join (nl +:+ nl) (t' :: rest)).
    rewrite someKeyword_separator, IH by done. reflexivity.
Qed.

Lemma tier_keywords_plain :
  Forall (fun k => noNewline k /\ k ≠ "") criticalKeywords
  /\ Forall (fun k => noNewline k /\ k ≠ "") highKeywords
  /\ Forall (fun k => noNewline k /\ k ≠ "") mediumKeywords.
Proof.
  repeat split; repeat constructor; simpl; try discriminate;
    repeat split; discriminate.
Qed.


Lemma riskOf_tiers (text : string) :
  riskOf text = riskFrom (someKeyword criticalKeywords text)
                         (someKeyword highKeywords text)
                         (someKeyword mediumKeywords text).
Proof. reflexivity. Qed.

Lemma riskMax_riskFrom (c h m c' h' m' : bool) :
  riskMax (riskFrom c h m) (riskFrom c' h' m') = riskFrom (c || c') (h || h') (m || m').
Proof. by destruct c, h, m, c', h', m'. Qed.

Lemma riskOf_join (texts : list string) :
  riskOf (join (nl +:+ nl) texts) = foldr riskMax low (map riskOf texts).
Proof.
  destruct tier_keywords_plain as (Hc & Hh & Hm).
  rewrite riskOf_tiers, !someKeyword_join by done.
  induction texts as [|t texts IH]; [done|].
  cbn [map foldr existsb]. rewrite <- IH, riskOf_tiers. by rewrite riskMax_riskFrom.
Qed.

Lemma riskRank_max_l (a b : Risk) : riskRank a <= riskRank (riskMax a b).
Proof. unfold riskMax. destruct (Nat.ltb_spec (riskRank a) (riskRank b)); lia. Qed.

Lemma riskRank_foldr_app (xs ys : list Risk) :
  riskRank (foldr riskMax low xs) <= riskRank (foldr riskMax low (xs ++ ys)).
Proof.
  induction xs as [|x xs IH]; [simpl; lia|].
  change (foldr riskMax low ((x :: xs) ++ ys))
    with (riskMax x (foldr riskMax low (xs ++ ys))).
  change (foldr riskMax low (x :: xs)) with (riskMax x (foldr riskMax low xs)).
  generalize dependent (foldr riskMax low (xs ++ ys)).
  generalize (foldr riskMax low xs). intros a b Hab.
  unfold riskMax.
  destruct (Nat.ltb_spec (riskRank x) (riskRank a));
    destruct (Nat.ltb_spec (riskRank x) (riskRank b)); lia.
Qed.

(** X11.  The overall risk of a report is the highest of the risks its
    messages have one by one (messages without text count for nothing, and no
    message at all gives low): no keyword is ever matched across the
    separator between two messages.  Hence further audit messages never lower
    the risk. *)
Theorem overallRisk_by_message (auditMessages more : list BaseMessage) :
  overallRisk (parseSecurityAnalysis auditMessages)
  = foldr riskMax low (map riskOf (omap textOf auditMessages))
  /\ riskRank (overallRisk (parseSecurityAnalysis auditMessages))
     <= riskRank (overallRisk (parseSecurityAnalysis (auditMessages ++ more))).
Proof.
  assert (forall msgs, overallRisk (parseSecurityAnalysis msgs)
                       = foldr riskMax low (map riskOf (omap textOf msgs))) as Hrisk.
  { intros msgs. apply riskOf_join. }
  split; [apply Hrisk|].
  rewrite !Hrisk, omap_app, map_app. apply riskRank_foldr_app.
Qed.


Lemma split_go_newline (cur a b : string) :
  split_go cur (a +:+ String (ascii_of_nat 10) b) = split_go cur a ++ split_go "" b.
Proof.
  revert cur. induction a as [|x a IH]; intros cur; [reflexivity|].
  change (String x a +:+ String (ascii_of_nat 10) b)
    with (String x (a +:+ String (ascii_of_nat 10) b)).
  cbn [split_go]. destruct (code x =? 10); by rewrite IH.
Qed.

Lemma splitLines_separator (a b : string) :
  splitLines (a +:+ (nl +:+ nl) +:+ b) = splitLines a ++ "" :: splitLines b.
Proof.
  unfold splitLines.
  change (a +:+ (nl +:+ nl) +:+ b)
    with (a +:+ String (ascii_of_nat 10) ("" +:+ String (ascii_of_nat 10) b)).
  rewrite split_go_newline. reflexivity.
Qed.

Lemma recommendations_of_lines (l1 l2 : list string) :
  collectRecommendations (l1 ++ l2) []
  = collectRecommendations l1 [] ++ collectRecommendations l2 [].
Proof.
  rewrite !collectRecommendations_filter. simpl.
  by rewrite filter_app, map_app.
Qed.

Lemma recommendations_of_join (texts : list string) :
  collectRecommendations (splitLines (join (nl +:+ nl) texts)) []
  = flat_map recommendationsIn texts.
Proof.
  induction texts as [|t [|t' rest] IH].
  - reflexivity.
  - simpl. by rewrite app_nil_r.
  - change (join (nl +:+ nl) (t :: t' :: rest))
      with (t +:+ (nl +:+ nl) +:+ join (nl +:+ nl) (t' :: rest)).
    rewrite splitLines_separator, recommendations_of_lines.
    change ("" :: splitLines (join (nl +:+ nl) (t' :: rest)))
      with ([""] ++ splitLines (join (nl +:+ nl) (t' :: rest))).
    rewrite recommendations_of_lines, IH. reflexivity.
Qed.

(** X12.  The recommendations of a report are the first ten, in order, of
    the recommendations found in its messages one by one; there are never
    more than ten; and the report never lists a vulnerability. *)
Theorem recommendations_by_message (auditMessages : list BaseMessage) :
  let report := parseSecurityAnalysis auditMessages in
  recommendations report
  = take 10 (flat_map recommendationsIn (omap textOf auditMessages))
  /\ length (recommendations report) <= 10
  /\ vulnerabilities report = [].
Proof.
  intros report. subst report. cbn [recommendations vulnerabilities parseSecurityAnalysis].
  unfold analysisTextOf. rewrite recommendations_of_join.
  split; [done|]. split; [|done]. rewrite length_take. lia.
Qed.

End ReportComposition.
(* ===================================================================== *)
(** * Trimming and truncation                                             *)
(* ===================================================================== *)

Section TrimFacts.
Import Text Report.

Lemma string_app_cons (x : ascii) (a b : string) :
  String x a +:+ b = String x (a +:+ b).
Proof. reflexivity. Qed.

Lemma string_app_assoc (a b c : string) : (a +:+ b) +:+ c = a +:+ (b +:+ c).
Proof.
  induction a as [|x a IH]; [done|]. rewrite !string_app_cons. by f_equal.
Qed.

Lemma length_string_app (a b : string) :
  String.length (a +:+ b) = String.length a + String.length b.
Proof.
  induction a as [|x a IH]; [done|]. rewrite string_app_cons. simpl. by f_equal.
Qed.

Lemma rev_string_app (acc a b : string) :
  rev_string acc (a +:+ b) = rev_string (rev_string acc a) b.
Proof.
  revert acc. induction a as [|x a IH]; intros acc; [done|].
  rewrite string_app_cons. cbn [rev_string]. apply IH.
Qed.

Lemma rev_string_acc (acc s : string) : rev_string acc s = rev_string "" s +:+ acc.
Proof.
  revert acc. induction s as [|c s IH]; intros acc; [done|].
  cbn [rev_string]. rewrite (IH (String c acc)), (IH (String c "")).
  by rewrite string_app_assoc.
Qed.

Lemma rev_string_involutive (s : string) : rev_string "" (rev_string "" s) = s.
Proof.
  induction s as [|c s IH]; [done|].
  cbn [rev_string]. rewrite (rev_string_acc (String c "") s), rev_string_app, IH.
  reflexivity.
Qed.

Lemma dropWhile_idempotent p (s : string) : dropWhile p (dropWhile p s) = dropWhile p s.
Proof.
  induction s as [|c s IH]; [done|]. cbn [dropWhile].
  destruct (p c) eqn:E; [done|]. cbn [dropWhile]. by rewrite E.
Qed.

Lemma dropWhile_before_stop p (u v : string) (c : ascii) :
  p c = false ->
  dropWhile p (u +:+ String c v) = dropWhile p u +:+ String c v.
Proof.
  intros Hc. induction u as [|x u IH].
  - change ("" +:+ String c v) with (String c v). cbn [dropWhile]. by rewrite Hc.
  - rewrite string_app_cons. cbn [dropWhile]. destruct (p x); [done|reflexivity].
Qed.

Lemma trimEnd_idempotent (t : string) : trimEnd (trimEnd t) = trimEnd t.
Proof. unfold trimEnd. by rewrite rev_string_involutive, dropWhile_idempotent. Qed.

Lemma dropWhile_length p (u : string) :
  String.length (dropWhile p u) <= String.length u.
Proof.
  induction u as [|y u IH]; [done|]. cbn [dropWhile].
  destruct (p y); simpl in *; lia.
Qed.

Lemma rev_string_length (acc u : string) :
  String.length (rev_string acc u) = String.length u + String.length acc.
Proof.
  revert acc. induction u as [|y u IH]; intros acc; [done|].
  cbn [rev_string]. rewrite IH. simpl. lia.
Qed.

Lemma trimEnd_length (t : string) : String.length (trimEnd t) <= String.length t.
Proof.
  unfold trimEnd. rewrite rev_string_length.
  pose proof (dropWhile_length isSpace (rev_string "" t)) as Hd.
  rewrite rev_string_length in Hd. simpl in *. lia.
Qed.

(** A string that trimming at the start leaves alone does not start with
    whitespace. *)
Lemma trimStart_fixed (c : ascii) (t : string) :
  trimStart (String c t) = String c t -> isSpace c = false.
Proof.
  unfold trimStart. cbn [dropWhile]. destruct (isSpace c); [|done].
  intros E. pose proof (dropWhile_length isSpace t) as Hle.
  rewrite E in Hle. simpl in Hle. lia.
Qed.

Lemma trimEnd_keeps_start (t : string) :
  trimStart t = t -> trimStart (trimEnd t) = trimEnd t.
Proof.
  destruct t as [|c t]; [done|]. intros Hc%trimStart_fixed.
  unfold trimEnd. cbn [rev_string].
  rewrite (rev_string_acc (String c "")), dropWhile_before_stop by done.
  rewrite rev_string_app. cbn [rev_string]. unfold trimStart. cbn [dropWhile].
  by rewrite Hc.
Qed.

Lemma trimStart_idempotent (s : string) : trimStart (trimStart s) = trimStart s.
Proof. apply dropWhile_idempotent. Qed.

Lemma trim_idempotent (s : string) : trim (trim s) = trim s.
Proof.
  unfold trim. rewrite trimEnd_keeps_start by apply trimStart_idempotent.
  apply trimEnd_idempotent.
Qed.

Lemma trim_start (s : string) : trimStart (trim s) = trim s.
Proof. unfold trim. apply trimEnd_keeps_start, trimStart_idempotent. Qed.

(** X13.  Every recommendation of a report is already trimmed: trimming it
    again changes nothing, and it does not start with whitespace. *)
Theorem recommendations_trimmed (auditMessages : list BaseMessage) (r : string) :
  r ∈ recommendations (parseSecurityAnalysis auditMessages) ->
  trim r = r
  /\ (forall c rest, r = String c rest -> isSpace c = false).
Proof.
  intros (c & rest & _ & _ & ->)%recommendation_has_marker.
  split; [apply trim_idempotent|].
  intros x tail E. apply (trimStart_fixed x tail). rewrite <- E. apply trim_start.
Qed.

End TrimFacts.

Lemma recommendations_trimmed_witness :
  Text.trim "We Recommend x" = "We Recommend x"
  /\ (forall c rest, "We Recommend x" = String c rest -> Text.isSpace c = false).
Proof.
  apply (recommendations_trimmed [sampleText "- We Recommend x "]).
  vm_compute. left.
Defined.

(* ===================================================================== *)
(** * Report synthesizer: the summary                                     *)
(* ===================================================================== *)

Section SummaryFacts.
Import Text Report.

Lemma units_byte (n : nat) : n < 256 -> code (ascii_of_nat n) = n.
Proof. intros Hn. unfold code. by apply nat_ascii_embedding. Qed.

Lemma length16_app (a b : string) : length16 (a +:+ b) = length16 a + length16 b.
Proof.
  induction a as [|x a IH]; [done|]. rewrite string_app_cons. cbn [length16].
  rewrite IH. lia.
Qed.

Lemma units_le (c : ascii) : units c <= 2.
Proof. unfold units. repeat case_match; lia. Qed.

Lemma length16_highSurrogate (c : ascii) (s' : string) :
  length16 (highSurrogate c s') = 1.
Proof.
  unfold highSurrogate. cbv zeta.
  set (h := _ - 64). cbn [length16]. unfold units.
  rewrite !units_byte.
  - pose proof (Nat.mod_upper_bound (h / 64) 16). pose proof (Nat.mod_upper_bound h 64).
    repeat case_match;
      repeat match goal with
      | H : (_ <? _) = true |- _ => apply Nat.ltb_lt in H
      | H : (_ <? _) = false |- _ => apply Nat.ltb_ge in H
      end; lia.
  - pose proof (Nat.mod_upper_bound h 64). lia.
  - pose proof (Nat.mod_upper_bound (h / 64) 16). lia.
  - lia.
Qed.

Lemma substring0_length (n : nat) (s : string) :
  length16 (substring0 n s) = n `min` length16 s.
Proof.
  revert n. induction s as [|c s IH]; intros n; [by rewrite Nat.min_0_r|].
  cbn [substring0 length16]. pose proof (units_le c).
  destruct (Nat.leb_spec (units c) n) as [Hle|Hgt].
  - cbn [length16]. rewrite IH. lia.
  - destruct (Nat.eqb_spec n 1) as [->|Hn].
    + rewrite length16_highSurrogate. lia.
    + cbn [length16]. lia.
Qed.

Lemma substring0_whole (n : nat) (s : string) :
  length16 s <= n -> substring0 n s = s.
Proof.
  revert n. induction s as [|c s IH]; intros n Hn; [done|].
  cbn [substring0 length16] in *.
  destruct (Nat.leb_spec (units c) n) as [Hle|Hgt]; [|lia].
  rewrite IH; [done|lia].
Qed.

(** What [substring0] keeps is a prefix of the text, followed by the high
    half of the character that straddles the cut, if one does. *)
Lemma substring0_prefix (n : nat) (s : string) :
  exists first rest,
    s = first +:+ rest
    /\ (substring0 n s = first
        \/ exists c rest',
             rest = String c rest' /\ units c = 2 /\ length16 first + 1 = n
             /\ substring0 n s = first +:+ highSurrogate c rest').
Proof.
  revert n. induction s as [|c s IH]; intros n.
  - exists "", "". split; [done|]. by left.
  - cbn [substring0]. pose proof (units_le c).
    destruct (Nat.leb_spec (units c) n) as [Hle|Hgt].
    + destruct (IH (n - units c)) as (first & rest & -> & Hcut).
      exists (String c first), rest. split; [done|].
      destruct Hcut as [->|(c' & rest' & -> & Hc' & Hlen & ->)]; [by left|].
      right. exists c', rest'. split; [done|]. split; [done|].
      split; [cbn [length16]; lia|done].
    + exists "", (String c s). split; [done|].
      destruct (Nat.eqb_spec n 1) as [->|Hn]; [|by left].
      right. exists c, s. split; [done|]. split; [lia|]. split; done.
Qed.

(** X14.  The summary of a report has at most 503 UTF-16 code units: it is
    the fixed sentence when there is no analysis text, the whole text when
    that has at most 500 code units, and otherwise the first 500 code units
    of the text followed by three dots -- a prefix of the text, ending with
    the high half of a surrogate pair when a pair straddles the cut. *)
Theorem summary_truncation (auditMessages : list BaseMessage) :
  let text := analysisTextOf auditMessages in
  let s := summary (parseSecurityAnalysis auditMessages) in
  length16 s <= 503
  /\ (text = "" ->
      s = "Security audit completed with no specific issues identified.")
  /\ (text ≠ "" -> length16 text <= 500 -> s = text)
  /\ (500 < length16 text ->
      s = substring0 500 text +:+ "..."
      /\ length16 s = 503
      /\ exists first rest,
           text = first +:+ rest
           /\ (substring0 500 text = first /\ length16 first = 500
               \/ exists c rest',
                    rest = String c rest' /\ units c = 2 /\ length16 first = 499
                    /\ substring0 500 text = first +:+ highSurrogate c rest')).
Proof.
  intros text s. subst s. cbn [summary parseSecurityAnalysis]. fold text.
  unfold summaryOf.
  destruct (Nat.ltb_spec 500 (length16 text)) as [Hlong|Hshort].
  - assert (Hcut : length16 (substring0 500 text) = 500)
      by (rewrite substring0_length; lia).
    assert (Hsum : length16 (substring0 500 text +:+ "...") = 503)
      by (rewrite length16_app, Hcut; reflexivity).
    split; [lia|]. split; [intros E; rewrite E in Hlong; simpl in Hlong; lia|].
    split; [intros _ ?; lia|]. intros _. split; [done|]. split; [done|].
    destruct (substring0_prefix 500 text) as (first & rest & E & Hcase).
    exists first, rest. split; [done|].
    destruct Hcase as [Hfirst|(c & rest' & Hrest & Hc & Hlen & Hsub)].
    + left. split; [done|]. by rewrite <- Hfirst.
    + right. exists c, rest'. split; [done|]. split; [done|]. split; [lia|done].
  - destruct text as [|c text'] eqn:Etext.
    + split; [vm_compute; lia|]. split; [done|]. split; [done|].
      intros H. simpl in H. lia.
    + change (0 <? String.length (String c text')) with true. cbv iota.
      split; [lia|]. split; [done|]. split; [done|]. intros ?. lia.
Qed.

End SummaryFacts.
(* ===================================================================== *)
(** * Security-audit pipeline: paths and fallbacks                        *)
(* ===================================================================== *)

Section AuditPaths.
Import Audit.

Lemma scan_message {St} (o : Oracle) (n : nat) (s : St)
    (state : SecurityAuditorGraphState) :
  exists scanned msg,
    result (runFrom o n s (scanCodeChanges state)) = Returned (scanResult scanned msg)
    /\ msg_type msg = AIType /\ tool_calls msg = [].
Proof.
  unfold scanCodeChanges, getCodeChanges. simpl.
  repeat (case_match; simpl); eauto 6.
Qed.

(** X15.  A run of the audit graph takes one of two paths: it stops in
    Initialize on a collaborator failure, or it goes through Initialize, Scan
    and Finalize and ends with a report and five more audit messages than it
    started with.  The message Scan returns never carries tool calls, so the
    routing function never chooses the recommendations node. *)
Theorem workflow_paths (o : Oracle) (state : SecurityAuditorGraphState) :
  let r := run o () (workflow state) in
  (generate_security_recommendations ∉ visited (result r))
  /\ ((visited (result r) = [initialize_security_audit]
       /\ finished (result r) = Failed CollaboratorFailure)
      \/ (visited (result r)
          = [initialize_security_audit; scan_code_changes; finalize_security_report]
          /\ exists st,
               finished (result r) = Returned st
               /\ is_Some (securityReport st)
               /\ length (auditMessages st) = length (auditMessages state) + 5)).
Proof.
  intros r. subst r.
  unfold run, workflow, mbind, Prog_bind.
  rewrite runFrom_bind. cbv zeta. rewrite runFrom_step. cbv zeta.
  cbn [result final trace].
  destruct (initialize_shape o 0 () state) as [[Hf|(bb & cf & tree & deps & E)] _].
  { rewrite Hf. cbn. split; [|by left].
    intros Hin. apply elem_of_cons in Hin as [Hin|Hin]; [discriminate|].
    by apply elem_of_nil in Hin. }
  rewrite E. cbv beta iota.
  unfold afterInitialize, mbind, Prog_bind.
  rewrite runFrom_bind. cbv zeta. rewrite runFrom_step. cbv zeta.
  cbn [result final trace].
  match goal with
  |- context [result (runFrom ?o' ?n' ?s' (scanCodeChanges ?st))] =>
    destruct (scan_message o' n' s' st) as (scanned & msg & Escan & Hai & Hcalls)
  end.
  rewrite Escan. cbv beta iota.
  unfold afterScan. rewrite route_after_scan, Hcalls. rewrite andb_false_r.
  rewrite runFrom_finalizeFrom. cbn [result visited finished].
  split.
  { intros Hin. simpl in Hin.
    repeat (apply elem_of_cons in Hin as [Hin|Hin]; [discriminate|]).
    by apply elem_of_nil in Hin. }
  right. split; [done|]. eexists. split; [reflexivity|].
  split; [by eexists|].
  simpl. unfold messagesStateReducer. rewrite !length_app. simpl. lia.
Qed.


(** How a run of Initialize unfolds once the sandbox is there: the base
    branch comes from the target repository or from the lookup command, and
    the diff is attempted only for a non-empty base branch name. *)
Lemma initialize_cases {St} (o : Oracle) (n : nat) (s : St)
    (state : SecurityAuditorGraphState) tree deps :
  o n GetSandbox = SandboxReply tree deps ->
  let r := runFrom o n s (initializeSecurityAudit state) in
  exists bb cf pre,
    result r = Returned
      {| u_baseBranchName := Some bb; u_changedFiles := Some cf;
         u_scannedFiles := Some "";
         u_auditMessages := createSecurityAuditStartedMessage;
         u_securityReport := None; u_codebaseTree := truthy tree;
         u_dependenciesInstalled := deps |}
    /\ ((truthy (branch (targetRepository state)) = Some bb /\ pre = [])
        \/ (truthy (branch (targetRepository state)) = None
            /\ bb = baseBranchFrom (o (S n) (ExecuteCommand "git config init.defaultBranch" 30))
            /\ pre = [(s, ExecuteCommand "git config init.defaultBranch" 30)]))
    /\ ((bb = "" /\ cf = "" /\ trace r = (s, GetSandbox) :: pre)
        \/ (bb ≠ ""
            /\ cf = changedFilesFrom
                      (o (S n + length pre) (ExecuteCommand (changedFilesCommand bb) 30))
            /\ trace r = (s, GetSandbox) :: pre
                          ++ [(s, ExecuteCommand (changedFilesCommand bb) 30)])).
Proof.
  intros Hsandbox r. subst r.
  unfold initializeSecurityAudit. cbn [runFrom]. rewrite Hsandbox.
  unfold mbind, Prog_bind.
  assert (forall m bb (k : string -> Prog St (Outcome SecurityAuditorGraphUpdate)),
            (forall cf, k cf = Ret (Returned
               {| u_baseBranchName := Some bb; u_changedFiles := Some cf;
                  u_scannedFiles := Some "";
                  u_auditMessages := createSecurityAuditStartedMessage;
                  u_securityReport := None; u_codebaseTree := truthy tree;
                  u_dependenciesInstalled := deps |})) ->
            let r := runFrom o m s
                       (bind (if bool_decide (bb = "") then Ret ""
                              else getChangedFiles bb) k) in
            exists cf,
              result r = Returned
                {| u_baseBranchName := Some bb; u_changedFiles := Some cf;
                   u_scannedFiles := Some "";
                   u_auditMessages := createSecurityAuditStartedMessage;
                   u_securityReport := None; u_codebaseTree := truthy tree;
                   u_dependenciesInstalled := deps |}
              /\ ((bb = "" /\ cf = "" /\ trace r = [])
                  \/ (bb ≠ ""
                      /\ cf = changedFilesFrom
                                (o m (ExecuteCommand (changedFilesCommand bb) 30))
                      /\ trace r = [(s, ExecuteCommand (changedFilesCommand bb) 30)])))
    as Hdiff.
  { intros m bb k Hk r. subst r.
    destruct (decide (bb = "")) as [->|Hne].
    - rewrite bool_decide_true by done. cbn [bind runFrom]. rewrite Hk.
      exists "". split; [done|]. by left.
    - rewrite bool_decide_false by done. unfold getChangedFiles. cbn [bind runFrom].
      set (reply := o m (ExecuteCommand (changedFilesCommand bb) 30)).
      exists (changedFilesFrom reply). split.
      + unfold changedFilesFrom. destruct reply; cbn [bind runFrom result];
          try (by rewrite Hk).
        destruct (bool_decide _); cbn [bind runFrom result]; by rewrite Hk.
      + right. split; [done|]. split; [done|].
        destruct reply; cbn [bind runFrom trace]; try (by rewrite Hk).
        destruct (bool_decide _); cbn [bind runFrom trace]; by rewrite Hk. }
  destruct (truthy (branch (targetRepository state))) as [b|] eqn:Eb.
  - cbn [bind]. edestruct (Hdiff (S n) b) as (cf & Hres & Htr);
      [intros cf; reflexivity|].
    exists b, cf, []. cbn [result trace runFrom]. split; [exact Hres|].
    split; [by left|].
    destruct Htr as [(-> & -> & Ht)|(Hne & -> & Ht)]; [left|right];
      rewrite Ht; [done|].
    replace (S n + length (@nil (St * Call))) with (S n) by (simpl; lia). done.
  - unfold getBaseBranchName. cbn [bind runFrom].
    set (reply := o (S n) (ExecuteCommand "git config init.defaultBranch" 30)).
    set (bb := baseBranchFrom reply).
    assert (forall (k : string -> Prog St (Outcome SecurityAuditorGraphUpdate)),
              bind (match reply with
                    | CommandReply exitCode result0 =>
                        if bool_decide (exitCode ≠ 0%Z) then Ret "main"
                        else Ret (Text.trim result0)
                    | _ => Ret "main"
                    end) k = k bb) as Hbb.
    { intros k. subst bb. unfold baseBranchFrom.
      destruct reply; try done. by destruct (bool_decide _). }
    rewrite Hbb.
    edestruct (Hdiff (S (S n)) bb) as (cf & Hres & Htr);
      [intros cf; reflexivity|].
    exists bb, cf, [(s, ExecuteCommand "git config init.defaultBranch" 30)].
    cbn [result trace]. split; [exact Hres|]. split; [by right|].
    destruct Htr as [(E & -> & Ht)|(Hne & -> & Ht)]; [left|right];
      rewrite Ht; [done|].
    replace (S n + length [(s, ExecuteCommand "git config init.defaultBranch" 30)])
      with (S (S n)) by (simpl; lia).
    done.
Qed.


Lemma initialize_returned (o : Oracle) (state : SecurityAuditorGraphState) u :
  result (run o () (initializeSecurityAudit state)) = Returned u ->
  exists tree deps, o 0 GetSandbox = SandboxReply tree deps.
Proof.
  unfold run, initializeSecurityAudit. cbn [runFrom].
  destruct (o 0 GetSandbox); cbn; try discriminate. eauto.
Qed.

Lemma changedFilesCommand_is_diff (bb : string) :
  changedFilesCommand bb ≠ "git config init.defaultBranch".
Proof. unfold changedFilesCommand. intros E. discriminate E. Qed.

Lemma truthy_nonempty (s : option string) (b : string) : truthy s = Some b -> b ≠ "".
Proof.
  unfold truthy. destruct s as [t|]; [|done].
  destruct (decide (t = "")) as [->|Hne].
  - by rewrite bool_decide_true.
  - rewrite bool_decide_false by done. by intros [= <-].
Qed.

(** X16.  When Initialize returns: a branch named by the target repository
    is the base branch and the lookup command is not issued; without one, a
    failed lookup (non-zero exit or an exception) gives the base branch
    "main"; an empty base branch name -- a lookup that succeeds with blank
    output -- gives the empty changed-files string without any diff command;
    and changedFiles is always present, scannedFiles always the empty
    string. *)
Theorem initialize_base_branch (o : Oracle) (state : SecurityAuditorGraphState) u :
  let r := run o () (initializeSecurityAudit state) in
  result r = Returned u ->
  (forall b, truthy (branch (targetRepository state)) = Some b ->
     u_baseBranchName u = Some b
     /\ ExecuteCommand "git config init.defaultBranch" 30 ∉ (trace r).*2)
  /\ (truthy (branch (targetRepository state)) = None ->
      commandFailed (o 1 (ExecuteCommand "git config init.defaultBranch" 30)) ->
      u_baseBranchName u = Some "main")
  /\ (u_baseBranchName u = Some "" ->
      u_changedFiles u = Some ""
      /\ forall bb, ExecuteCommand (changedFilesCommand bb) 30 ∉ (trace r).*2)
  /\ u_scannedFiles u = Some ""
  /\ is_Some (u_changedFiles u).
Proof.
  intros r Hres. destruct (initialize_returned o state u Hres) as (tree & deps & Hsb).
  destruct (initialize_cases o 0 () state tree deps Hsb)
    as (bb & cf & pre & Hr & Hbase & Hdiff).
  subst r. unfold run in *. cbv zeta in Hr, Hdiff.
  rewrite Hr in Hres. injection Hres as <-. cbn [u_baseBranchName u_changedFiles u_scannedFiles].
  split; [|split; [|split; [|split; [done|by eexists]]]].
  - intros b Hb. destruct Hbase as [[Hbb ->]|[Hnone _]]; [|congruence].
    split; [congruence|].
    destruct Hdiff as [(_ & _ & ->)|(_ & _ & ->)]; cbn; intros Hin.
    + apply elem_of_cons in Hin as [Hin|Hin]; [discriminate|]. by apply elem_of_nil in Hin.
    + apply elem_of_cons in Hin as [Hin|Hin]; [discriminate|].
      apply elem_of_cons in Hin as [Hin|Hin]; [|by apply elem_of_nil in Hin].
      apply (changedFilesCommand_is_diff b). congruence.
  - intros Hnone Hfail. destruct Hbase as [[Hbb _]|(_ & -> & _)]; [congruence|].
    f_equal. unfold baseBranchFrom.
    destruct (o 1 (ExecuteCommand "git config init.defaultBranch" 30)); try done.
    simpl in Hfail. by rewrite bool_decide_true.
  - intros [= ->]. destruct Hdiff as [(_ & -> & Ht)|(Hne & _)]; [|done].
    split; [done|]. intros bb' Hin. rewrite Ht in Hin.
    destruct Hbase as [[_ ->]|(_ & _ & ->)]; cbn in Hin.
    + apply elem_of_cons in Hin as [Hin|Hin]; [discriminate|]. by apply elem_of_nil in Hin.
    + apply elem_of_cons in Hin as [Hin|Hin]; [discriminate|].
      apply elem_of_cons in Hin as [Hin|Hin]; [|by apply elem_of_nil in Hin].
      done.
Qed.


Lemma initialize_base_branch_witness :
  exists u, result (run sampleOracle () (initializeSecurityAudit sampleState)) = Returned u
            /\ u_baseBranchName u = Some "main" /\ u_scannedFiles u = Some "".
Proof.
  eexists. split; [reflexivity|].
  destruct (initialize_base_branch sampleOracle sampleState _ eq_refl)
    as (Hgiven & _ & _ & Hscanned & _).
  split; [|exact Hscanned]. exact (proj1 (Hgiven "main" eq_refl)).
Defined.

Lemma changedFilesFrom_failed (reply : Reply) :
  commandFailed reply -> changedFilesFrom reply = "Failed to get changed files.".
Proof.
  destruct reply; try done. simpl. intros Hne. by rewrite bool_decide_true.
Qed.

Lemma scan_with_files {St} (o : Oracle) (n : nat) (s : St)
    (state : SecurityAuditorGraphState) :
  noChangedFiles state = false ->
  let r := runFrom o n s (scanCodeChanges state) in
  (exists msg, result r = Returned (scanResult (changedFiles state) msg))
  /\ LoadModel PROGRAMMER ∈ (trace r).*2.
Proof.
  intros Hfiles r. subst r. unfold scanCodeChanges. rewrite Hfiles.
  unfold getCodeChanges, mbind, Prog_bind. simpl.
  repeat (case_match; simpl); (split; [by eexists|]); set_solver.
Qed.

(** X17.  A failed changed-files retrieval is not treated as "no changes":
    when Initialize returns with a non-empty base branch name and the diff
    command fails whenever it is issued, Scan on the merged state does load
    the programmer model, and records the failure sentence both as
    changedFiles and as scannedFiles. *)
Theorem failed_retrieval_is_scanned {St} (o o' : Oracle) (n : nat) (s : St)
    (state : SecurityAuditorGraphState) u :
  result (run o () (initializeSecurityAudit state)) = Returned u ->
  u_baseBranchName u ≠ Some "" ->
  (forall i bb, commandFailed (o i (ExecuteCommand (changedFilesCommand bb) 30))) ->
  let state' := applyUpdate state u in
  let r := runFrom o' n s (scanCodeChanges state') in
  changedFiles state' = Some "Failed to get changed files."
  /\ (exists msg,
        result r = Returned (scanResult (Some "Failed to get changed files.") msg))
  /\ LoadModel PROGRAMMER ∈ (trace r).*2.
Proof.
  intros Hres Hbb Hfail state' r.
  destruct (initialize_returned o state u Hres) as (tree & deps & Hsb).
  destruct (initialize_cases o 0 () state tree deps Hsb)
    as (bb & cf & pre & Hr & _ & Hdiff).
  unfold run in Hres. cbv zeta in Hr, Hdiff. rewrite Hr in Hres. injection Hres as <-.
  destruct Hdiff as [(-> & _)|(_ & Hcf & _)]; [done|].
  rewrite changedFilesFrom_failed in Hcf by apply Hfail. subst cf.
  assert (Hfiles : changedFiles state' = Some "Failed to get changed files.") by done.
  split; [done|]. rewrite <- Hfiles. apply scan_with_files.
  unfold noChangedFiles. rewrite Hfiles. reflexivity.
Qed.

Lemma failed_retrieval_is_scanned_witness :
  exists u,
    result (run failingDiff () (initializeSecurityAudit sampleState)) = Returned u
    /\ changedFiles (applyUpdate sampleState u) = Some "Failed to get changed files."
    /\ LoadModel PROGRAMMER
         ∈ (trace (run sampleOracle () (scanCodeChanges (applyUpdate sampleState u)))).*2.
Proof.
  eexists. split; [reflexivity|].
  assert (Hbb : Some "main" ≠ Some "") by discriminate.
  assert (Hfail : forall i bb,
            commandFailed (failingDiff i (ExecuteCommand (changedFilesCommand bb) 30)))
    by (intros i bb; simpl; discriminate).
  destruct (failed_retrieval_is_scanned failingDiff sampleOracle 0 () sampleState _
              eq_refl Hbb Hfail) as (Hfiles & _ & Hmodel).
  split; [exact Hfiles|exact Hmodel].
Defined.

End AuditPaths.

(* ===================================================================== *)
(** * Error-pattern analysis                                              *)
(* ===================================================================== *)

Section ErrorAnalysisFacts.
Import Text ErrorAnalysis.

Lemma includes_inner (s a k b : string) :
  includes s (a +:+ k +:+ b) = true -> includes s k = true.
Proof.
  rewrite !includes_spec. intros (pre & post & ->).
  exists (pre +:+ a), (b +:+ post). by rewrite !string_app_assoc.
Qed.

(** X18.  The category "command_not_found" is given only to a text that
    contains "not recognized": a text containing "command not found" also
    contains "not found", which is tested earlier, and is categorised as a
    missing file, or as a syntax error. *)
Theorem command_not_found_needs_not_recognized (content : string) :
  (errorTypeOf content = "command_not_found" ->
   includes content "not recognized" = true
   /\ includes content "command not found" = false)
  /\ (includes content "command not found" = true ->
      errorTypeOf content = "syntax_error" \/ errorTypeOf content = "file_not_found").
Proof.
  unfold errorTypeOf.
  destruct (includes content "command not found") eqn:Ecnf.
  - rewrite (includes_inner content "command " "not found" "" Ecnf).
    destruct (includes content "syntax error" || includes content "SyntaxError").
    + split; [discriminate|]. by left.
    + split; [discriminate|]. by right.
  - split; [|discriminate].
    repeat (case_match; try discriminate).
    rewrite orb_false_l in *. by intros _.
Qed.

Lemma command_not_found_needs_not_recognized_witness :
  includes "'tsc' is not recognized as an internal or external command"
           "not recognized" = true
  /\ includes "'tsc' is not recognized as an internal or external command"
              "command not found" = false.
Proof.
  apply (proj1 (command_not_found_needs_not_recognized
                  "'tsc' is not recognized as an internal or external command")).
  reflexivity.
Defined.

Lemma orElse_nonempty (x : option string) : default "unknown" (orElse x None) ≠ "".
Proof.
  destruct x as [s|]; simpl; [|done].
  destruct (decide (s = "")) as [->|Hne].
  - by rewrite bool_decide_true.
  - by rewrite bool_decide_false.
Qed.

Lemma commandOf_nonempty (content : string) (name : option string) :
  commandOf content name ≠ "".
Proof. unfold commandOf. apply orElse_nonempty. Qed.

Lemma span_all (p : ascii -> bool) (s : string) :
  allChars p s = true -> span p s = (s, "").
Proof.
  induction s as [|c s IH]; [done|]. cbn [allChars span].
  intros [Hc Hs]%andb_true_iff. by rewrite Hc, IH.
Qed.

Lemma backticked_none (s : string) :
  allChars (fun c => negb (isBacktick c)) s = true -> backticked s = None.
Proof.
  induction s as [|c s IH]; [done|]. cbn [allChars backticked].
  intros [Hc Hs]%andb_true_iff. apply negb_true_iff in Hc. rewrite Hc. auto.
Qed.

(** A character that matches a letter of the label under [/i] has the same
    lower-case form. *)
Lemma label_char (a b : ascii) :
  a ∈ list_ascii_of_string "Command:" ->
  toUpperChar a = toUpperChar b <-> toLowerChar b = toLowerChar a.
Proof.
  intros Ha. simpl in Ha.
  repeat (apply elem_of_cons in Ha as [->|Ha]);
    [..|by apply elem_of_nil in Ha];
    destruct b as [[] [] [] [] [] [] [] []]; vm_compute; split; congruence.
Qed.

Lemma afterPrefixCI_lower (k s t : string) :
  (forall a, a ∈ list_ascii_of_string k -> a ∈ list_ascii_of_string "Command:") ->
  afterPrefixCI k s = Some t ->
  exists p, s = p +:+ t /\ toLowerCase p = toLowerCase k.
Proof.
  revert s. induction k as [|a k IH]; intros s Hk E.
  - simpl in E. injection E as ->. by exists "".
  - destruct s as [|b s]; [done|]. cbn [afterPrefixCI] in E.
    case_bool_decide as Hab; [|done].
    apply label_char in Hab; [|apply Hk; simpl; left].
    destruct (IH s) as (p & -> & Hp); [|done|].
    { intros a' Ha'. apply Hk. simpl. by right. }
    exists (String b p). split; [done|]. simpl. by rewrite Hab, Hp.
Qed.

Lemma afterPrefixCI_matches (k p t : string) :
  (forall a, a ∈ list_ascii_of_string k -> a ∈ list_ascii_of_string "Command:") ->
  toLowerCase p = toLowerCase k ->
  afterPrefixCI k (p +:+ t) = Some t.
Proof.
  revert p. induction k as [|a k IH]; intros p Hk E.
  - destruct p; [done|discriminate].
  - destruct p as [|b p]; [discriminate|]. simpl in E. injection E as Hb Hp.
    rewrite string_app_cons. cbn [afterPrefixCI].
    rewrite bool_decide_true.
    + apply IH; [|done]. intros a' Ha'. apply Hk. simpl. by right.
    + apply label_char; [apply Hk; simpl; left|done].
Qed.

Lemma commandLine_none (s : string) :
  includes (toLowerCase s) "command:" = false -> commandLine s = None.
Proof.
  induction s as [|c s IH]; [done|]. intros Hinc.
  change (toLowerCase (String c s)) with (String (toLowerChar c) (toLowerCase s)) in Hinc.
  change (includes (String (toLowerChar c) (toLowerCase s)) "command:")
    with (startsWith "command:" (String (toLowerChar c) (toLowerCase s))
          || includes (toLowerCase s) "command:") in Hinc.
  apply orb_false_iff in Hinc as [Hstart Hrest].
  cbn [commandLine].
  destruct (afterPrefixCI "Command:" (String c s)) as [t|] eqn:E; [|auto].
  apply afterPrefixCI_lower in E as (p & Hp & Hlow); [|done].
  exfalso. apply not_true_iff_false in Hstart. apply Hstart.
  apply startsWith_spec. exists (toLowerCase t).
  change (String (toLowerChar c) (toLowerCase s)) with (toLowerCase (String c s)).
  by rewrite Hp, toLowerCase_append, Hlow.
Qed.

(** X19.  A failure text with no [Command:] label and no backtick is
    filed under the tool name: trimmed when that leaves something, as it is
    when it is blank but not empty, and under "unknown" when the name is
    absent or empty. *)
Theorem command_falls_back_to_tool_name (content : string) (name : option string) :
  unlabelled content ->
  commandOf content name
  = match name with
    | None => "unknown"
    | Some n =>
        if bool_decide (trim n = "")
        then (if bool_decide (n = "") then "unknown" else n)
        else trim n
    end.
Proof.
  intros [Hlabel Htick]. unfold commandOf.
  rewrite (commandLine_none _ Hlabel), (backticked_none _ Htick).
  destruct name as [n|]; [|done]. cbn [fmap option_fmap option_map orElse].
  case_bool_decide as Ht; cbn [orElse].
  - by case_bool_decide.
  - by rewrite bool_decide_false.
Qed.

Lemma command_falls_back_to_tool_name_witness :
  commandOf "exit status 1" (Some " shell ") = "shell".
Proof.
  apply (command_falls_back_to_tool_name "exit status 1" (Some " shell ")).
  split; reflexivity.
Defined.

Lemma span_line (body tail : string) :
  allChars (fun c => negb (isLineTerminator c)) body = true ->
  (tail = "" \/ exists t, tail = nl +:+ t) ->
  span (fun c => negb (isLineTerminator c)) (body +:+ tail) = (body, tail).
Proof.
  intros Hbody Htail. induction body as [|c body IH].
  - change ("" +:+ tail) with tail. destruct Htail as [->|[t ->]]; reflexivity.
  - cbn [allChars] in Hbody. apply andb_true_iff in Hbody as [Hc Hbody].
    rewrite string_app_cons. cbn [span]. by rewrite Hc, IH.
Qed.

Lemma afterSpaces_line (body tail : string) :
  allChars (fun c => negb (isLineTerminator c)) body = true ->
  trimStart body ≠ "" ->
  (tail = "" \/ exists t, tail = nl +:+ t) ->
  afterSpaces (body +:+ tail) = Some (trimStart body).
Proof.
  intros Hbody Hne Htail. induction body as [|c body IH]; [done|].
  pose proof (span_line _ _ Hbody Htail) as Hspan.
  cbn [allChars] in Hbody. apply andb_true_iff in Hbody as [Hc Hbody].
  rewrite string_app_cons in *. cbn [afterSpaces].
  unfold trimStart in *. cbn [dropWhile] in *.
  destruct (isSpace c) eqn:Esp.
  - by rewrite IH.
  - unfold captureLine. rewrite Hspan.
    destruct Htail as [->|[t ->]]; reflexivity.
Qed.

(** X20.  A failure text that begins with the label [Command:] (in any
    letter case), followed on the same line by a text that is not blank, is
    filed under that text, trimmed; the tool name is not consulted. *)
Theorem command_line_extracted (label body tail : string) (name : option string) :
  toLowerCase label = "command:" ->
  allChars (fun c => negb (isLineTerminator c)) body = true ->
  trim body ≠ "" ->
  (tail = "" \/ exists t, tail = nl +:+ t) ->
  commandOf (label +:+ body +:+ tail) name = trim body.
Proof.
  intros Hlabel Hbody Hne Htail.
  assert (Hstart : trimStart body ≠ "").
  { intros E. apply Hne. unfold trim. by rewrite E. }
  unfold commandOf.
  assert (Hcmd : commandLine (label +:+ body +:+ tail) = Some (trimStart body)).
  { destruct label as [|c label]; [discriminate|]. rewrite string_app_cons.
    cbn [commandLine]. rewrite <- string_app_cons.
    rewrite afterPrefixCI_matches by done.
    by rewrite afterSpaces_line. }
  rewrite Hcmd. cbn [fmap option_fmap option_map orElse].
  replace (trim (trimStart body)) with (trim body)
    by (unfold trim; by rewrite trimStart_idempotent).
  rewrite bool_decide_false by done. cbn [orElse].
  by rewrite bool_decide_false.
Qed.

Lemma command_line_extracted_witness :
  commandOf ("COMMAND:" +:+ " yarn build " +:+ (nl +:+ "exit status 1")) (Some "shell")
  = trim " yarn build ".
Proof.
  apply (command_line_extracted "COMMAND:" " yarn build " (nl +:+ "exit status 1")).
  - reflexivity.
  - reflexivity.
  - vm_compute. discriminate.
  - right. by eexists.
Defined.

End ErrorAnalysisFacts.

Section MapFacts.
Import ErrorAnalysis.
Context {V : Type}.
Implicit Types (m : list (string * V)) (k : string) (v : V).

Lemma mapGet_elem k v m : mapGet k m = Some v -> (k, v) ∈ m.
Proof.
  induction m as [|[k' v'] m IH]; [done|]. cbn [mapGet].
  case_bool_decide as Hk.
  - intros [= ->]. subst. apply elem_of_cons. by left.
  - intros Hget. apply elem_of_cons. right. auto.
Qed.

Lemma mapGet_none k m : mapGet k m = None <-> k ∉ m.*1.
Proof.
  induction m as [|[k' v'] m IH].
  - split; [intros _ Hin; by apply elem_of_nil in Hin|done].
  - cbn [mapGet fmap list_fmap fst]. rewrite not_elem_of_cons.
    case_bool_decide as Hk.
    + split; [done|]. intros [Hne _]. by destruct Hne.
    + rewrite IH. split; [intros Hin; split; [congruence|done]|by intros [_ ?]].
Qed.

Lemma mapSet_keys k v m :
  (mapSet k v m).*1 = if decide (k ∈ m.*1) then m.*1 else m.*1 ++ [k].
Proof.
  induction m as [|[k' v'] m IH].
  - cbn. destruct (decide (k ∈ [])) as [Hin|_]; [by apply elem_of_nil in Hin|done].
  - cbn [mapSet]. case_bool_decide as Hk.
    + subst k'. cbn. rewrite decide_True; [done|]. apply elem_of_cons. by left.
    + cbn [fmap list_fmap fst] in *. rewrite IH.
      destruct (decide (k ∈ m.*1)) as [Hin|Hout].
      * rewrite decide_True; [done|]. apply elem_of_cons. by right.
      * rewrite decide_False; [done|]. rewrite not_elem_of_cons.
        split; [congruence|done].
Qed.

Lemma mapSet_NoDup k v m : NoDup m.*1 -> NoDup (mapSet k v m).*1.
Proof.
  intros Hnd. rewrite mapSet_keys. destruct (decide (k ∈ m.*1)); [done|].
  apply NoDup_app. split; [done|]. split; [|apply NoDup_singleton].
  intros x Hx Hk. apply list_elem_of_singleton in Hk. by subst.
Qed.

Lemma mapSet_elem k v m k' v' :
  NoDup m.*1 ->
  (k', v') ∈ mapSet k v m <-> (k' = k /\ v' = v) \/ (k' ≠ k /\ (k', v') ∈ m).
Proof.
  induction m as [|[k0 v0] m IH]; intros Hnd.
  - cbn. rewrite list_elem_of_singleton. split.
    + intros [= -> ->]. by left.
    + intros [[-> ->]|[_ Hin]]; [done|by apply elem_of_nil in Hin].
  - cbn [fmap list_fmap fst] in Hnd. apply NoDup_cons in Hnd as [Hk0 Hnd].
    cbn [mapSet]. case_bool_decide as Hk.
    + subst k0. rewrite !elem_of_cons. split.
      * intros [[= -> ->]|Hin]; [by left|]. right. split; [|by right].
        intros ->. apply Hk0. apply list_elem_of_fmap. by exists (k, v').
      * intros [[-> ->]|[Hne [[= ? ?]|Hin]]]; [by left|congruence|by right].
    + rewrite !elem_of_cons, IH by done. split.
      * intros [[= -> ->]|[[-> ->]|[Hne Hin]]].
        -- right. split; [done|by left].
        -- by left.
        -- right. split; [done|by right].
      * intros [[-> ->]|[Hne [[= -> ->]|Hin]]].
        -- right. by left.
        -- by left.
        -- right. right. by split.
Qed.

End MapFacts.

Section TallyFacts.
Import ErrorAnalysis.
Context {M : Type} `{MessageLike M} (getMessageContentString : M -> string).

#[local] Abbreviation failureOf := (failureOf getMessageContentString).
#[local] Abbreviation failuresOf := (failuresOf getMessageContentString).
#[local] Abbreviation recorded := (recorded getMessageContentString).
#[local] Abbreviation tallies := (tallies getMessageContentString).
#[local] Abbreviation lastFailureAt := (lastFailureAt getMessageContentString).

Lemma failuresOf_snoc (type : string) (done : list M) (m : M) :
  failuresOf type (done ++ [m])
  = failuresOf type done ++ (if decide (failureOf type m) then [m] else []).
Proof.
  unfold failuresOf. by rewrite filter_app.
Qed.

Lemma lastFailureAt_skip (type : string) (done : list M) (m : M) (i : nat) :
  ~ failureOf type m -> lastFailureAt type done i -> lastFailureAt type (done ++ [m]) i.
Proof.
  intros Hm [(m0 & Hlook & Hm0) Hlater]. split.
  - exists m0. split; [|done]. by apply lookup_app_l_Some.
  - intros j m' Hj Hlook'. apply lookup_app_Some in Hlook' as [Hl|[_ Hr]]; [eauto|].
    apply list_lookup_singleton_Some in Hr as [_ <-]. done.
Qed.

Lemma lastFailureAt_new (type : string) (done : list M) (m : M) :
  failureOf type m -> lastFailureAt type (done ++ [m]) (length done).
Proof.
  intros Hm. split.
  - exists m. split; [|done]. by rewrite list_lookup_middle.
  - intros j m' Hj Hlook. apply lookup_lt_Some in Hlook.
    rewrite length_app in Hlook. simpl in Hlook. lia.
Qed.

Lemma tallies_skip (done : list M) (m : M) (t : Tally) :
  failed m = false -> tallies done t -> tallies (done ++ [m]) t.
Proof.
  intros Hm (Hfc & Hnd & Hkeys & Hpat).
  assert (Hno : forall type, ~ failureOf type m).
  { intros type [Hf _]. congruence. }
  assert (Hsame : forall type, failuresOf type (done ++ [m]) = failuresOf type done).
  { intros type. rewrite failuresOf_snoc, decide_False by apply Hno.
    by rewrite app_nil_r. }
  split; [|split; [done|split]].
  - rewrite filter_app, filter_cons_False by congruence.
    by rewrite filter_nil, app_nil_r.
  - intros type. by rewrite Hsame.
  - intros type p Hin. rewrite Hsame.
    destruct (Hpat type p Hin) as (? & ? & ? & ?).
    split; [done|split; [done|split; [done|by apply lastFailureAt_skip]]].
Qed.

Lemma tallies_record (done : list M) (m : M) (t : Tally) :
  failed m = true -> tallies done t ->
  tallies (done ++ [m])
    (recordFailure (length done) (getMessageContentString m) (toolName m) t).
Proof.
  intros Hm (Hfc & Hnd & Hkeys & Hpat).
  set (type0 := errorTypeOf (getMessageContentString m)).
  assert (Hm0 : failureOf type0 m) by done.
  assert (Hother : forall type, type ≠ type0 -> ~ failureOf type m).
  { intros type Hne [_ E]. by apply Hne. }
  unfold recordFailure. fold type0. fold (recorded m).
  split; [|split; [|split]]; cbn [failedCommands errorPatterns].
  - rewrite filter_app, filter_cons_True by done.
    by rewrite filter_nil, fmap_app, Hfc.
  - by apply mapSet_NoDup.
  - intros type. rewrite mapSet_keys, failuresOf_snoc.
    destruct (decide (type = type0)) as [->|Hne].
    + rewrite (decide_True (P := failureOf type0 m)) by done. split.
      * intros _ E. by apply app_nil in E as [_ ?].
      * intros _. destruct (decide (type0 ∈ (errorPatterns t).*1)); [done|].
        apply elem_of_app. right. by apply list_elem_of_singleton.
    + rewrite (decide_False (P := failureOf type m)) by by apply Hother.
      rewrite app_nil_r, <- Hkeys.
      destruct (decide (type0 ∈ (errorPatterns t).*1)); [done|].
      rewrite elem_of_app, list_elem_of_singleton. split; [|by left].
      by intros [?|?].
  - intros type p Hin. apply mapSet_elem in Hin; [|done].
    destruct Hin as [[-> ->]|[Hne Hin]].
    + rewrite failuresOf_snoc, decide_True by done.
      rewrite fmap_app, length_app. cbn [Recovery.errorType Recovery.commands
        Recovery.count Recovery.lastOccurrence length fmap list_fmap].
      destruct (mapGet type0 (errorPatterns t)) as [old|] eqn:Eget;
        cbn [default from_option id].
      * apply mapGet_elem in Eget. destruct (Hpat type0 old Eget) as (-> & -> & -> & _).
        split; [done|split; [done|split; [done|by apply lastFailureAt_new]]].
      * apply mapGet_none in Eget.
        assert (Hnone : failuresOf type0 done = []).
        { destruct (failuresOf type0 done) eqn:E; [done|].
          exfalso. apply Eget, Hkeys. by rewrite E. }
        rewrite Hnone. cbn.
        split; [done|split; [done|split; [done|by apply lastFailureAt_new]]].
    + rewrite failuresOf_snoc, decide_False by by apply Hother. rewrite app_nil_r.
      destruct (Hpat type p Hin) as (? & ? & ? & ?).
      split; [done|split; [done|split; [done|]]].
      apply lastFailureAt_skip; [by apply Hother|done].
Qed.

Lemma analyzeLoop_tallies (rest done : list M) (t : Tally) :
  tallies done t ->
  tallies (done ++ rest) (analyzeLoop getMessageContentString (length done) rest t).
Proof.
  revert done t. induction rest as [|m rest IH]; intros done t Ht.
  - by rewrite app_nil_r.
  - cbn [analyzeLoop]. rewrite (cons_middle m done rest), app_assoc.
    replace (S (length done)) with (length (done ++ [m]))
      by (rewrite length_app; simpl; lia).
    apply IH. destruct (failed m) eqn:Hm.
    + by apply tallies_record.
    + by apply tallies_skip.
Qed.

(** X21.  The tally built by the first loop of analyzeErrorPatterns describes
    the transcript: the failed commands are those of the failed tool messages
    in order; the pattern keys are distinct and are the categories that
    occur; and the pattern of a category holds the commands of its failures
    in order, their number, and the index of the last of them. *)
Theorem analyzeLoop_describes_transcript (messages : list M) :
  tallies messages (analyzeLoop getMessageContentString 0 messages emptyTally).
Proof.
  apply (analyzeLoop_tallies messages [] emptyTally).
  split; [done|]. split; [apply NoDup_nil_2|]. split.
  - intros type. split; [intros Hin; by apply elem_of_nil in Hin|done].
  - intros type p Hin. by apply elem_of_nil in Hin.
Qed.

End TallyFacts.

Section RepetitionFacts.
Import ErrorAnalysis.

Lemma occurrences_snoc (cmd c : string) (l : list string) :
  occurrences cmd (l ++ [c]) = occurrences cmd l + (if decide (c = cmd) then 1 else 0).
Proof.
  unfold occurrences. rewrite filter_app, length_app. f_equal.
  destruct (decide (c = cmd)).
  - by rewrite filter_cons_True.
  - by rewrite filter_cons_False.
Qed.

Lemma commandCounts_snoc (l : list string) (c : string) :
  commandCounts (l ++ [c])
  = mapSet c (default 0 (mapGet c (commandCounts l)) + 1) (commandCounts l).
Proof. unfold commandCounts. by rewrite fold_left_app. Qed.

Lemma commandCounts_spec (l : list string) :
  NoDup (commandCounts l).*1
  /\ forall cmd n, (cmd, n) ∈ commandCounts l <-> n = occurrences cmd l /\ 0 < n.
Proof.
  induction l as [|c l [Hnd IH]] using rev_ind.
  - split; [apply NoDup_nil_2|]. intros cmd n. split.
    + intros Hin. by apply elem_of_nil in Hin.
    + intros [-> Hpos]. unfold occurrences in Hpos. simpl in Hpos. lia.
  - rewrite commandCounts_snoc. split; [by apply mapSet_NoDup|].
    intros cmd n. rewrite mapSet_elem, occurrences_snoc by done.
    assert (Hget : default 0 (mapGet c (commandCounts l)) = occurrences c l).
    { destruct (mapGet c (commandCounts l)) as [k|] eqn:Eget; cbn.
      - apply mapGet_elem, IH in Eget. by destruct Eget.
      - apply mapGet_none in Eget.
        destruct (occurrences c l) as [|k] eqn:Eocc; [done|].
        exfalso. apply Eget. apply list_elem_of_fmap. exists (c, S k).
        split; [done|]. apply IH. split; [done|lia]. }
    rewrite Hget. split.
    + intros [[-> ->]|[Hne [-> Hpos]%IH]].
      * rewrite decide_True by done. lia.
      * rewrite decide_False by done. lia.
    + intros [-> Hpos]. destruct (decide (c = cmd)) as [->|Hne].
      * left. split; [done|lia].
      * right. split; [done|]. apply IH. lia.
Qed.

Lemma insertByCount_perm (x : string * nat) (l : list (string * nat)) :
  insertByCount x l ≡ₚ x :: l.
Proof.
  induction l as [|y l IH]; [done|]. cbn [insertByCount].
  destruct (x.2 <? y.2); [|done]. rewrite IH. apply Permutation_swap.
Qed.

Lemma sortByCount_perm (l : list (string * nat)) : sortByCount l ≡ₚ l.
Proof.
  induction l as [|x l IH]; [done|].
  unfold sortByCount in *. cbn [foldr]. by rewrite insertByCount_perm, IH.
Qed.

Lemma insertByCount_sorted (x : string * nat) (l : list (string * nat)) :
  StronglySorted (fun a b => b.2 <= a.2) l ->
  StronglySorted (fun a b => b.2 <= a.2) (insertByCount x l).
Proof.
  induction 1 as [|y l Hl IH Hy]; cbn [insertByCount].
  - repeat constructor.
  - destruct (x.2 <? y.2) eqn:E.
    + apply Nat.ltb_lt in E. constructor; [done|].
      rewrite insertByCount_perm. constructor; [lia|done].
    + apply Nat.ltb_ge in E. constructor; [by constructor|].
      constructor; [done|]. eapply Forall_impl; [exact Hy|]. simpl. lia.
Qed.

Lemma sortByCount_sorted (l : list (string * nat)) :
  StronglySorted (fun a b => b.2 <= a.2) (sortByCount l).
Proof.
  induction l as [|x l IH]; [constructor|].
  unfold sortByCount in *. cbn [foldr]. by apply insertByCount_sorted.
Qed.

(** X22.  The commands reported as repeated are exactly those that failed
    more than once, each once and with the number of its failures, listed by
    falling number of failures. *)
Theorem repeatedCommands_spec (failedCommands : list string) :
  (forall cmd n,
     (cmd, n) ∈ repeatedCommands failedCommands
     <-> n = occurrences cmd failedCommands /\ 1 < n)
  /\ NoDup (repeatedCommands failedCommands).*1
  /\ StronglySorted (fun a b => b.2 <= a.2) (repeatedCommands failedCommands).
Proof.
  destruct (commandCounts_spec failedCommands) as [Hnd Hspec].
  unfold repeatedCommands. split; [|split].
  - intros cmd n. rewrite sortByCount_perm, list_elem_of_filter, Hspec.
    cbn. lia.
  - rewrite sortByCount_perm.
    apply (sublist_NoDup _ (commandCounts failedCommands).*1); [exact Hnd|].
    apply fmap_sublist, sublist_filter.
  - apply sortByCount_sorted.
Qed.

End RepetitionFacts.

Section AnalysisFacts.
Import Text ErrorAnalysis.
Context {M : Type} `{MessageLike M} (getMessageContentString : M -> string).

Lemma string_app_nil_r (a : string) : a +:+ "" = a.
Proof. induction a as [|x a IH]; [done|]. rewrite string_app_cons. by f_equal. Qed.

Lemma concatMap_from {A} (f : A -> string) (xs : list A) (acc : string) :
  fold_left (fun analysis x => analysis +:+ f x) xs acc = acc +:+ concatMap f xs.
Proof.
  unfold concatMap. revert acc. induction xs as [|x xs IH]; intros acc; cbn [fold_left].
  - symmetry. apply string_app_nil_r.
  - rewrite IH. rewrite (IH ("" +:+ f x)). by rewrite <- string_app_assoc.
Qed.

Lemma concatMap_cons {A} (f : A -> string) (x : A) (xs : list A) :
  concatMap f (x :: xs) = f x +:+ concatMap f xs.
Proof. unfold concatMap at 1. cbn [fold_left]. apply concatMap_from. Qed.

(** X23.  The analysis handed to the recovery prompt is the fixed text
    "no clear error patterns, no repeated commands" exactly when no tool
    message of the transcript failed. *)
Theorem analysis_quiet_iff (messages : list M) :
  analyzeErrorPatterns getMessageContentString messages = quietAnalysis
  <-> filter (fun m => failed m = true) messages = [].
Proof.
  pose proof (analyzeLoop_describes_transcript getMessageContentString messages)
    as (Hfc & _ & Hkeys & _).
  unfold analyzeErrorPatterns, analysisOf.
  destruct (analyzeLoop getMessageContentString 0 messages emptyTally)
    as [patterns commands].
  cbn [errorPatterns failedCommands] in *. split.
  - intros E. destruct patterns as [|[type p] patterns].
    + destruct (filter (fun m => failed m = true) messages) as [|m ms] eqn:Ef; [done|].
      exfalso.
      assert (Hm : m ∈ filter (fun m => failed m = true) messages)
        by (rewrite Ef; apply elem_of_cons; by left).
      apply list_elem_of_filter in Hm as [Hm Hin].
      pose proof (proj2 (Hkeys (errorTypeOf (getMessageContentString m)))) as Hk.
      cbn in Hk. eapply elem_of_nil, Hk. intros Hnone.
      assert (Hf : m ∈ failuresOf getMessageContentString
                         (errorTypeOf (getMessageContentString m)) messages)
        by (apply list_elem_of_filter; by split).
      rewrite Hnone in Hf. by apply elem_of_nil in Hf.
    + exfalso. rewrite concatMap_cons in E. unfold patternLines, quietAnalysis in E.
      repeat rewrite string_app_cons in E. discriminate E.
  - intros Ef. rewrite Ef in Hfc. cbn in Hfc. subst commands.
    destruct patterns as [|[type p] patterns]; [reflexivity|].
    exfalso. pose proof (proj1 (Hkeys type)) as Hk. apply Hk.
    + apply elem_of_cons. by left.
    + unfold failuresOf.
      destruct (filter (failureOf getMessageContentString type) messages)
        as [|m ms] eqn:E; [done|].
      assert (Hm : m ∈ filter (failureOf getMessageContentString type) messages)
        by (rewrite E; apply elem_of_cons; by left).
      apply list_elem_of_filter in Hm as [[Hm _] Hin].
      assert (Hf : m ∈ filter (fun m => failed m = true) messages)
        by (apply list_elem_of_filter; by split).
      rewrite Ef in Hf. by apply elem_of_nil in Hf.
Qed.

End AnalysisFacts.

(* ===================================================================== *)
(** * Security-audit pipeline: what the report is made of                 *)
(* ===================================================================== *)

Section AuditReportFacts.
Import Text Report Audit.

(** The state a finished run ends in: the report is synthesized from the
    audit messages present before Finalize, and Finalize's two messages
    follow them. *)
Lemma workflow_transcript (o : Oracle) (state st : SecurityAuditorGraphState) :
  finished (result (run o () (workflow state))) = Returned st ->
  exists msg,
    tool_calls msg = []
    /\ securityReport st
       = Some (parseSecurityAnalysis
                 (auditMessages state ++ createSecurityAuditStartedMessage ++ [msg]))
    /\ auditMessages st
       = (auditMessages state ++ createSecurityAuditStartedMessage ++ [msg])
         ++ createSecurityCompletedMessage
              (parseSecurityAnalysis
                 (auditMessages state ++ createSecurityAuditStartedMessage ++ [msg])).
Proof.
  unfold run, workflow, mbind, Prog_bind.
  rewrite runFrom_bind. cbv zeta. rewrite runFrom_step. cbv zeta.
  cbn [result final trace].
  destruct (initialize_shape o 0 () state) as [[Hf|(bb & cf & tree & deps & E)] _].
  { rewrite Hf. cbn. discriminate. }
  rewrite E. cbv beta iota.
  unfold afterInitialize, mbind, Prog_bind.
  rewrite runFrom_bind. cbv zeta. rewrite runFrom_step. cbv zeta.
  cbn [result final trace].
  match goal with
  |- context [result (runFrom ?o' ?n' ?s' (scanCodeChanges ?st))] =>
    destruct (scan_message o' n' s' st) as (scanned & msg & Escan & Hai & Hcalls)
  end.
  rewrite Escan. cbv beta iota.
  unfold afterScan. rewrite route_after_scan, Hcalls. rewrite andb_false_r.
  rewrite runFrom_finalizeFrom. cbn [result visited finished].
  intros [= <-]. exists msg. split; [done|].
  cbn [securityReport auditMessages applyUpdate replaceWith u_securityReport
       u_auditMessages scanResult].
  unfold messagesStateReducer. rewrite <- !app_assoc. by split.
Qed.

Lemma startsWith_app (k rest : string) : startsWith k (k +:+ rest) = true.
Proof. apply startsWith_spec. by exists rest. Qed.

Lemma substring0_app (n : nat) (k rest : string) :
  length16 k <= n ->
  substring0 n (k +:+ rest) = k +:+ substring0 (n - length16 k) rest.
Proof.
  revert n. induction k as [|c k IH]; intros n Hn.
  - change ("" +:+ rest) with rest. simpl. by rewrite Nat.sub_0_r.
  - cbn [length16] in Hn. rewrite !string_app_cons. cbn [substring0 length16].
    destruct (Nat.leb_spec (units c) n) as [Hle|Hgt]; [|lia].
    rewrite IH by lia. by rewrite Nat.sub_add_distr.
Qed.

Lemma summaryOf_keeps_start (k rest : string) :
  k ≠ "" -> length16 k <= 500 ->
  startsWith k (summaryOf (k +:+ rest)) = true.
Proof.
  intros Hne Hle. unfold summaryOf.
  destruct (500 <? length16 (k +:+ rest)).
  - rewrite substring0_app, string_app_assoc by done. apply startsWith_app.
  - destruct k as [|c k]; [done|]. rewrite string_app_cons.
    change (0 <? String.length (String c (k +:+ rest))) with true. cbv iota.
    rewrite <- string_app_cons. apply startsWith_app.
Qed.

Example banner_length : length16 auditBanner = 73 /\ String.length auditBanner = 75.
Proof. split; reflexivity. Qed.

Lemma banner_text (msg : BaseMessage) :
  exists rest,
    analysisTextOf (createSecurityAuditStartedMessage ++ [msg]) = auditBanner +:+ rest.
Proof.
  unfold analysisTextOf. cbn [createSecurityAuditStartedMessage app omap list_omap].
  destruct (textOf msg) as [t|].
  - exists (nl +:+ nl +:+ t). vm_compute. reflexivity.
  - exists "". vm_compute. reflexivity.
Qed.


(** X24.  In a run that finishes, the report is synthesized from every audit
    message present before Finalize -- those the run started with, the two
    opening messages of Initialize and the one message of Scan -- and
    Finalize appends its two messages to them.  Started without audit
    messages, the report's summary therefore begins with the opening banner
    of Initialize, not with the findings. *)
Theorem report_covers_transcript (o : Oracle) (state st : SecurityAuditorGraphState) :
  finished (result (run o () (workflow state))) = Returned st ->
  exists msg report,
    securityReport st = Some report
    /\ report = parseSecurityAnalysis
                  (auditMessages state ++ createSecurityAuditStartedMessage ++ [msg])
    /\ auditMessages st
       = auditMessages state ++ createSecurityAuditStartedMessage ++ [msg]
         ++ createSecurityCompletedMessage report
    /\ (auditMessages state = [] -> startsWith auditBanner (summary report) = true).
Proof.
  intros Hrun. destruct (workflow_transcript o state st Hrun) as (msg & _ & Hrep & Hmsgs).
  exists msg. eexists. split; [exact Hrep|]. split; [done|]. split.
  - rewrite Hmsgs. by rewrite <- !app_assoc.
  - intros ->. rewrite app_nil_l.
    destruct (banner_text msg) as [rest E].
    unfold parseSecurityAnalysis. cbn [summary]. rewrite E.
    apply summaryOf_keeps_start; [discriminate|]. vm_compute. repeat constructor.
Qed.

Lemma report_covers_transcript_witness :
  exists st msg report,
    finished (result (run failingDiff () (workflow sampleState))) = Returned st
    /\ securityReport st = Some report
    /\ report = parseSecurityAnalysis
                  (auditMessages sampleState ++ createSecurityAuditStartedMessage ++ [msg])
    /\ startsWith auditBanner (summary report) = true.
Proof.
  eexists.
  destruct (report_covers_transcript failingDiff sampleState _ eq_refl)
    as (msg & report & Hrep & Hparse & _ & Hbanner).
  exists msg, report. split; [reflexivity|]. split; [exact Hrep|].
  split; [exact Hparse|]. exact (Hbanner eq_refl).
Defined.

Lemma scan_failure_report :
  parseSecurityAnalysis (createSecurityAuditStartedMessage ++ [scanFailedMessage])
  = {| vulnerabilities := [];
       summary := analysisTextOf (createSecurityAuditStartedMessage ++ [scanFailedMessage]);
       overallRisk := low;
       recommendations := [] |}.
Proof. vm_compute. reflexivity. Qed.

(** X25.  A scan that fails is reported as a clean audit: when a run
    started without audit messages finishes and the message Scan left is its
    failure notice, the report states the overall risk low, with no
    vulnerabilities and no recommendations. *)
Theorem failed_scan_reported_low (o : Oracle) (state st : SecurityAuditorGraphState) :
  auditMessages state = [] ->
  finished (result (run o () (workflow state))) = Returned st ->
  auditMessages st !! 2 = Some scanFailedMessage ->
  exists report,
    securityReport st = Some report
    /\ overallRisk report = low
    /\ vulnerabilities report = []
    /\ recommendations report = [].
Proof.
  intros Hempty Hrun Hscan.
  destruct (workflow_transcript o state st Hrun) as (msg & _ & Hrep & Hmsgs).
  rewrite Hempty in *. rewrite Hmsgs in Hscan. cbn in Hscan. injection Hscan as ->.
  eexists. split; [exact Hrep|]. cbn [app]. by rewrite scan_failure_report.
Qed.

Lemma failed_scan_reported_low_witness :
  exists st report,
    finished (result (run failingDiff () (workflow sampleState))) = Returned st
    /\ securityReport st = Some report
    /\ overallRisk report = low.
Proof.
  eexists.
  destruct (failed_scan_reported_low failingDiff sampleState _ eq_refl eq_refl eq_refl)
    as (report & Hrep & Hlow & _).
  exists report. split; [reflexivity|]. split; [exact Hrep|exact Hlow].
Defined.

End AuditReportFacts.

(* ===================================================================== *)
(** * Environment file validation                                         *)
(* ===================================================================== *)

Section EnvFileFacts.
Import Text ErrorAnalysis EnvFile.

Lemma span_spec (p : ascii -> bool) (s : string) :
  s = fst (span p s) +:+ snd (span p s)
  /\ allChars p (fst (span p s)) = true
  /\ match snd (span p s) with
     | EmptyString => True
     | String c _ => p c = false
     end.
Proof.
  induction s as [|c s (IH1 & IH2 & IH3)]; [done|].
  cbn [span]. destruct (p c) eqn:Hc.
  - destruct (span p s) as [run rest]. cbn [fst snd allChars] in *.
    rewrite string_app_cons, <- IH1, Hc, IH2. done.
  - done.
Qed.

Lemma span_stop (p : ascii -> bool) (a : string) (c : ascii) (b : string) :
  allChars p a = true -> p c = false -> span p (a +:+ String c b) = (a, String c b).
Proof.
  intros Ha Hc. induction a as [|x a IH].
  - change ("" +:+ String c b) with (String c b). cbn [span]. by rewrite Hc.
  - cbn [allChars] in Ha. apply andb_true_iff in Ha as [Hx Ha].
    rewrite string_app_cons. cbn [span]. by rewrite Hx, IH.
Qed.

Lemma span_whole (p : ascii -> bool) (s : string) :
  snd (span p s) = "" -> allChars p s = true.
Proof.
  intros E. destruct (span_spec p s) as (Hs & Hall & _).
  rewrite E, string_app_nil_r in Hs. by rewrite Hs at 1.
Qed.

Lemma matchLine_parts (line key value : string) :
  matchLine line = Some (key, value)
  <-> line = key +:+ "=" +:+ value
      /\ key ≠ ""
      /\ allChars isKeyChar key = true
      /\ allChars (fun c => negb (isLineTerminator c)) value = true.
Proof.
  unfold matchLine. split.
  - destruct (span_spec isKeyChar line) as (Hline & Hkey & _).
    destruct (span isKeyChar line) as [k rest]. cbn [fst snd] in *.
    destruct k as [|c k]; [done|]. destruct rest as [|e v]; [done|].
    destruct (code e =? 61) eqn:He; [|done].
    destruct (span (fun c => negb (isLineTerminator c)) v) as [run tail] eqn:Ev.
    destruct tail; [|done]. intros [= <- <-].
    assert (e = "="%char) as ->.
    { apply Nat.eqb_eq in He. unfold code in He.
      rewrite <- (ascii_nat_embedding e), He. reflexivity. }
    split; [done|]. split; [done|]. split; [done|].
    apply span_whole. by rewrite Ev.
  - intros (-> & Hne & Hkey & Hvalue).
    change ("=" +:+ value) with (String "=" value).
    rewrite span_stop by done. destruct key as [|c k]; [done|].
    change (code "=" =? 61) with true. cbv iota.
    by rewrite span_all.
Qed.

(** X26.  A line assigns a variable exactly when it consists of a non-empty
    key without [#], [=] and whitespace, the sign [=], and a value without
    line terminators; the key is then everything before the first [=] and
    the value everything after it. *)
Theorem matchLine_spec (line key value : string) :
  matchLine line = Some (key, value)
  <-> line = key +:+ "=" +:+ value
      /\ key ≠ ""
      /\ allChars isKeyChar key = true
      /\ allChars (fun c => negb (isLineTerminator c)) value = true.
Proof. apply matchLine_parts. Qed.

Lemma dropLastQuote_snoc (s : string) :
  dropLastQuote (s +:+ String (ascii_of_nat 34) "") = s.
Proof.
  induction s as [|c s IH]; [reflexivity|].
  rewrite string_app_cons. cbn [dropLastQuote].
  destruct (s +:+ String (ascii_of_nat 34) "") eqn:E.
  - destruct s; discriminate.
  - by rewrite IH.
Qed.

(** X27.  Quoting round trip: a value written between double quotes is read
    back as written, whatever it contains; in particular an assignment of
    two double quotes is read as the empty value. *)
Theorem stripQuotes_quoted (value : string) :
  stripQuotes (String (ascii_of_nat 34) (value +:+ String (ascii_of_nat 34) "")) = value.
Proof. cbn [stripQuotes]. change (isQuote (ascii_of_nat 34)) with true. apply dropLastQuote_snoc. Qed.

Lemma readLine_lookup (envVars : gmap string string) (line name : string) :
  readLine envVars line !! name
  = match definesAs name line with
    | Some value => Some value
    | None => envVars !! name
    end.
Proof.
  unfold readLine, definesAs. destruct (matchLine line) as [[key value]|]; [|done].
  case_bool_decide as Hk.
  - subst. by rewrite lookup_insert_eq.
  - by rewrite lookup_insert_ne.
Qed.

Lemma readLines_lookup (lines : list string) (envVars : gmap string string)
    (name : string) :
  fold_left readLine lines envVars !! name
  = match last (omap (definesAs name) lines) with
    | Some value => Some value
    | None => envVars !! name
    end.
Proof.
  revert envVars. induction lines as [|line lines IH]; intros envVars; [done|].
  cbn [fold_left omap list_omap]. rewrite IH, readLine_lookup.
  destruct (definesAs name line) as [v|]; [|done].
  rewrite last_cons. by destruct (last (omap (definesAs name) lines)).
Qed.

Lemma parseEnv_lookup (envContent name : string) :
  parseEnv envContent !! name = lastDefinition name envContent.
Proof.
  unfold parseEnv, lastDefinition. rewrite readLines_lookup, lookup_empty.
  by destruct (last _).
Qed.


Lemma allChars_app (p : ascii -> bool) (a b : string) :
  allChars p (a +:+ b) = allChars p a && allChars p b.
Proof.
  induction a as [|c a IH]; [done|]. rewrite string_app_cons. cbn [allChars].
  by rewrite IH, andb_assoc.
Qed.

Lemma matchLine_CR (line : string) : endsWithCR line -> matchLine line = None.
Proof.
  intros [l ->]. destruct (matchLine _) as [[key value]|] eqn:E; [|done].
  exfalso. apply matchLine_parts in E as (Hline & _ & Hkey & Hvalue).
  assert (Hall : allChars (fun c => negb (code c =? 13)) (l +:+ String (ascii_of_nat 13) "")
                 = true).
  { rewrite Hline, !allChars_app. cbn [allChars].
    change (negb (code "=" =? 13) && true) with true. rewrite andb_true_l.
    apply andb_true_intro. split.
    - clear -Hkey. induction key as [|c key IH]; [done|].
      cbn [allChars] in *. apply andb_true_iff in Hkey as [Hc Hkey].
      rewrite IH by done. rewrite andb_true_r.
      unfold isKeyChar, isSpace in Hc. destruct (code c =? 13) eqn:E13; [|done].
      apply Nat.eqb_eq in E13. rewrite E13 in Hc. done.
    - clear -Hvalue. induction value as [|c value IH]; [done|].
      cbn [allChars] in *. apply andb_true_iff in Hvalue as [Hc Hvalue].
      rewrite IH by done. rewrite andb_true_r.
      unfold isLineTerminator in Hc. by destruct (code c =? 13), (code c =? 10). }
  rewrite allChars_app in Hall. cbn in Hall. by rewrite andb_false_r in Hall.
Qed.

Lemma readLines_nothing (lines : list string) (envVars : gmap string string) :
  Forall (fun line => matchLine line = None) lines ->
  fold_left readLine lines envVars = envVars.
Proof.
  intros Hlines. revert envVars.
  induction Hlines as [|line lines Hline _ IH]; intros envVars; [done|].
  cbn [fold_left]. unfold readLine at 2. by rewrite Hline, IH.
Qed.

(** X28.  A file with Windows line endings never validates: when every
    line is empty or ends with a carriage return, no line assigns anything,
    the parsed variables are empty, and the result is [false]. *)
Theorem crlf_file_fails (validUrl : string -> bool) (envContent : string) :
  Forall (fun line => line = "" \/ endsWithCR line) (splitLines envContent) ->
  parseEnv envContent = ∅
  /\ validateEnvironment validUrl (Some envContent) = false.
Proof.
  intros Hlines.
  assert (Hempty : parseEnv envContent = ∅).
  { apply readLines_nothing. eapply Forall_impl; [exact Hlines|].
    intros line [->|Hcr]; [reflexivity|by apply matchLine_CR]. }
  split; [done|]. unfold validateEnvironment. rewrite Hempty. reflexivity.
Qed.

Lemma crlf_file_fails_witness :
  parseEnv sampleEnvCRLF = ∅
  /\ validateEnvironment sampleValidUrl (Some sampleEnvCRLF) = false.
Proof.
  apply (crlf_file_fails sampleValidUrl sampleEnvCRLF).
  change (splitLines sampleEnvCRLF)
    with ["NEXT_PUBLIC_API_URL=http://localhost:3000/api" +:+ String (ascii_of_nat 13) "";
          "GITHUB_APP_ID=12" +:+ String (ascii_of_nat 13) ""; ""].
  repeat apply Forall_cons_2; [right; by eexists|right; by eexists|by left|].
  apply Forall_nil_2.
Defined.


Lemma isConfigured_spec (validUrl : string -> bool) (envContent name : string) :
  isConfigured validUrl envContent name = true <-> configured validUrl envContent name.
Proof.
  unfold isConfigured, configured, Audit.truthy.
  destruct (lastDefinition name envContent) as [value|].
  - case_bool_decide as Hv.
    + split; [done|]. intros (v & [= <-] & Hne & _). done.
    + split.
      * intros Hurl. exists value. split; [done|]. split; [done|].
        intros Hname. by rewrite Hname in Hurl.
      * intros (v & [= <-] & _ & Hurl). destruct (isUrlVar name); [by apply Hurl|done].
  - split; [done|]. by intros (v & ? & _).
Qed.

Lemma validateEnvironment_tests (validUrl : string -> bool) (envContent : string) :
  validateEnvironment validUrl (Some envContent)
  = forallb (isConfigured validUrl envContent) readNames.
Proof.
  unfold validateEnvironment, readNames, requiredGitHubVars, checkGitHubVar, isConfigured.
  cbn [fold_left forallb]. rewrite !parseEnv_lookup.
  change (isUrlVar "NEXT_PUBLIC_API_URL") with true.
  change (isUrlVar "NEXT_PUBLIC_GITHUB_APP_CLIENT_ID") with false.
  change (isUrlVar "GITHUB_APP_CLIENT_SECRET") with false.
  change (isUrlVar "GITHUB_APP_REDIRECT_URI") with true.
  change (isUrlVar "GITHUB_APP_ID") with false.
  change (isUrlVar "GITHUB_APP_PRIVATE_KEY") with false.
  change (bool_decide ("NEXT_PUBLIC_GITHUB_APP_CLIENT_ID" = "GITHUB_APP_REDIRECT_URI"))
    with false.
  change (bool_decide ("GITHUB_APP_CLIENT_SECRET" = "GITHUB_APP_REDIRECT_URI")) with false.
  change (bool_decide ("GITHUB_APP_REDIRECT_URI" = "GITHUB_APP_REDIRECT_URI")) with true.
  change (bool_decide ("GITHUB_APP_ID" = "GITHUB_APP_REDIRECT_URI")) with false.
  change (bool_decide ("GITHUB_APP_PRIVATE_KEY" = "GITHUB_APP_REDIRECT_URI")) with false.
  cbv iota.
  repeat match goal with
  | |- context [Audit.truthy ?x] => destruct (Audit.truthy x) as [?|]
  end; cbn;
  repeat match goal with
  | |- context [validUrl ?x] => destruct (validUrl x)
  end; reflexivity.
Qed.

(** X29.  The validation passes exactly when the file exists and gives each
    of the six names it reads a non-empty value -- the value of the last line
    that assigns the name, quotes stripped -- and the API URL and the
    redirect URI are of URL form. *)
Theorem validation_passes_iff (validUrl : string -> bool) (envFile : option string) :
  validateEnvironment validUrl envFile = true
  <-> exists envContent,
        envFile = Some envContent
        /\ forall name, name ∈ readNames -> configured validUrl envContent name.
Proof.
  destruct envFile as [envContent|].
  - rewrite validateEnvironment_tests, forallb_forall. split.
    + intros Hall. exists envContent. split; [done|]. intros name Hin.
      apply isConfigured_spec, Hall. by apply list_elem_of_In.
    + intros (c & [= <-] & Hall) name Hin.
      apply isConfigured_spec, Hall. by apply list_elem_of_In.
  - split; [done|]. by intros (c & ? & _).
Qed.

Example sampleEnv_passes : validateEnvironment sampleValidUrl (Some sampleEnv) = true.
Proof. rewrite validateEnvironment_tests. vm_compute. reflexivity. Qed.

Example sampleEnv_quoted_empty :
  validateEnvironment sampleValidUrl
    (Some (sampleEnv +:+ nl +:+ "GITHUB_APP_ID=" +:+ ErrorAnalysis.quote
           +:+ ErrorAnalysis.quote)) = false.
Proof. rewrite validateEnvironment_tests. vm_compute. reflexivity. Qed.

End EnvFileFacts.
